(** * leetshell: the buffer editor and the screen stack

    A shallow embedding of [leetshell/tui/editor.py] (class [CodeEditor]),
    of the base class [Screen] and the text helpers of
    [leetshell/tui/core.py], of the screen navigation of [leetshell/app.py],
    of the key handling of [leetshell/tui/problem_list.py] and of the line
    wrapping of [leetshell/tui/problem_detail.py], followed by the
    properties of the line buffer, the selection, the undo log, the
    highlight cache, the viewport, the screen stack, the problem list and
    the wrapped description.

    Python integers are [Z]; a Python [str] is a list of characters, each
    a code point below 256; a Python list is a list, indexed and sliced with
    Python's rules (module [Py]); a method of [CodeEditor] is a computation
    that threads the editor object and may stop with [IndexError], keeping
    what it had already assigned (monad [M]); the screens are objects on a
    heap, and a task is a step of the event loop (module [App]). *)

From Stdlib Require Import ZArith Lia Ascii String Decimal.
From stdpp Require Import base list strings gmap.

Local Open Scope Z_scope.

(** ** Python sequences *)

Module Py.

(** A Python [str]: its characters, each a code point below 256. *)
Abbreviation str := (list ascii).

Definition of_string (s : string) : str := list_ascii_of_string s.

Definition newline : ascii := "010"%char.
Definition tab : ascii := "009"%char.
Definition space : ascii := " "%char.
Definition underscore : ascii := "_"%char.

Section Seq.
Context {A : Type}.

(** [len(l)] *)
Definition len (l : list A) : Z := Z.of_nat (length l).

(** The position an index [i] denotes: a negative index counts from
    the end. *)
Definition index (l : list A) (i : Z) : Z :=
  if i <? 0 then i + len l else i.

Definition in_range (l : list A) (i : Z) : bool :=
  (0 <=? index l i) && (index l i <? len l).

(** [l[i]]; [None] stands for [IndexError]. *)
Definition getitem (l : list A) (i : Z) : option A :=
  if in_range l i then l !! Z.to_nat (index l i) else None.

(** [l[i] = x] *)
Definition setitem (l : list A) (i : Z) (x : A) : option (list A) :=
  if in_range l i then Some (<[Z.to_nat (index l i) := x]> l) else None.

(** [l.pop(i)]: the removed element and the remaining list. *)
Definition pop (l : list A) (i : Z) : option (A * list A) :=
  match getitem l i with
  | Some x => Some (x, delete (Z.to_nat (index l i)) l)
  | None => None
  end.

(** The bound of a slice: negative bounds count from the end, and every
    bound is clamped to [0 .. len(l)]. *)
Definition bound (l : list A) (i : Z) : nat :=
  Z.to_nat (if i <? 0 then Z.max 0 (i + len l) else Z.min i (len l)).

(** [l[:i]] and [l[i:]] *)
Definition slice_to (l : list A) (i : Z) : list A := take (bound l i) l.
Definition slice_from (l : list A) (i : Z) : list A := drop (bound l i) l.

(** [del l[i:j]] *)
Definition del_slice (l : list A) (i j : Z) : list A :=
  if (bound l i <? bound l j)%nat
  then take (bound l i) l ++ drop (bound l j) l
  else l.

(** [l.insert(i, x)] *)
Definition insert (l : list A) (i : Z) (x : A) : list A :=
  take (bound l i) l ++ x :: drop (bound l i) l.

(** [l.append(x)] *)
Definition append (l : list A) (x : A) : list A := l ++ [x].
End Seq.

(** [bool(s)] of a string or a list: non-empty. *)
Definition truthy {A} (l : list A) : bool :=
  match l with [] => false | _ => true end.

Definition is_newline (c : ascii) : bool := Ascii.eqb c newline.

(** [s.split("\n")] *)
Fixpoint split_nl (s : str) : list str :=
  match s with
  | [] => [[]]
  | c :: r =>
      if is_newline c then [] :: split_nl r
      else match split_nl r with
           | h :: t => (c :: h) :: t
           | [] => [[c]]
           end
  end.

(** ["\n".join(l)] *)
Fixpoint join_nl (l : list str) : str :=
  match l with
  | [] => []
  | x :: r =>
      match r with
      | [] => x
      | _ :: _ => x ++ newline :: join_nl r
      end
  end.

(** [c.isalnum()] of a character below 256: the decimal digits and the
    letters of the ASCII range and, above it, the letters (170, 181, 186,
    192 to 214, 216 to 246, 248 to 255), the superscript digits (178, 179,
    185) and the fractions (188 to 190). *)
Definition isalnum (c : ascii) : bool :=
  let n := nat_of_ascii c in
  ((48 <=? n) && (n <=? 57) || (65 <=? n) && (n <=? 90)
   || (97 <=? n) && (n <=? 122)
   || (n =? 170) || (n =? 178) || (n =? 179) || (n =? 181) || (n =? 185)
   || (n =? 186) || (188 <=? n) && (n <=? 190)
   || (192 <=? n) && (n <=? 214) || (216 <=? n) && (n <=? 246)
   || (248 <=? n) && (n <=? 255))%nat.

Definition str_eqb (a b : str) : bool := bool_decide (a = b).

(** [len(str(n))] for a length [n]: the number of decimal digits. *)
Definition digits (n : nat) : Z := Z.of_nat (Decimal.nb_digits (Nat.to_uint n)).

(** Comparison of pairs of integers, as Python compares tuples. *)
Definition pair_lt (a b : Z * Z) : bool :=
  (a.1 <? b.1) || ((a.1 =? b.1) && (a.2 <? b.2)).
Definition pair_eqb (a b : Z * Z) : bool :=
  (a.1 =? b.1) && (a.2 =? b.2).

End Py.


(** ** The code editor: [leetshell/tui/editor.py] *)

Module Editor.

(** A Pygments token type is the path of names below the root [Token]:
    [Token.Keyword.Constant] is [["Keyword"; "Constant"]], and [Token] itself
    the empty path, the only token type that is false as a condition. *)
Abbreviation token_type := (list string).

Definition parent (tt : token_type) : token_type := removelast tt.

(** [_TOKEN_COLORS] *)
Definition _TOKEN_COLORS : list (token_type * string) :=
  [ (["Keyword"], "cyan");
    (["Keyword"; "Constant"], "cyan");
    (["Keyword"; "Declaration"], "cyan");
    (["Keyword"; "Namespace"], "cyan");
    (["Keyword"; "Pseudo"], "cyan");
    (["Keyword"; "Reserved"], "cyan");
    (["Keyword"; "Type"], "cyan");
    (["Name"; "Builtin"], "blue");
    (["Name"; "Builtin"; "Pseudo"], "blue");
    (["Name"; "Class"], "yellow");
    (["Name"; "Decorator"], "magenta");
    (["Name"; "Exception"], "yellow");
    (["Name"; "Function"], "yellow");
    (["Name"; "Function"; "Magic"], "yellow");
    (["Literal"; "String"], "green");
    (["Literal"; "String"; "Affix"], "green");
    (["Literal"; "String"; "Backtick"], "green");
    (["Literal"; "String"; "Char"], "green");
    (["Literal"; "String"; "Delimiter"], "green");
    (["Literal"; "String"; "Doc"], "green");
    (["Literal"; "String"; "Double"], "green");
    (["Literal"; "String"; "Escape"], "bright_green");
    (["Literal"; "String"; "Heredoc"], "green");
    (["Literal"; "String"; "Interpol"], "bright_green");
    (["Literal"; "String"; "Other"], "green");
    (["Literal"; "String"; "Regex"], "green");
    (["Literal"; "String"; "Single"], "green");
    (["Literal"; "String"; "Symbol"], "green");
    (["Literal"; "Number"], "magenta");
    (["Literal"; "Number"; "Bin"], "magenta");
    (["Literal"; "Number"; "Float"], "magenta");
    (["Literal"; "Number"; "Hex"], "magenta");
    (["Literal"; "Number"; "Integer"], "magenta");
    (["Literal"; "Number"; "Oct"], "magenta");
    (["Comment"], "bright_black");
    (["Comment"; "Hashbang"], "bright_black");
    (["Comment"; "Multiline"], "bright_black");
    (["Comment"; "Preproc"], "bright_black");
    (["Comment"; "PreprocFile"], "bright_black");
    (["Comment"; "Single"], "bright_black");
    (["Comment"; "Special"], "bright_black");
    (["Operator"], "red");
    (["Operator"; "Word"], "cyan");
    (["Punctuation"], "white");
    (["Name"; "Tag"], "cyan");
    (["Name"; "Attribute"], "yellow") ]%string.

Fixpoint table_get (tt : token_type) (tbl : list (token_type * string))
  : option string :=
  match tbl with
  | [] => None
  | (k, v) :: r => if bool_decide (k = tt) then Some v else table_get tt r
  end.

(** The loop of [_get_color]: every round either returns or shortens the
    path, so [length tt] rounds reach the root. *)
Fixpoint _get_color_loop (fuel : nat) (tt : token_type) : string :=
  match fuel with
  | O => ""
  | S fuel' =>
      if Py.truthy tt then
        match table_get tt _TOKEN_COLORS with
        | Some c => c
        | None => _get_color_loop fuel' (parent tt)
        end
      else ""
  end.

Definition _get_color (tt : token_type) : string :=
  _get_color_loop (S (length tt)) tt.

(** A cursor or anchor position [(row, col)]. *)
Abbreviation pos := (Z * Z)%type.

(** An entry of the undo and redo stacks: [(lines_copy, cursor_row,
    cursor_col)]. *)
Abbreviation snapshot := (list Py.str * Z * Z)%type.

(** The attributes of a [CodeEditor]. The terminal handle [term] is left
    out; [_lexer] is determined by [_lang_name] (both are assigned together,
    in [__init__] and in [set_language]). *)
Record CodeEditor : Type := mkEditor {
  _lines : list Py.str;
  _cursor_row : Z;
  _cursor_col : Z;
  _scroll_row : Z;
  _scroll_col : Z;
  _lang_name : string;
  _highlighted : list (list (string * Py.str));
  _highlight_dirty : bool;
  dirty : bool;
  _gutter_width : Z;
  _sel_anchor : option pos;
  _undo_stack : list snapshot;
  _redo_stack : list snapshot
}.

(** [self._max_undo], assigned once, in [__init__]. *)
Definition _max_undo : Z := 200.

(** [CodeEditor.__init__] *)
Definition init (lang_name : string) : CodeEditor :=
  {| _lines := [[]]; _cursor_row := 0; _cursor_col := 0;
     _scroll_row := 0; _scroll_col := 0; _lang_name := lang_name;
     _highlighted := []; _highlight_dirty := true; dirty := true;
     _gutter_width := 4; _sel_anchor := None;
     _undo_stack := []; _redo_stack := [] |}.

(** Attribute assignments. *)
Definition set_lines (v : list Py.str) (s : CodeEditor) : CodeEditor :=
  mkEditor v (_cursor_row s) (_cursor_col s) (_scroll_row s) (_scroll_col s)
    (_lang_name s) (_highlighted s) (_highlight_dirty s) (dirty s)
    (_gutter_width s) (_sel_anchor s) (_undo_stack s) (_redo_stack s).
Definition set_cursor_row (v : Z) (s : CodeEditor) : CodeEditor :=
  mkEditor (_lines s) v (_cursor_col s) (_scroll_row s) (_scroll_col s)
    (_lang_name s) (_highlighted s) (_highlight_dirty s) (dirty s)
    (_gutter_width s) (_sel_anchor s) (_undo_stack s) (_redo_stack s).
Definition set_cursor_col (v : Z) (s : CodeEditor) : CodeEditor :=
  mkEditor (_lines s) (_cursor_row s) v (_scroll_row s) (_scroll_col s)
    (_lang_name s) (_highlighted s) (_highlight_dirty s) (dirty s)
    (_gutter_width s) (_sel_anchor s) (_undo_stack s) (_redo_stack s).
Definition set_scroll_row (v : Z) (s : CodeEditor) : CodeEditor :=
  mkEditor (_lines s) (_cursor_row s) (_cursor_col s) v (_scroll_col s)
    (_lang_name s) (_highlighted s) (_highlight_dirty s) (dirty s)
    (_gutter_width s) (_sel_anchor s) (_undo_stack s) (_redo_stack s).
Definition set_scroll_col (v : Z) (s : CodeEditor) : CodeEditor :=
  mkEditor (_lines s) (_cursor_row s) (_cursor_col s) (_scroll_row s) v
    (_lang_name s) (_highlighted s) (_highlight_dirty s) (dirty s)
    (_gutter_width s) (_sel_anchor s) (_undo_stack s) (_redo_stack s).
Definition set_lang_name (v : string) (s : CodeEditor) : CodeEditor :=
  mkEditor (_lines s) (_cursor_row s) (_cursor_col s) (_scroll_row s)
    (_scroll_col s) v (_highlighted s) (_highlight_dirty s) (dirty s)
    (_gutter_width s) (_sel_anchor s) (_undo_stack s) (_redo_stack s).
Definition set_highlighted (v : list (list (string * Py.str)))
  (s : CodeEditor) : CodeEditor :=
  mkEditor (_lines s) (_cursor_row s) (_cursor_col s) (_scroll_row s)
    (_scroll_col s) (_lang_name s) v (_highlight_dirty s) (dirty s)
    (_gutter_width s) (_sel_anchor s) (_undo_stack s) (_redo_stack s).
Definition set_highlight_dirty (v : bool) (s : CodeEditor) : CodeEditor :=
  mkEditor (_lines s) (_cursor_row s) (_cursor_col s) (_scroll_row s)
    (_scroll_col s) (_lang_name s) (_highlighted s) v (dirty s)
    (_gutter_width s) (_sel_anchor s) (_undo_stack s) (_redo_stack s).
Definition set_dirty (v : bool) (s : CodeEditor) : CodeEditor :=
  mkEditor (_lines s) (_cursor_row s) (_cursor_col s) (_scroll_row s)
    (_scroll_col s) (_lang_name s) (_highlighted s) (_highlight_dirty s) v
    (_gutter_width s) (_sel_anchor s) (_undo_stack s) (_redo_stack s).
Definition set_gutter_width (v : Z) (s : CodeEditor) : CodeEditor :=
  mkEditor (_lines s) (_cursor_row s) (_cursor_col s) (_scroll_row s)
    (_scroll_col s) (_lang_name s) (_highlighted s) (_highlight_dirty s)
    (dirty s) v (_sel_anchor s) (_undo_stack s) (_redo_stack s).
Definition set_sel_anchor (v : option pos) (s : CodeEditor) : CodeEditor :=
  mkEditor (_lines s) (_cursor_row s) (_cursor_col s) (_scroll_row s)
    (_scroll_col s) (_lang_name s) (_highlighted s) (_highlight_dirty s)
    (dirty s) (_gutter_width s) v (_undo_stack s) (_redo_stack s).
Definition set_undo_stack (v : list snapshot) (s : CodeEditor) : CodeEditor :=
  mkEditor (_lines s) (_cursor_row s) (_cursor_col s) (_scroll_row s)
    (_scroll_col s) (_lang_name s) (_highlighted s) (_highlight_dirty s)
    (dirty s) (_gutter_width s) (_sel_anchor s) v (_redo_stack s).
Definition set_redo_stack (v : list snapshot) (s : CodeEditor) : CodeEditor :=
  mkEditor (_lines s) (_cursor_row s) (_cursor_col s) (_scroll_row s)
    (_scroll_col s) (_lang_name s) (_highlighted s) (_highlight_dirty s)
    (dirty s) (_gutter_width s) (_sel_anchor s) (_undo_stack s) v.

(** *** Methods as computations on the editor object

    A method reads and assigns attributes of [self] and may raise
    [IndexError] from a list or string index; what was assigned before the
    exception stays assigned. *)
Inductive result (A : Type) : Type :=
| Ok (a : A)
| IndexError.
Arguments Ok {A} a.
Arguments IndexError {A}.

Definition M (A : Type) : Type := CodeEditor -> result A * CodeEditor.

Definition ret {A} (a : A) : M A := fun s => (Ok a, s).

Definition bind {A B} (m : M A) (k : A -> M B) : M B :=
  fun s =>
    match m s with
    | (Ok a, s') => k a s'
    | (IndexError, s') => (IndexError, s')
    end.

Notation "x <- m ;; k" := (bind m (fun x => k))
  (at level 100, m at next level, right associativity).
Notation "m ;; k" := (bind m (fun _ => k))
  (at level 100, right associativity).

(** Reading an expression of the attributes, and assigning. *)
Definition gets {A} (f : CodeEditor -> A) : M A := fun s => (Ok (f s), s).
Definition modify (f : CodeEditor -> CodeEditor) : M unit :=
  fun s => (Ok tt, f s).

(** An indexing that raises when it is out of range. *)
Definition index_or_raise {A} (o : option A) : M A :=
  fun s => match o with Some a => (Ok a, s) | None => (IndexError, s) end.

(** The object after the call, and what the call returned. *)
Definition exec {A} (m : M A) (s : CodeEditor) : CodeEditor := (m s).2.
Definition returned {A} (m : M A) (s : CodeEditor) : result A := (m s).1.

(** [self._lines[i]] and [self._lines[i] = v] *)
Definition lines_get (i : Z) : M Py.str :=
  ls <- gets _lines ;; index_or_raise (Py.getitem ls i).
Definition lines_set (i : Z) (v : Py.str) : M unit :=
  ls <- gets _lines ;;
  ls' <- index_or_raise (Py.setitem ls i v) ;;
  modify (set_lines ls').
(** [self._lines.pop(i)] *)
Definition lines_pop (i : Z) : M Py.str :=
  ls <- gets _lines ;;
  r <- index_or_raise (Py.pop ls i) ;;
  modify (set_lines r.2) ;;
  ret r.1.

(** [set_language]: the lexer follows the language name. *)
Definition set_language (lang_name : string) : M unit :=
  modify (set_lang_name lang_name) ;;
  modify (set_highlight_dirty true) ;;
  modify (set_dirty true).

(** [set_text] *)
Definition set_text (text : Py.str) : M unit :=
  modify (set_lines (if Py.truthy text then Py.split_nl text else [[]])) ;;
  modify (set_cursor_row 0) ;;
  modify (set_cursor_col 0) ;;
  modify (set_scroll_row 0) ;;
  modify (set_scroll_col 0) ;;
  modify (set_sel_anchor None) ;;
  modify (set_undo_stack []) ;;
  modify (set_redo_stack []) ;;
  modify (set_highlight_dirty true) ;;
  modify (set_dirty true).

(** [get_text] and [line_count] *)
Definition get_text (s : CodeEditor) : Py.str := Py.join_nl (_lines s).
Definition line_count (s : CodeEditor) : Z := Py.len (_lines s).

(** *** Selection *)

(** [_sel_range]: [None], or [(start, end)] in lexicographic order. *)
Definition _sel_range (s : CodeEditor) : option (pos * pos) :=
  match _sel_anchor s with
  | None => None
  | Some anchor =>
      let cursor := (_cursor_row s, _cursor_col s) in
      if Py.pair_eqb anchor cursor then None
      else if Py.pair_lt anchor cursor then Some (anchor, cursor)
      else Some (cursor, anchor)
  end.

(** [_in_selection] *)
Definition _in_selection (s : CodeEditor) (row col : Z) : bool :=
  match _sel_range s with
  | None => false
  | Some ((sr, sc), (er, ec)) =>
      if (row <? sr) || (row >? er) then false
      else if (row =? sr) && (row =? er) then (sc <=? col) && (col <? ec)
      else if row =? sr then col >=? sc
      else if row =? er then col <? ec
      else true
  end.

(** *** Undo and redo *)

(** The triple [(list(self._lines), self._cursor_row, self._cursor_col)]. *)
Definition current_snapshot (s : CodeEditor) : snapshot :=
  (_lines s, _cursor_row s, _cursor_col s).

(** [_save_undo] *)
Definition _save_undo : M unit :=
  modify (fun s => set_undo_stack
                     (Py.append (_undo_stack s) (current_snapshot s)) s) ;;
  n <- gets (fun s => Py.len (_undo_stack s)) ;;
  (if n >? _max_undo then
     st <- gets _undo_stack ;;
     r <- index_or_raise (Py.pop st 0) ;;
     modify (set_undo_stack r.2)
   else ret tt) ;;
  modify (set_redo_stack []).

(** Restoring a popped snapshot: the common tail of [_undo] and [_redo]. *)
Definition restore (snap : snapshot) : M unit :=
  let '(lines, row, col) := snap in
  modify (set_lines lines) ;;
  modify (set_cursor_row row) ;;
  modify (set_cursor_col col) ;;
  modify (set_sel_anchor None) ;;
  modify (set_highlight_dirty true) ;;
  modify (set_dirty true).

(** [_undo] *)
Definition _undo : M unit :=
  st <- gets _undo_stack ;;
  if negb (Py.truthy st) then ret tt
  else
    modify (fun s => set_redo_stack
                       (Py.append (_redo_stack s) (current_snapshot s)) s) ;;
    st <- gets _undo_stack ;;
    r <- index_or_raise (Py.pop st (-1)) ;;
    modify (set_undo_stack r.2) ;;
    restore r.1.

(** [_redo] *)
Definition _redo : M unit :=
  st <- gets _redo_stack ;;
  if negb (Py.truthy st) then ret tt
  else
    modify (fun s => set_undo_stack
                       (Py.append (_undo_stack s) (current_snapshot s)) s) ;;
    st <- gets _redo_stack ;;
    r <- index_or_raise (Py.pop st (-1)) ;;
    modify (set_redo_stack r.2) ;;
    restore r.1.

(** [_delete_selection] *)
Definition _delete_selection : M bool :=
  sel <- gets _sel_range ;;
  match sel with
  | None => ret false
  | Some ((sr, sc), (er, ec)) =>
      _save_undo ;;
      (if sr =? er then
         line <- lines_get sr ;;
         lines_set sr (Py.slice_to line sc ++ Py.slice_from line ec)
       else
         l1 <- lines_get sr ;;
         let first := Py.slice_to l1 sc in
         l2 <- lines_get er ;;
         let last := Py.slice_from l2 ec in
         lines_set sr (first ++ last) ;;
         modify (fun s => set_lines
                            (Py.del_slice (_lines s) (sr + 1) (er + 1)) s)) ;;
      modify (set_cursor_row sr) ;;
      modify (set_cursor_col sc) ;;
      modify (set_sel_anchor None) ;;
      modify (set_highlight_dirty true) ;;
      modify (set_dirty true) ;;
      ret true
  end.

(** *** Editing operations *)

(** [_insert_char] *)
Definition _insert_char (ch : Py.str) : M unit :=
  row <- gets _cursor_row ;;
  line <- lines_get row ;;
  col <- gets _cursor_col ;;
  lines_set row (Py.slice_to line col ++ ch ++ Py.slice_from line col) ;;
  modify (fun s => set_cursor_col (_cursor_col s + Py.len ch) s) ;;
  modify (set_highlight_dirty true) ;;
  modify (set_dirty true).

(** [_insert_text] *)
Definition _insert_text (text : Py.str) : M unit :=
  row <- gets _cursor_row ;;
  line <- lines_get row ;;
  col <- gets _cursor_col ;;
  lines_set row (Py.slice_to line col ++ text ++ Py.slice_from line col) ;;
  modify (fun s => set_cursor_col (_cursor_col s + Py.len text) s) ;;
  modify (set_highlight_dirty true) ;;
  modify (set_dirty true).

(** [_backspace] *)
Definition _backspace : M unit :=
  col <- gets _cursor_col ;;
  row <- gets _cursor_row ;;
  if col >? 0 then
    line <- lines_get row ;;
    lines_set row (Py.slice_to line (col - 1) ++ Py.slice_from line col) ;;
    modify (set_cursor_col (col - 1)) ;;
    modify (set_highlight_dirty true) ;;
    modify (set_dirty true)
  else if row >? 0 then
    prev <- lines_get (row - 1) ;;
    let prev_len := Py.len prev in
    cur <- lines_get row ;;
    lines_set (row - 1) (prev ++ cur) ;;
    lines_pop row ;;
    modify (set_cursor_row (row - 1)) ;;
    modify (set_cursor_col prev_len) ;;
    modify (set_highlight_dirty true) ;;
    modify (set_dirty true)
  else ret tt.

(** [_delete] *)
Definition _delete : M unit :=
  row <- gets _cursor_row ;;
  line <- lines_get row ;;
  col <- gets _cursor_col ;;
  n <- gets (fun s => Py.len (_lines s)) ;;
  if col <? Py.len line then
    lines_set row (Py.slice_to line col ++ Py.slice_from line (col + 1)) ;;
    modify (set_highlight_dirty true) ;;
    modify (set_dirty true)
  else if row <? n - 1 then
    cur <- lines_get row ;;
    next <- lines_get (row + 1) ;;
    lines_set row (cur ++ next) ;;
    lines_pop (row + 1) ;;
    modify (set_highlight_dirty true) ;;
    modify (set_dirty true)
  else ret tt.

(** The loop of [_enter] that collects the leading blanks of the line. *)
Fixpoint leading_indent (line : Py.str) : Py.str :=
  match line with
  | [] => []
  | ch :: rest =>
      if Ascii.eqb ch Py.space || Ascii.eqb ch Py.tab
      then ch :: leading_indent rest
      else []
  end.

(** [_enter] *)
Definition _enter : M unit :=
  row <- gets _cursor_row ;;
  line <- lines_get row ;;
  let indent := leading_indent line in
  col <- gets _cursor_col ;;
  let before := Py.slice_to line col in
  let after := Py.slice_from line col in
  lines_set row before ;;
  modify (fun s => set_lines (Py.insert (_lines s) (row + 1) (indent ++ after)) s) ;;
  modify (set_cursor_row (row + 1)) ;;
  modify (set_cursor_col (Py.len indent)) ;;
  modify (set_highlight_dirty true) ;;
  modify (set_dirty true).

(** *** Cursor movement *)

(** [len(self._lines[self._cursor_row])] at the current row. *)
Definition cur_line_len : M Z :=
  row <- gets _cursor_row ;;
  line <- lines_get row ;;
  ret (Py.len line).

(** [_move_up] *)
Definition _move_up : M unit :=
  row <- gets _cursor_row ;;
  if row >? 0 then
    modify (set_cursor_row (row - 1)) ;;
    n <- cur_line_len ;;
    modify (fun s => set_cursor_col (Z.min (_cursor_col s) n) s) ;;
    modify (set_dirty true)
  else ret tt.

(** [_move_down] *)
Definition _move_down : M unit :=
  row <- gets _cursor_row ;;
  n <- gets (fun s => Py.len (_lines s)) ;;
  if row <? n - 1 then
    modify (set_cursor_row (row + 1)) ;;
    n <- cur_line_len ;;
    modify (fun s => set_cursor_col (Z.min (_cursor_col s) n) s) ;;
    modify (set_dirty true)
  else ret tt.

(** [_move_left] *)
Definition _move_left : M unit :=
  col <- gets _cursor_col ;;
  row <- gets _cursor_row ;;
  if col >? 0 then
    modify (set_cursor_col (col - 1)) ;;
    modify (set_dirty true)
  else if row >? 0 then
    modify (set_cursor_row (row - 1)) ;;
    n <- cur_line_len ;;
    modify (set_cursor_col n) ;;
    modify (set_dirty true)
  else ret tt.

(** [_move_right] *)
Definition _move_right : M unit :=
  row <- gets _cursor_row ;;
  line <- lines_get row ;;
  col <- gets _cursor_col ;;
  n <- gets (fun s => Py.len (_lines s)) ;;
  if col <? Py.len line then
    modify (set_cursor_col (col + 1)) ;;
    modify (set_dirty true)
  else if row <? n - 1 then
    modify (set_cursor_row (row + 1)) ;;
    modify (set_cursor_col 0) ;;
    modify (set_dirty true)
  else ret tt.

(** [line[i].isalnum() or line[i] == "_"]; [None] when [line[i]] raises. *)
Definition word_at (line : Py.str) (i : Z) : option bool :=
  match Py.getitem line i with
  | Some c => Some (Py.isalnum c || Ascii.eqb c Py.underscore)
  | None => None
  end.

(** A [while cond(col): col += step] loop over a column. [cond] is [None]
    when evaluating the condition raises. A round that finds the condition
    false leaves the loop; [fuel] bounds the number of rounds. *)
Fixpoint col_loop (fuel : nat) (cond : Z -> option bool) (step col : Z)
  : option Z :=
  match fuel with
  | O => Some col
  | S fuel' =>
      match cond col with
      | None => None
      | Some true => col_loop fuel' cond step (col + step)
      | Some false => Some col
      end
  end.

(** The four loop conditions of the word movements, with Python's
    short-circuit [and]. *)
Definition cond_right_word (line : Py.str) (col : Z) : option bool :=
  if col <? Py.len line then word_at line col else Some false.
Definition cond_right_other (line : Py.str) (col : Z) : option bool :=
  if col <? Py.len line then option_map negb (word_at line col) else Some false.
Definition cond_left_other (line : Py.str) (col : Z) : option bool :=
  if col >? 0 then option_map negb (word_at line col) else Some false.
Definition cond_left_word (line : Py.str) (col : Z) : option bool :=
  if col >? 0 then word_at line (col - 1) else Some false.

(** The two loops of [_move_word_right] from column [col]: each round moves
    one column to the right and stops at [len(line)] at the latest. *)
Definition word_right_col (line : Py.str) (col : Z) : option Z :=
  match col_loop (Z.to_nat (Py.len line - col)) (cond_right_word line) 1 col with
  | None => None
  | Some c =>
      col_loop (Z.to_nat (Py.len line - c)) (cond_right_other line) 1 c
  end.

(** The two loops of [_move_word_left] from column [col]: each round moves
    one column to the left and stops at [0] at the latest. *)
Definition word_left_col (line : Py.str) (col : Z) : option Z :=
  match col_loop (Z.to_nat col) (cond_left_other line) (-1) col with
  | None => None
  | Some c => col_loop (Z.to_nat c) (cond_left_word line) (-1) c
  end.

(** [_move_word_left] *)
Definition _move_word_left : M unit :=
  col <- gets _cursor_col ;;
  row <- gets _cursor_row ;;
  (if col >? 0 then
     line <- lines_get row ;;
     c <- index_or_raise (word_left_col line (col - 1)) ;;
     modify (set_cursor_col c)
   else if row >? 0 then
     modify (set_cursor_row (row - 1)) ;;
     n <- cur_line_len ;;
     modify (set_cursor_col n)
   else ret tt) ;;
  modify (set_dirty true).

(** [_move_word_right] *)
Definition _move_word_right : M unit :=
  row <- gets _cursor_row ;;
  line <- lines_get row ;;
  col <- gets _cursor_col ;;
  n <- gets (fun s => Py.len (_lines s)) ;;
  (if col <? Py.len line then
     c <- index_or_raise (word_right_col line col) ;;
     modify (set_cursor_col c)
   else if row <? n - 1 then
     modify (set_cursor_row (row + 1)) ;;
     modify (set_cursor_col 0)
   else ret tt) ;;
  modify (set_dirty true).

(** [_page_up] *)
Definition _page_up : M unit :=
  modify (fun s => set_cursor_row (Z.max 0 (_cursor_row s - 20)) s) ;;
  n <- cur_line_len ;;
  modify (fun s => set_cursor_col (Z.min (_cursor_col s) n) s) ;;
  modify (set_dirty true).

(** [_page_down] *)
Definition _page_down : M unit :=
  modify (fun s => set_cursor_row
                     (Z.min (Py.len (_lines s) - 1) (_cursor_row s + 20)) s) ;;
  n <- cur_line_len ;;
  modify (fun s => set_cursor_col (Z.min (_cursor_col s) n) s) ;;
  modify (set_dirty true).

(** *** Keystrokes *)

(** A keystroke is a string (the characters read) with two attributes:
    [name], the name of the logical key when there is one, and
    [is_sequence]. *)
Record Keystroke : Type := mkKey {
  text : Py.str;
  name : option string;
  is_sequence : bool
}.

(** [name == n] and [name in names] *)
Definition name_is (k : Keystroke) (n : string) : bool :=
  match name k with
  | Some m => String.eqb m n
  | None => false
  end.
Definition name_in (k : Keystroke) (names : list string) : bool :=
  existsb (name_is k) names.

(** [key == c] for a one-character string [c] *)
Definition key_is (k : Keystroke) (c : ascii) : bool :=
  Py.str_eqb (text k) [c].

Definition selection_keys : list string :=
  ["kUP2"; "kDN2"; "kLFT2"; "kRIT2"; "kLFT6"; "kRIT6"; "kUP6"; "kDN6";
   "kHOM2"; "kEND2"]%string.

Definition ctrl_U : ascii := "021"%char.
Definition ctrl_Z : ascii := "026"%char.
Definition ctrl_R : ascii := "018"%char.
Definition ctrl_Y : ascii := "025"%char.

(** The cursor jumps to an end of the selection: the shared body of the
    [KEY_LEFT] and [KEY_RIGHT] branches taken when an anchor is set. *)
Definition collapse_to (pick : pos * pos -> pos) : M unit :=
  sel <- gets _sel_range ;;
  match sel with
  | Some r =>
      modify (set_cursor_row (pick r).1) ;;
      modify (set_cursor_col (pick r).2)
  | None => ret tt
  end ;;
  modify (set_sel_anchor None) ;;
  modify (set_dirty true).

(** [handle_key]: the result is whether the key was consumed. *)
Definition handle_key (key : Keystroke) : M bool :=
  (* Selection movement (Shift+arrows) *)
  if name_in key selection_keys then
    anchor <- gets _sel_anchor ;;
    (match anchor with
     | None => modify (fun s => set_sel_anchor
                                  (Some (_cursor_row s, _cursor_col s)) s)
     | Some _ => ret tt
     end) ;;
    (if name_in key ["kUP2"; "kUP6"]%string then _move_up
     else if name_in key ["kDN2"; "kDN6"]%string then _move_down
     else if name_is key "kLFT2" then _move_left
     else if name_is key "kRIT2" then _move_right
     else if name_is key "kLFT6" then _move_word_left
     else if name_is key "kRIT6" then _move_word_right
     else if name_is key "kHOM2" then
       modify (set_cursor_col 0) ;;
       modify (set_dirty true)
     else if name_is key "kEND2" then
       n <- cur_line_len ;;
       modify (set_cursor_col n) ;;
       modify (set_dirty true)
     else ret tt) ;;
    ret true
  (* Word movement (Ctrl+Left/Right) *)
  else if name_is key "kLFT5" then
    modify (set_sel_anchor None) ;; _move_word_left ;; ret true
  else if name_is key "kRIT5" then
    modify (set_sel_anchor None) ;; _move_word_right ;; ret true
  (* Regular cursor movement (clears selection) *)
  else if name_is key "KEY_UP" then
    modify (set_sel_anchor None) ;; _move_up ;; ret true
  else if name_is key "KEY_DOWN" then
    modify (set_sel_anchor None) ;; _move_down ;; ret true
  else if name_is key "KEY_LEFT" then
    anchor <- gets _sel_anchor ;;
    match anchor with
    | Some _ => collapse_to fst ;; ret true
    | None => _move_left ;; ret true
    end
  else if name_is key "KEY_RIGHT" then
    anchor <- gets _sel_anchor ;;
    match anchor with
    | Some _ => collapse_to snd ;; ret true
    | None => _move_right ;; ret true
    end
  else if name_is key "KEY_HOME" then
    modify (set_sel_anchor None) ;;
    modify (set_cursor_col 0) ;;
    modify (set_dirty true) ;;
    ret true
  else if name_is key "KEY_END" then
    modify (set_sel_anchor None) ;;
    n <- cur_line_len ;;
    modify (set_cursor_col n) ;;
    modify (set_dirty true) ;;
    ret true
  else if name_is key "KEY_PGUP" then
    modify (set_sel_anchor None) ;; _page_up ;; ret true
  else if name_is key "KEY_PGDOWN" then
    modify (set_sel_anchor None) ;; _page_down ;; ret true
  (* Undo / Redo *)
  else if key_is key ctrl_U || key_is key ctrl_Z then
    _undo ;; ret true
  else if key_is key ctrl_R || key_is key ctrl_Y then
    _redo ;; ret true
  (* Editing (replaces selection if active) *)
  else if name_is key "KEY_BACKSPACE" then
    deleted <- _delete_selection ;;
    if deleted then ret true
    else _save_undo ;; _backspace ;; ret true
  else if name_is key "KEY_DELETE" then
    deleted <- _delete_selection ;;
    if deleted then ret true
    else _save_undo ;; _delete ;; ret true
  else if name_is key "KEY_ENTER" then
    _save_undo ;; _delete_selection ;; _enter ;; ret true
  else if name_is key "KEY_TAB" || key_is key Py.tab then
    _save_undo ;; _delete_selection ;;
    _insert_text (Py.of_string "    ") ;; ret true
  (* Character insertion *)
  else if Py.truthy (text key) && negb (is_sequence key) then
    _save_undo ;; _delete_selection ;; _insert_char (text key) ;; ret true
  else ret false.

(** *** Highlighting and rendering *)

(** The per-line token lists built so far and the list of the line being
    built: [(self._highlighted, current_line)]. *)
Abbreviation hl_acc :=
  (list (list (string * Py.str)) * list (string * Py.str))%type.

(** One round of the inner loop of [_rehighlight], for part [part] at index
    [i] of [value.split("\n")]. *)
Definition add_part (color : string) (acc : hl_acc) (ip : nat * Py.str)
  : hl_acc :=
  let acc1 :=
    if (0 <? ip.1)%nat then (Py.append acc.1 acc.2, []) else acc in
  if Py.truthy ip.2 then (acc1.1, Py.append acc1.2 (color, ip.2)) else acc1.

(** One round of the outer loop, for one token of the stream. *)
Definition add_token (acc : hl_acc) (tok : token_type * Py.str) : hl_acc :=
  let color := _get_color tok.1 in
  foldl (add_part color) acc (imap pair (Py.split_nl tok.2)).

(** The padding loop [while len(highlighted) < n: highlighted.append([])];
    every round adds one list, so [n] rounds are enough. *)
Fixpoint pad_loop (fuel : nat) (n : nat) (hl : list (list (string * Py.str)))
  : list (list (string * Py.str)) :=
  match fuel with
  | O => hl
  | S fuel' =>
      if (length hl <? n)%nat then pad_loop fuel' n (Py.append hl []) else hl
  end.

(** The cache built from a token stream for a buffer of [n] lines. *)
Definition split_tokens (tokens : list (token_type * Py.str)) (n : nat)
  : list (list (string * Py.str)) :=
  let acc := foldl add_token ([], []) tokens in
  pad_loop n n (Py.append acc.1 acc.2).

Section Lexer.

(** [lex lang text]: the token stream Pygments produces for [text] with the
    lexer of language [lang]. *)
Variable lex : string -> Py.str -> list (token_type * Py.str).

(** [_rehighlight] *)
Definition _rehighlight : M unit :=
  hd <- gets _highlight_dirty ;;
  if negb hd then ret tt
  else
    modify (set_highlight_dirty false) ;;
    full_text <- gets (fun s => Py.join_nl (_lines s)) ;;
    lang <- gets _lang_name ;;
    let tokens := lex lang full_text in
    modify (fun s => set_highlighted
                       (split_tokens tokens (length (_lines s))) s).

(** [render]: what it assigns. The loop that writes the rows to the
    terminal reads the attributes and assigns none of them; its indexings
    are guarded by [line_idx < len(...)], so with a scroll row that is not
    negative it raises nothing. It is not part of the editor object and is
    left out. *)
Definition render (x y width height : Z) : M unit :=
  _rehighlight ;;
  modify (fun s => set_gutter_width
                     (Z.max 4 (Py.digits (length (_lines s)) + 2)) s) ;;
  gutter <- gets _gutter_width ;;
  let code_width := width - gutter in
  (* Ensure cursor is visible *)
  row <- gets _cursor_row ;;
  srow <- gets _scroll_row ;;
  (if row <? srow then modify (set_scroll_row row)
   else if row >=? srow + height then modify (set_scroll_row (row - height + 1))
   else ret tt) ;;
  col <- gets _cursor_col ;;
  scol <- gets _scroll_col ;;
  (if col <? scol then modify (set_scroll_col col)
   else if col >=? scol + code_width
        then modify (set_scroll_col (col - code_width + 1))
   else ret tt) ;;
  modify (set_dirty false).

(** The calls a screen makes on its editor. *)
Inductive call : Type :=
| CallKey (key : Keystroke)
| CallSetText (text : Py.str)
| CallSetLanguage (lang_name : string)
| CallRender (x y width height : Z).

Definition do_call (c : call) (s : CodeEditor) : CodeEditor :=
  match c with
  | CallKey key => exec (handle_key key) s
  | CallSetText text => exec (set_text text) s
  | CallSetLanguage lang_name => exec (set_language lang_name) s
  | CallRender x y width height => exec (render x y width height) s
  end.

(** The editor after a sequence of calls, each on the object the previous
    one left (also when that one raised). *)
Definition do_calls (cs : list call) (s : CodeEditor) : CodeEditor :=
  foldl (fun s c => do_call c s) s cs.

End Lexer.

(** A sequence of keystrokes. *)
Definition press (keys : list Keystroke) (s : CodeEditor) : CodeEditor :=
  foldl (fun s k => exec (handle_key k) s) s keys.

(** Keystrokes as the terminal library delivers them. *)
Definition named (n : string) : Keystroke :=
  {| text := []; name := Some n; is_sequence := true |}.
Definition char_key (c : string) : Keystroke :=
  {| text := Py.of_string c; name := None; is_sequence := false |}.

End Editor.


(** ** Screens and the screen stack: [tui/core.py] and [app.py] *)

Module App.

(** The attributes of the base class [Screen]. *)
Record Screen : Type := mkScreen {
  dirty : bool;
  _prev_width : Z;
  _prev_height : Z
}.

(** [Screen.invalidate] *)
Definition invalidate (sc : Screen) : Screen :=
  mkScreen true (_prev_width sc) (_prev_height sc).

(** [Screen.__init__] *)
Definition new_screen : Screen := mkScreen true 0 0.

(** A screen object of one of the five classes of screens: the attributes
    of the base class and, of the attributes of its own class, those that
    [on_enter] and the tasks of the class read or assign.
    - [ProblemListScreen]: [has_problems] is [bool(self._problems)];
    - [ProblemDetailScreen]: [has_detail] is [self._detail is not None]. *)
Inductive ScreenObject : Type :=
| LoginScreen (base : Screen)
| ProblemListScreen (base : Screen) (has_problems _loading : bool)
| ProblemDetailScreen (base : Screen) (has_detail _loading : bool)
| TestResultScreen (base : Screen)
| SubmissionResultScreen (base : Screen).

Definition base (o : ScreenObject) : Screen :=
  match o with
  | LoginScreen b | ProblemListScreen b _ _ | ProblemDetailScreen b _ _
  | TestResultScreen b | SubmissionResultScreen b => b
  end.

(** An assignment to the attributes of the base class. *)
Definition with_base (f : Screen -> Screen) (o : ScreenObject)
  : ScreenObject :=
  match o with
  | LoginScreen b => LoginScreen (f b)
  | ProblemListScreen b h l => ProblemListScreen (f b) h l
  | ProblemDetailScreen b h l => ProblemDetailScreen (f b) h l
  | TestResultScreen b => TestResultScreen (f b)
  | SubmissionResultScreen b => SubmissionResultScreen (f b)
  end.

(** [self._loading = v] *)
Definition set_loading (v : bool) (o : ScreenObject) : ScreenObject :=
  match o with
  | ProblemListScreen b h _ => ProblemListScreen b h v
  | ProblemDetailScreen b h _ => ProblemDetailScreen b h v
  | _ => o
  end.

(** [self._problems = problems], where [v] is [bool(problems)], and
    [self._detail = detail], where [v] is [True] *)
Definition set_data (v : bool) (o : ScreenObject) : ScreenObject :=
  match o with
  | ProblemListScreen b _ l => ProblemListScreen b v l
  | ProblemDetailScreen b _ l => ProblemDetailScreen b v l
  | _ => o
  end.

(** The two coroutines [_run]: of [_action_test] and of [_action_submit]. *)
Inductive RunKind : Type := Test | Submit.

(** The tasks made with [asyncio.create_task]; a task of a screen holds the
    screen that launched it ([self]) in its closure.
    - [Wrapper]: the coroutine [_wrapper] of [Screen.run_async], around a
      coroutine that is opaque to it;
    - [FetchProblems]: [ProblemListScreen._fetch_problems];
    - [FetchDetail]: [ProblemDetailScreen._fetch_detail];
    - [RunResult]: the coroutine [_run] of [ProblemDetailScreen._action_test]
      and [_action_submit];
    - [Relogin]: the coroutine [_relogin] of [show_login_on_auth_error]. *)
Inductive Task : Type :=
| Wrapper (owner : nat)
| FetchProblems (owner : nat)
| FetchDetail (owner : nat)
| RunResult (kind : RunKind) (owner : nat)
| Relogin.

Definition owner (t : Task) : option nat :=
  match t with
  | Wrapper o | FetchProblems o | FetchDetail o | RunResult _ o => Some o
  | Relogin => None
  end.

(** The application and the event loop. Screens are objects: [heap] maps the
    identity of every live screen to its attributes, and the stack and the
    tasks refer to screens by identity, so a popped screen that a task still
    holds stays in [heap]. [tasks] are the tasks created and not yet
    finished. Of the notification the text is kept, not the time at which
    it expires. *)
Record LeetCodeApp : Type := mkApp {
  heap : gmap nat ScreenObject;
  _screen_stack : list nat;
  _running : bool;
  _notification : string;
  tasks : list Task
}.

Definition set_heap (v : gmap nat ScreenObject) (a : LeetCodeApp) :=
  mkApp v (_screen_stack a) (_running a) (_notification a) (tasks a).
Definition set_screen_stack (v : list nat) (a : LeetCodeApp) :=
  mkApp (heap a) v (_running a) (_notification a) (tasks a).
Definition set_running (v : bool) (a : LeetCodeApp) :=
  mkApp (heap a) (_screen_stack a) v (_notification a) (tasks a).
Definition set_notification (v : string) (a : LeetCodeApp) :=
  mkApp (heap a) (_screen_stack a) (_running a) v (tasks a).
Definition set_tasks (v : list Task) (a : LeetCodeApp) :=
  mkApp (heap a) (_screen_stack a) (_running a) (_notification a) v.

(** [current_screen] *)
Definition current_screen (a : LeetCodeApp) : option nat :=
  if Py.truthy (_screen_stack a) then Py.getitem (_screen_stack a) (-1)
  else None.

(** Assignments to attributes of the screen object [id]. *)
Definition on_object (id : nat) (f : ScreenObject -> ScreenObject)
  (a : LeetCodeApp) : LeetCodeApp :=
  set_heap (alter f id (heap a)) a.
Definition on_screen (id : nat) (f : Screen -> Screen) (a : LeetCodeApp)
  : LeetCodeApp :=
  on_object id (with_base f) a.

(** [asyncio.create_task] *)
Definition create_task (t : Task) (a : LeetCodeApp) : LeetCodeApp :=
  set_tasks (Py.append (tasks a) t) a.

(** [screen.on_enter()] on the screen object [id], by the class of the
    object:
    - [ProblemListScreen.on_enter]: [self.invalidate()], and when
      [self._problems] is empty, [self._loading = True] and a task for
      [self._fetch_problems()];
    - [ProblemDetailScreen.on_enter]: [self.invalidate()], and when
      [self._detail is None], a task for [self._fetch_detail()];
    - [LoginScreen.on_enter]: [self._show_method_step()], which assigns
      attributes of the login screen and ends with [self.invalidate()];
    - the result screens have the [on_enter] of the base class,
      [self.invalidate()]. *)
Definition on_enter (id : nat) (a : LeetCodeApp) : LeetCodeApp :=
  match heap a !! id with
  | Some (ProblemListScreen _ has_problems _) =>
      let a := on_screen id invalidate a in
      if has_problems then a
      else create_task (FetchProblems id) (on_object id (set_loading true) a)
  | Some (ProblemDetailScreen _ has_detail _) =>
      let a := on_screen id invalidate a in
      if has_detail then a else create_task (FetchDetail id) a
  | Some (LoginScreen _) | Some (TestResultScreen _)
  | Some (SubmissionResultScreen _) => on_screen id invalidate a
  | None => a
  end.

(** [screen.on_exit()]: no class overrides the [pass] of the base class. *)
Definition on_exit (id : nat) (a : LeetCodeApp) : LeetCodeApp := a.

(** [exit] *)
Definition exit (a : LeetCodeApp) : LeetCodeApp := set_running false a.

(** [notify] *)
Definition notify (msg : string) (a : LeetCodeApp) : LeetCodeApp :=
  let a := set_notification msg a in
  match current_screen a with
  | Some id => on_screen id invalidate a
  | None => a
  end.

(** [show_login_on_auth_error] *)
Definition show_login_on_auth_error (a : LeetCodeApp) : LeetCodeApp :=
  create_task Relogin
    (notify "Session expired. Please log in again." a).

(** [push_screen] of the screen object [id] *)
Definition push_screen (id : nat) (a : LeetCodeApp) : LeetCodeApp :=
  on_enter id (set_screen_stack (Py.append (_screen_stack a) id) a).

(** [pop_screen] *)
Definition pop_screen (a : LeetCodeApp) : LeetCodeApp :=
  let a1 :=
    if Py.truthy (_screen_stack a) then
      match Py.pop (_screen_stack a) (-1) with
      | Some (old, rest) => on_exit old (set_screen_stack rest a)
      | None => a
      end
    else a in
  if Py.truthy (_screen_stack a1) then
    match Py.getitem (_screen_stack a1) (-1) with
    | Some top => on_enter top a1
    | None => a1
    end
  else exit a1.

(** [replace_screen] of the screen object [id] *)
Definition replace_screen (id : nat) (a : LeetCodeApp) : LeetCodeApp :=
  let a1 :=
    if Py.truthy (_screen_stack a) then
      match Py.pop (_screen_stack a) (-1) with
      | Some (old, rest) => on_exit old (set_screen_stack rest a)
      | None => a
      end
    else a in
  push_screen id a1.

(** [Screen.run_async] called on screen [id] *)
Definition run_async (id : nat) (a : LeetCodeApp) : LeetCodeApp :=
  create_task (Wrapper id) a.

(** How the call a coroutine awaits ends:
    - [Returned data]: it returns, and the statements after it run to the
      end of the [try] block; [data] is [bool(problems)] for
      [_fetch_problems];
    - [ReturnedThenRaised e]: it returns, and a later statement of the
      [try] block raises an exception other than [AuthenticationError]
      with the message [e];
    - [AuthenticationError]: it raises [AuthenticationError];
    - [OtherError e]: it raises another exception with the message [e]. *)
Inductive Answer : Type :=
| Returned (data : bool)
| ReturnedThenRaised (e : string)
| AuthenticationError
| OtherError (e : string).

(** The messages of the [except Exception as e] branches. *)
Definition error_message (t : Task) (e : string) : string :=
  match t with
  | RunResult Test _ => String.append "Test error: " e
  | RunResult Submit _ => String.append "Submit error: " e
  | _ => String.append "Error: " e
  end.

(** The [except Exception as e] branch of the two fetches of screen [o]:
    [self._loading = False], the notification and [self.invalidate()]. *)
Definition fetch_failed (t : Task) (o : nat) (e : string)
  (a : LeetCodeApp) : LeetCodeApp :=
  on_screen o invalidate
    (notify (error_message t e) (on_object o (set_loading false) a)).

(** The last step of task [i], which ends it: what the coroutine does from
    the point where the call it awaits ends with [ans]. Before that point
    [_fetch_problems] has assigned [self._loading = True] and called
    [self.invalidate()], and the other coroutines have assigned nothing.
    [new] is the identity of the screen object the step creates, when it
    creates one.
    - [_wrapper]: the coroutine it awaits has returned or raised; the
      [finally] clause, [self.invalidate()];
    - [_fetch_problems]: the assignments of the answer and
      [self.invalidate()], or one of the two [except] branches;
    - [_fetch_detail]: [self._detail = detail], the attributes made from
      it, [self._loading = False] and [self.invalidate()]; when a statement
      after [self._detail = detail] raises, or the service does, one of the
      two [except] branches;
    - [_run]: the result screen is made and [push_screen] is called on it,
      or one of the two [except] branches;
    - [_relogin], which waits for nothing: every screen is popped and a
      new login screen is pushed. *)
Definition finish_task (i : nat) (ans : Answer) (new : nat)
  (a : LeetCodeApp) : LeetCodeApp :=
  match tasks a !! i with
  | Some t =>
      let a := set_tasks (delete i (tasks a)) a in
      match t with
      | Wrapper o => on_screen o invalidate a
      | FetchProblems o =>
          match ans with
          | Returned data =>
              on_screen o invalidate
                (on_object o (set_loading false)
                   (on_object o (set_data data) a))
          | AuthenticationError =>
              show_login_on_auth_error (on_object o (set_loading false) a)
          | ReturnedThenRaised e | OtherError e => fetch_failed t o e a
          end
      | FetchDetail o =>
          match ans with
          | Returned _ =>
              on_screen o invalidate
                (on_object o (set_loading false)
                   (on_object o (set_data true) a))
          | ReturnedThenRaised e =>
              fetch_failed t o e (on_object o (set_data true) a)
          | AuthenticationError =>
              show_login_on_auth_error (on_object o (set_loading false) a)
          | OtherError e => fetch_failed t o e a
          end
      | RunResult kind o =>
          match ans with
          | Returned _ =>
              push_screen new
                (set_heap
                   (<[new := match kind with
                             | Test => TestResultScreen new_screen
                             | Submit => SubmissionResultScreen new_screen
                             end]> (heap a)) a)
          | AuthenticationError => show_login_on_auth_error a
          | ReturnedThenRaised e | OtherError e =>
              on_screen o invalidate (notify (error_message t e) a)
          end
      | Relogin =>
          push_screen new
            (set_heap (<[new := LoginScreen new_screen]> (heap a))
               (set_screen_stack [] a))
      end
  | None => a
  end.

(** What is on display: the stack, the attributes of the screens on it, the
    running flag and the notification. *)
Definition visible (a : LeetCodeApp)
  : list (nat * option ScreenObject) * bool * string :=
  (map (fun id => (id, heap a !! id)) (_screen_stack a), _running a,
   _notification a).

(** A screen that has been rendered, on an 80 by 24 terminal. *)
Definition rendered_screen : Screen := mkScreen false 80 24.

(** The stack [List, Detail] of two rendered screens that hold their data,
    the objects 0 and 1, with no task and no notification. *)
Definition list_detail : LeetCodeApp :=
  mkApp {[ 0%nat := ProblemListScreen rendered_screen true false;
           1%nat := ProblemDetailScreen rendered_screen true false ]}
    [0%nat; 1%nat] true "" [].

(** [Screen.check_resize] on a terminal of [w] columns and [h] rows: what
    it returns and the screen it leaves. *)
Definition check_resize (w h : Z) (sc : Screen) : bool * Screen :=
  if negb (w =? _prev_width sc) || negb (h =? _prev_height sc) then
    (true, invalidate (mkScreen (dirty sc) w h))
  else (false, sc).

End App.


(** ** Plain-text helpers: [tui/core.py] *)

Module Core.

(** [s * n] for a string [s]: [n] copies, none when [n <= 0]. *)
Definition repeat_str (s : Py.str) (n : Z) : Py.str :=
  concat (replicate (Z.to_nat n) s).

(** [truncate(text, width)]; its parameter [term] is not used. *)
Definition truncate (text : Py.str) (width : Z) : Py.str :=
  if width <=? 0 then []
  else
    let text_len := Py.len text in
    if text_len <=? width then text
    else if width <=? 3 then Py.slice_to text width
    else Py.slice_to text (width - 3) ++ Py.of_string "...".

(** [pad_right(text, width)] *)
Definition pad_right (text : Py.str) (width : Z) : Py.str :=
  if width <=? 0 then []
  else
    let text := truncate text width in
    text ++ repeat_str [Py.space] (width - Py.len text).

End Core.

(** ** The problem list: [tui/problem_list.py] *)

Module ProblemList.
Import Editor.

(** [_DIFF_CYCLE] *)
Definition _DIFF_CYCLE : list string := [""; "EASY"; "MEDIUM"; "HARD"]%string.

(** [l.index(x)]: the first position of [x]; [None] stands for
    [ValueError]. *)
Fixpoint list_index (l : list string) (x : string) : option Z :=
  match l with
  | [] => None
  | y :: r =>
      if String.eqb y x then Some 0
      else option_map Z.succ (list_index r x)
  end.

(** What a key handler asks of the application and of the event loop, in
    the order of the calls. *)
Inductive Effect : Type :=
| FetchTask                  (* asyncio.create_task(self._fetch_problems()) *)
| Notify (msg : string)      (* self.app.notify(msg) *)
| PushDetail (slug : Py.str) (* self.app.push_screen(ProblemDetailScreen(..)) *)
| Logout                     (* self.app.logout() *)
| Exit.                      (* self.app.exit() *)

Section Screen.

(** A [ProblemSummary], with the two attributes the key handler reads. *)
Variable Problem : Type.
Variable title_slug : Problem -> Py.str.
Variable paid_only : Problem -> bool.

(** The attributes of a [ProblemListScreen]; [base] holds those of the base
    class [Screen]. *)
Record ProblemListScreen : Type := mkList {
  base : App.Screen;
  _problems : list Problem;
  _total : Z;
  _skip : Z;
  _limit : Z;
  _difficulty : string;
  _search : Py.str;
  _cursor : Z;
  _scroll : Z;
  _loading : bool;
  _searching : bool;
  _search_buffer : Py.str
}.

(** [ProblemListScreen.__init__] *)
Definition init : ProblemListScreen :=
  mkList App.new_screen [] 0 0 50 "" [] 0 0 true false [].

(** Attribute assignments. *)
Definition set_base (v : App.Screen) (s : ProblemListScreen) :=
  mkList v (_problems s) (_total s) (_skip s) (_limit s) (_difficulty s)
    (_search s) (_cursor s) (_scroll s) (_loading s) (_searching s)
    (_search_buffer s).
Definition set_problems (v : list Problem) (s : ProblemListScreen) :=
  mkList (base s) v (_total s) (_skip s) (_limit s) (_difficulty s)
    (_search s) (_cursor s) (_scroll s) (_loading s) (_searching s)
    (_search_buffer s).
Definition set_total (v : Z) (s : ProblemListScreen) :=
  mkList (base s) (_problems s) v (_skip s) (_limit s) (_difficulty s)
    (_search s) (_cursor s) (_scroll s) (_loading s) (_searching s)
    (_search_buffer s).
Definition set_skip (v : Z) (s : ProblemListScreen) :=
  mkList (base s) (_problems s) (_total s) v (_limit s) (_difficulty s)
    (_search s) (_cursor s) (_scroll s) (_loading s) (_searching s)
    (_search_buffer s).
Definition set_difficulty (v : string) (s : ProblemListScreen) :=
  mkList (base s) (_problems s) (_total s) (_skip s) (_limit s) v
    (_search s) (_cursor s) (_scroll s) (_loading s) (_searching s)
    (_search_buffer s).
Definition set_search (v : Py.str) (s : ProblemListScreen) :=
  mkList (base s) (_problems s) (_total s) (_skip s) (_limit s)
    (_difficulty s) v (_cursor s) (_scroll s) (_loading s) (_searching s)
    (_search_buffer s).
Definition set_cursor (v : Z) (s : ProblemListScreen) :=
  mkList (base s) (_problems s) (_total s) (_skip s) (_limit s)
    (_difficulty s) (_search s) v (_scroll s) (_loading s) (_searching s)
    (_search_buffer s).
Definition set_scroll (v : Z) (s : ProblemListScreen) :=
  mkList (base s) (_problems s) (_total s) (_skip s) (_limit s)
    (_difficulty s) (_search s) (_cursor s) v (_loading s) (_searching s)
    (_search_buffer s).
Definition set_loading (v : bool) (s : ProblemListScreen) :=
  mkList (base s) (_problems s) (_total s) (_skip s) (_limit s)
    (_difficulty s) (_search s) (_cursor s) (_scroll s) v (_searching s)
    (_search_buffer s).
Definition set_searching (v : bool) (s : ProblemListScreen) :=
  mkList (base s) (_problems s) (_total s) (_skip s) (_limit s)
    (_difficulty s) (_search s) (_cursor s) (_scroll s) (_loading s) v
    (_search_buffer s).
Definition set_search_buffer (v : Py.str) (s : ProblemListScreen) :=
  mkList (base s) (_problems s) (_total s) (_skip s) (_limit s)
    (_difficulty s) (_search s) (_cursor s) (_scroll s) (_loading s)
    (_searching s) v.

(** [self.invalidate()] *)
Definition invalidate (s : ProblemListScreen) : ProblemListScreen :=
  set_base (App.invalidate (base s)) s.

(** [_visible_rows] on a terminal of [h] rows *)
Definition _visible_rows (h : Z) : Z := Z.max 1 (h - 4).

(** [_ensure_cursor_visible] *)
Definition _ensure_cursor_visible (h : Z) (s : ProblemListScreen)
  : ProblemListScreen :=
  let visible := _visible_rows h in
  if _cursor s <? _scroll s then set_scroll (_cursor s) s
  else if _cursor s >=? _scroll s + visible
       then set_scroll (_cursor s - visible + 1) s
  else s.

(** The assignments of [_fetch_problems] once the service has answered
    with [problems] and [total]. *)
Definition fetch_succeeded (problems : list Problem) (total : Z)
  (s : ProblemListScreen) : ProblemListScreen :=
  invalidate
    (set_scroll 0 (set_cursor 0 (set_loading false
       (set_total total (set_problems problems s))))).

(** [_open_problem]; [None] stands for an exception (the [IndexError] of
    [self._problems[self._cursor]]). *)
Definition _open_problem (s : ProblemListScreen)
  : option (ProblemListScreen * list Effect) :=
  if negb (Py.truthy (_problems s)) || (_cursor s >=? Py.len (_problems s))
  then Some (s, [])
  else
    match Py.getitem (_problems s) (_cursor s) with
    | None => None
    | Some p =>
        if paid_only p
        then Some (s, [Notify "Premium problem -- not available."%string])
        else Some (s, [PushDetail (title_slug p)])
    end.

(** [handle_key]; [None] stands for an exception (the [ValueError] of
    [_DIFF_CYCLE.index], the [IndexError] of [_open_problem]). *)
Definition handle_key (key : Keystroke) (s : ProblemListScreen)
  : option (ProblemListScreen * list Effect) :=
  (* Search input mode *)
  if _searching s then
    if name_is key "KEY_ESCAPE" then
      Some (invalidate (set_searching false s), [])
    else if name_is key "KEY_ENTER" then
      Some (set_skip 0 (set_searching false
              (set_search (_search_buffer s) s)), [FetchTask])
    else if name_is key "KEY_BACKSPACE" || name_is key "KEY_DELETE" then
      if Py.truthy (_search_buffer s) then
        Some (invalidate
                (set_search_buffer (Py.slice_to (_search_buffer s) (-1)) s),
              [])
      else Some (s, [])
    else if Py.truthy (text key) && negb (is_sequence key) then
      Some (invalidate
              (set_search_buffer (_search_buffer s ++ text key) s), [])
    else Some (s, [])
  (* Normal mode *)
  else if key_is key "j" || name_is key "KEY_DOWN" then
    if Py.truthy (_problems s) && (_cursor s <? Py.len (_problems s) - 1)
    then Some (invalidate (set_cursor (_cursor s + 1) s), [])
    else Some (s, [])
  else if key_is key "k" || name_is key "KEY_UP" then
    if _cursor s >? 0
    then Some (invalidate (set_cursor (_cursor s - 1) s), [])
    else Some (s, [])
  else if name_is key "KEY_PGDOWN" then
    if _skip s + _limit s <? _total s
    then Some (set_skip (_skip s + _limit s) s, [FetchTask])
    else Some (s, [])
  else if name_is key "KEY_PGUP" then
    if _skip s >? 0
    then Some (set_skip (Z.max 0 (_skip s - _limit s)) s, [FetchTask])
    else Some (s, [])
  else if key_is key "/" then
    Some (invalidate
            (set_search_buffer (_search s) (set_searching true s)), [])
  else if key_is key "d" then
    match list_index _DIFF_CYCLE (_difficulty s) with
    | None => None
    | Some i =>
        let idx := (i + 1) mod Py.len _DIFF_CYCLE in
        match Py.getitem _DIFF_CYCLE idx with
        | None => None
        | Some d => Some (set_skip 0 (set_difficulty d s), [FetchTask])
        end
    end
  else if key_is key "r" then
    Some (set_skip 0 s, [FetchTask])
  else if name_is key "KEY_ENTER" then _open_problem s
  else if key_is key "L" then Some (s, [Logout])
  else if name_is key "KEY_ESCAPE" || key_is key "q" then Some (s, [Exit])
  else Some (s, []).

End Screen.

End ProblemList.

(** ** Wrapping of the description: [tui/problem_detail.py] *)

Module ProblemDetail.

(** [c.isspace()] of a character below 256: the controls 9 to 13 and 28 to
    31, the space, NEL and the no-break space. *)
Definition isspace (c : ascii) : bool :=
  let n := nat_of_ascii c in
  ((9 <=? n) && (n <=? 13) || (28 <=? n) && (n <=? 32) ||
   (n =? 133) || (n =? 160))%nat.

(** [s.lstrip()] *)
Fixpoint lstrip (s : Py.str) : Py.str :=
  match s with
  | c :: r => if isspace c then lstrip r else s
  | [] => []
  end.

(** The highest index [i] with [lo <= i < n] and [s[i] == c], or -1. *)
Fixpoint rfind_below (s : Py.str) (c : ascii) (lo n : nat) : Z :=
  match n with
  | O => -1
  | S i =>
      if (lo <=? i)%nat &&
         match s !! i with Some x => Ascii.eqb x c | None => false end
      then Z.of_nat i
      else rfind_below s c lo i
  end.

(** [s.rfind(c, a, b)] for a one-character string [c]: the bounds are those
    of a slice. *)
Definition rfind (s : Py.str) (c : ascii) (a b : Z) : Z :=
  rfind_below s c (Py.bound s a) (Py.bound s b).

(** [len(text) - len(text.lstrip())] *)
Definition indent_of (text : Py.str) : Z :=
  Py.len text - Py.len (lstrip text).

(** The loop [while len(rest) > max_w: ...] of [_wrap_for_box] and of
    [_rewrap_lines], which differ in the lower bound [from] of the search
    for a space. It returns [result] and [rest] as the loop leaves them;
    [None] when the loop is still running after [fuel] rounds. *)
Fixpoint wrap_loop (fuel : nat) (from indent max_w : Z) (prefix rest : Py.str)
  (result : list Py.str) : option (list Py.str * Py.str) :=
  match fuel with
  | O => None
  | S fuel =>
      if Py.len rest >? max_w then
        let cut := rfind rest Py.space from max_w in
        let cut := if cut <=? indent then max_w else cut in
        wrap_loop fuel from indent max_w prefix
          (prefix ++ lstrip (Py.slice_from rest cut))
          (Py.append result (Py.slice_to rest cut))
      else Some (result, rest)
  end.

(** [_wrap_for_box] *)
Definition _wrap_for_box (fuel : nat) (text : Py.str) (max_w : Z)
  : option (list Py.str) :=
  if Py.len text <=? max_w then Some [text]
  else
    let indent := indent_of text in
    let prefix := Py.slice_to text indent in
    match wrap_loop fuel 0 indent max_w prefix text [] with
    | None => None
    | Some (result, rest) =>
        Some (if Py.truthy rest then Py.append result rest else result)
    end.

(** The loop [for line in lines: ...] of [_rewrap_lines]. *)
Fixpoint rewrap_for (fuel : nat) (lines : list Py.str) (max_w : Z)
  (result : list Py.str) : option (list Py.str) :=
  match lines with
  | [] => Some result
  | line :: lines =>
      if Py.len line <=? max_w
      then rewrap_for fuel lines max_w (Py.append result line)
      else
        let indent := indent_of line in
        let prefix := Py.slice_to line indent in
        match wrap_loop fuel indent indent max_w prefix line result with
        | None => None
        | Some (result, rest) =>
            rewrap_for fuel lines max_w
              (if Py.truthy rest then Py.append result rest else result)
        end
  end.

(** [_rewrap_lines] *)
Definition _rewrap_lines (fuel : nat) (lines : list Py.str) (max_w : Z)
  : option (list Py.str) :=
  rewrap_for fuel lines max_w [].

End ProblemDetail.

(** ** Vocabulary of the properties *)

Import Editor.

(** *** Classes of keys, by the branch of [handle_key] they reach *)

Definition movement_names : list string :=
  ["kLFT5"; "kRIT5"; "KEY_UP"; "KEY_DOWN"; "KEY_LEFT"; "KEY_RIGHT";
   "KEY_HOME"; "KEY_END"; "KEY_PGUP"; "KEY_PGDOWN"]%string.

(** The keys that only move the cursor, with or without Shift. *)
Definition is_movement_key (k : Keystroke) : bool :=
  name_in k selection_keys || name_in k movement_names.

(** The undo and redo keys. *)
Definition is_history_key (k : Keystroke) : bool :=
  (key_is k ctrl_U || key_is k ctrl_Z) || (key_is k ctrl_R || key_is k ctrl_Y).

Definition editing_names : list string :=
  ["KEY_BACKSPACE"; "KEY_DELETE"; "KEY_ENTER"; "KEY_TAB"]%string.

(** The keys that reach the editing branches: backspace, delete, enter, tab
    and the insertion of the characters of a key that is not a sequence. *)
Definition is_editing_key (k : Keystroke) : bool :=
  negb (is_movement_key k) && negb (is_history_key k)
  && (name_in k editing_names || key_is k Py.tab
      || (Py.truthy (text k) && negb (is_sequence k))).

(** *** The buffer *)

(** [p] is a position of the buffer [ls]: a row of the buffer and a column
    between [0] and the length of that row. *)
Definition valid_pos (ls : list Py.str) (p : pos) : Prop :=
  0 <= p.1 /\ 0 <= p.2 /\
  exists line, ls !! Z.to_nat p.1 = Some line /\ p.2 <= Py.len line.

(** The invariant of the line buffer: the cursor is a position of the
    buffer (so the buffer has at least one line). *)
Definition buffer_invariant (s : CodeEditor) : Prop :=
  valid_pos (_lines s) (_cursor_row s, _cursor_col s).

(** The invariant as a test. *)
Definition buffer_invariant_b (s : CodeEditor) : bool :=
  (0 <=? _cursor_row s) && (0 <=? _cursor_col s)
  && match _lines s !! Z.to_nat (_cursor_row s) with
     | Some line => _cursor_col s <=? Py.len line
     | None => false
     end.

(** A text line holds no line break. *)
Definition is_line (l : Py.str) : Prop := Forall (fun c => Py.is_newline c = false) l.

(** The lines before a row, each with its line break: the text that
    precedes the row in [get_text]. *)
Definition text_before (ls : list Py.str) : Py.str :=
  concat (map (fun l => l ++ [Py.newline]) ls).

(** The number of characters of [get_text] before position [p]. *)
Definition offset (ls : list Py.str) (p : pos) : nat :=
  (length (text_before (take (Z.to_nat p.1) ls)) + Z.to_nat p.2)%nat.

(** What the movements leave alone. *)
Definition frame (s : CodeEditor) :=
  (_lines s, get_text s, _undo_stack s, _redo_stack s, _highlight_dirty s,
   _highlighted s, (_scroll_row s, _scroll_col s), _lang_name s,
   _gutter_width s).

(** The newest entry of the undo stack is a snapshot of the lines [ls]. *)
Definition undo_top (ls : list Py.str) (s : CodeEditor) : Prop :=
  exists st row col, _undo_stack s = st ++ [(ls, row, col)].

(** The bound on the two stacks. *)
Definition stacks_bounded (s : CodeEditor) : Prop :=
  Py.len (_undo_stack s) + Py.len (_redo_stack s) <= _max_undo.

(** The text of the fragments of one line of the highlight cache. *)
Definition line_text (toks : list (string * Py.str)) : Py.str :=
  concat (map snd toks).

(** The stack after a push and the trim of [_save_undo]. *)
Definition pushed (s : CodeEditor) : list snapshot :=
  let u := _undo_stack s ++ [current_snapshot s] in
  if Py.len u >? _max_undo then drop 1 u else u.

(** The cursor. *)
Definition cursor (s : CodeEditor) : pos := (_cursor_row s, _cursor_col s).

(** The edit of an editing key itself, after the selection is dealt with. *)
Definition own_edit (k : Keystroke) : M unit :=
  if name_is k "KEY_BACKSPACE" then _backspace
  else if name_is k "KEY_DELETE" then _delete
  else if name_is k "KEY_ENTER" then _enter
  else if name_is k "KEY_TAB" || key_is k Py.tab
       then _insert_text (Py.of_string "    ")
  else _insert_char (text k).

(** Backspace and delete. *)
Definition is_removal_key (k : Keystroke) : bool :=
  name_is k "KEY_BACKSPACE" || name_is k "KEY_DELETE".

(** *** Editors of the scenarios *)

(** A new editor holding the given text. *)
Definition editor_with (t : Py.str) : CodeEditor :=
  exec (set_text t) (init "python").

(** The buffer [["two"; "sum"]], cursor at [(0, 0)]. *)
Definition two_sum : CodeEditor :=
  editor_with (Py.of_string "two" ++ [Py.newline] ++ Py.of_string "sum").

(** The line ["abcdef"] with the selection from [(0, 2)] to the cursor at
    [(0, 5)]. *)
Definition abcdef_selected : CodeEditor :=
  set_sel_anchor (Some (0, 2))
    (set_cursor_col 5 (editor_with (Py.of_string "abcdef"))).

(** The keys that leave an anchor behind: type ["ab"], Shift+End at the end
    of the line (anchor set, nothing selected), backspace, then Right. *)
Definition stale_anchor_keys : list Keystroke :=
  [char_key "a"; char_key "b"; named "kEND2"; named "KEY_BACKSPACE";
   named "KEY_RIGHT"].

(** The same with rows: Enter, Shift+Home, backspace (the two lines merge),
    then Right. *)
Definition stale_anchor_row_keys : list Keystroke :=
  [named "KEY_ENTER"; named "kHOM2"; named "KEY_BACKSPACE"; named "KEY_RIGHT"].

(** The text after a row in [get_text]: the following lines, each after a
    line break. *)
Definition text_after (ls : list Py.str) : Py.str :=
  match ls with
  | [] => []
  | _ :: _ => Py.newline :: Py.join_nl ls
  end.

(** The lines without the range from [(sr, sc)] to [(er, ec)], where [l1]
    is row [sr] and [l2] is row [er]: the rows before [sr], one row made of
    the start of [l1] and the end of [l2], and the rows after [er]. *)
Definition without_range (ls : list Py.str) (sr sc er ec : Z) (l1 l2 : Py.str)
  : list Py.str :=
  take (Z.to_nat sr) ls
  ++ [take (Z.to_nat sc) l1 ++ drop (Z.to_nat ec) l2]
  ++ drop (S (Z.to_nat er)) ls.

(** A lexer for the scenarios: the whole text as one token of type
    [Token.Text], as the fallback [TextLexer] gives it. *)
Definition text_lexer (lang : string) (t : Py.str)
  : list (token_type * Py.str) :=
  [(["Text"%string], t)].

(** The scroll offsets and the gutter width [render] computes. *)
Definition gutter_of (s : CodeEditor) : Z :=
  Z.max 4 (Py.digits (length (_lines s)) + 2).

Definition scrolled_row (s : CodeEditor) (height : Z) : Z :=
  if _cursor_row s <? _scroll_row s then _cursor_row s
  else if _cursor_row s >=? _scroll_row s + height
       then _cursor_row s - height + 1
  else _scroll_row s.

Definition scrolled_col (s : CodeEditor) (width : Z) : Z :=
  let code_width := width - gutter_of s in
  if _cursor_col s <? _scroll_col s then _cursor_col s
  else if _cursor_col s >=? _scroll_col s + code_width
       then _cursor_col s - code_width + 1
  else _scroll_col s.

(** The texts of the lines of the cache under construction: the finished
    lines and the current one. *)
Definition lines_of (acc : hl_acc) : list Py.str :=
  map line_text acc.1 ++ [line_text acc.2].

(** *** What every call keeps, whatever the anchor *)

(** At least one line, and no line break inside a line. *)
Definition lines_ok (ls : list Py.str) : Prop :=
  ls <> [] /\ Forall is_line ls.

Definition pos_nonneg (p : pos) : Prop := 0 <= p.1 /\ 0 <= p.2.

Definition snapshot_ok (snap : snapshot) : Prop :=
  lines_ok snap.1.1 /\ 0 <= snap.1.2 /\ 0 <= snap.2.

(** The part of the buffer invariant that holds after every sequence of
    calls: the buffer is never empty, its lines are text lines, and the
    cursor, the anchor and the scroll offsets are never negative; the
    snapshots of both stacks are of that kind too. *)
Definition lower_invariant (s : CodeEditor) : Prop :=
  lines_ok (_lines s) /\
  pos_nonneg (cursor s) /\
  (forall a, _sel_anchor s = Some a -> pos_nonneg a) /\
  pos_nonneg (_scroll_row s, _scroll_col s) /\
  Forall snapshot_ok (_undo_stack s) /\
  Forall snapshot_ok (_redo_stack s).

(** The keys that reach the last branch of [handle_key], which inserts the
    characters of the key. *)
Definition inserts_text (k : Keystroke) : bool :=
  negb (is_movement_key k) && negb (is_history_key k)
  && negb (name_in k editing_names) && negb (key_is k Py.tab)
  && (Py.truthy (text k) && negb (is_sequence k)).

(** The characters a key inserts hold no line break. The terminal library
    delivers a line break as the sequence [KEY_ENTER], which inserts none
    of its characters. *)
Definition key_ok (k : Keystroke) : Prop :=
  inserts_text k = true -> is_line (text k).

Definition call_ok (c : call) : Prop :=
  match c with
  | CallKey k => key_ok k
  | _ => True
  end.

(** The highlight cache is in step with the buffer: when it is not dirty,
    it has one list per buffer line and each list spells its line. *)
Definition cache_ok (s : CodeEditor) : Prop :=
  _highlight_dirty s = false -> map line_text (_highlighted s) = _lines s.

(** The tokens of the lexer spell the text they were made from. *)
Definition lexer_spells (lex : string -> Py.str -> list (token_type * Py.str))
  : Prop :=
  forall lang t, concat (map snd (lex lang t)) = t.

(** *** The buffer invariant with its upper bounds *)

(** The cursor recorded in a snapshot is a position of its lines. *)
Definition snapshot_valid (snap : snapshot) : Prop :=
  valid_pos snap.1.1 (snap.1.2, snap.2).

(** The buffer invariant, for the buffer and for every snapshot. *)
Definition buffers_valid (s : CodeEditor) : Prop :=
  buffer_invariant s /\
  Forall snapshot_valid (_undo_stack s) /\
  Forall snapshot_valid (_redo_stack s).

(** The anchor, when set, is a position of the buffer. *)
Definition anchor_valid (s : CodeEditor) : Prop :=
  forall a, _sel_anchor s = Some a -> valid_pos (_lines s) a.

(** An anchor is set where the cursor stands: nothing is selected, but the
    anchor is there. *)
Definition anchor_on_cursor (s : CodeEditor) : Prop :=
  _sel_anchor s = Some (cursor s).

(** What a key leaves of the editor [s]: the call returned, the cursor and
    the snapshots are positions of their buffers, and so is the anchor
    unless the key is an editing key pressed with the anchor on the
    cursor. *)
Definition key_outcome (s : CodeEditor) (k : Keystroke)
  (r : result bool * CodeEditor) : Prop :=
  match r with
  | (Ok _, s') =>
      buffers_valid s' /\
      (is_editing_key k = false \/ ~ anchor_on_cursor s -> anchor_valid s')
  | (IndexError, _) => False
  end.

(** The call is not an editing key pressed while an anchor stands on the
    cursor. *)
Definition careful_call (c : call) (s : CodeEditor) : Prop :=
  match c with
  | CallKey k => is_editing_key k = true -> ~ anchor_on_cursor s
  | _ => True
  end.

(** Every call of the sequence is careful on the editor it is made on. *)
Fixpoint careful (lex : string -> Py.str -> list (token_type * Py.str))
  (cs : list call) (s : CodeEditor) : Prop :=
  match cs with
  | [] => True
  | c :: cs' => careful_call c s /\ careful lex cs' (do_call lex c s)
  end.

(** *** More vocabulary *)

(** [a <= b] on positions, as Python compares tuples. *)
Definition pair_le (a b : pos) : bool := negb (Py.pair_lt b a).

(** The number of characters of [get_text] before the cursor. *)
Definition cursor_offset (s : CodeEditor) : nat := offset (_lines s) (cursor s).

(** The keys [handle_key] has a branch for. *)
Definition is_handled_key (k : Keystroke) : bool :=
  is_movement_key k || is_history_key k || is_editing_key k.

(** *** The problem list *)

(** What the list screen keeps: the cursor is an index of the problems (or
    0 when there are none), the offset [_skip] is a whole number of pages,
    and the difficulty is one of [_DIFF_CYCLE]. *)
Definition list_ok {P : Type} (s : ProblemList.ProblemListScreen P) : Prop :=
  0 <= ProblemList._cursor P s /\
  (ProblemList._cursor P s = 0 \/
   ProblemList._cursor P s < Py.len (ProblemList._problems P s)) /\
  0 < ProblemList._limit P s /\
  0 <= ProblemList._skip P s /\
  (ProblemList._skip P s) mod (ProblemList._limit P s) = 0 /\
  In (ProblemList._difficulty P s) ProblemList._DIFF_CYCLE.

(** A key that types one character: no key name, not a sequence. *)
Definition types_char (k : Keystroke) : Prop :=
  name k = None /\ is_sequence k = false /\ length (text k) = 1%nat.

(** The characters of a string that are not whitespace, in their order. *)
Definition visible_chars (s : Py.str) : Py.str :=
  List.filter (fun c => negb (ProblemDetail.isspace c)) s.

(** A line that is at most [max_w] characters long. *)
Definition fits (max_w : Z) (line : Py.str) : Prop := Py.len line <= max_w.

(** A line that [max_w] columns cannot wrap: it is longer than [max_w] and
    its indentation alone fills them. *)
Definition too_deep (max_w : Z) (line : Py.str) : Prop :=
  max_w < Py.len line /\ max_w <= ProblemDetail.indent_of line.

(** The task [on_enter] makes on a screen object: a fetch, for a list
    screen without problems and for a detail screen without its detail. *)
Definition entering_tasks (o : App.ScreenObject) (id : nat)
  : list App.Task :=
  match o with
  | App.ProblemListScreen _ false _ => [App.FetchProblems id]
  | App.ProblemDetailScreen _ false _ => [App.FetchDetail id]
  | _ => []
  end.

(** The screens of the stack agree in [a] and [b]. *)
Definition same_screens (a b : App.LeetCodeApp) : Prop :=
  forall id, id ∈ App._screen_stack a -> App.heap b !! id = App.heap a !! id.

(** The keys that leave a selection with an end outside the buffer: Enter,
    Shift+Home at the start of the new line (anchor set, nothing selected),
    backspace (the two lines merge and the anchor stays on row 1). *)
Definition stale_selection_keys : list Keystroke :=
  [named "KEY_ENTER"; named "kHOM2"; named "KEY_BACKSPACE"].

(** The same below a line of text: ["a"], Enter, Shift+Right at the end of
    the text, backspace. *)
Definition stale_selection_text_keys : list Keystroke :=
  [char_key "a"; named "KEY_ENTER"; named "kRIT2"; named "KEY_BACKSPACE"].

(** Enter as the terminal library delivers it: the sequence [KEY_ENTER],
    whose one character is the line break. *)
Definition enter_key : Keystroke :=
  {| text := [Py.newline]; name := Some "KEY_ENTER"%string;
     is_sequence := true |}.

(** *** Specifications of computations

    [hoare P m Q E]: from an object that satisfies [P], the call [m] either
    returns [a] and leaves an object that satisfies [Q a], or raises and
    leaves an object that satisfies [E]. *)
Definition hoare {A} (P : CodeEditor -> Prop) (m : M A)
  (Q : A -> CodeEditor -> Prop) (E : CodeEditor -> Prop) : Prop :=
  forall s, P s ->
    match m s with
    | (Ok a, s') => Q a s'
    | (IndexError, s') => E s'
    end.

(** [I] holds after the call when it held before, however the call ends. *)
Definition inv {A} (I : CodeEditor -> Prop) (m : M A) : Prop :=
  hoare I m (fun _ => I) I.

(** The buffer invariant together with a valid anchor. *)
Definition well_formed (s : CodeEditor) : Prop :=
  buffers_valid s /\ anchor_valid s.

(** The call returns, and [I] holds after it when it held before. *)
Definition safe {A} (I : CodeEditor -> Prop) (m : M A) : Prop :=
  hoare I m (fun _ => I) (fun _ => False).


(** ** Facts about Python sequences *)

Section PySeq.
Context {A : Type}.
Implicit Types (l k : list A) (x : A) (i : Z).

Lemma len_app l k : Py.len (l ++ k) = Py.len l + Py.len k.
Proof. unfold Py.len. rewrite length_app. lia. Qed.

Lemma len_nonneg l : 0 <= Py.len l.
Proof. unfold Py.len. lia. Qed.

Lemma truthy_snoc l x : Py.truthy (l ++ [x]) = true.
Proof. by destruct l. Qed.

Lemma index_nonneg l i : 0 <= i -> Py.index l i = i.
Proof. unfold Py.index. intros. destruct (Z.ltb_spec i 0); lia. Qed.

Lemma in_range_iff l i :
  Py.in_range l i = true <-> 0 <= Py.index l i < Py.len l.
Proof. unfold Py.in_range. rewrite andb_true_iff. lia. Qed.

Lemma getitem_nonneg l i x :
  0 <= i -> l !! Z.to_nat i = Some x -> Py.getitem l i = Some x.
Proof.
  intros Hi Hx. unfold Py.getitem.
  assert (Hlt : (Z.to_nat i < length l)%nat) by (by eapply lookup_lt_Some).
  assert (Hr : Py.in_range l i = true).
  { apply in_range_iff. rewrite index_nonneg by done. unfold Py.len. lia. }
  rewrite Hr, index_nonneg by done. done.
Qed.

Lemma setitem_nonneg l i x :
  0 <= i < Py.len l -> Py.setitem l i x = Some (<[Z.to_nat i := x]> l).
Proof.
  intros Hi. unfold Py.setitem.
  assert (Hr : Py.in_range l i = true).
  { apply in_range_iff. rewrite index_nonneg; lia. }
  rewrite Hr, index_nonneg by lia. done.
Qed.

Lemma index_last l x : Py.index (l ++ [x]) (-1) = Z.of_nat (length l).
Proof. unfold Py.index, Py.len. rewrite length_app. simpl. lia. Qed.

Lemma pop_last l x : Py.pop (l ++ [x]) (-1) = Some (x, l).
Proof.
  unfold Py.pop, Py.getitem.
  assert (Hr : Py.in_range (l ++ [x]) (-1) = true).
  { apply in_range_iff. rewrite index_last, len_app. unfold Py.len. simpl. lia. }
  rewrite Hr, index_last, Nat2Z.id.
  rewrite lookup_app_r by lia. rewrite Nat.sub_diag. simpl.
  by rewrite delete_middle, app_nil_r.
Qed.

Lemma pop_first x l : Py.pop (x :: l) 0 = Some (x, l).
Proof.
  unfold Py.pop, Py.getitem.
  assert (Hr : Py.in_range (x :: l) 0 = true).
  { apply in_range_iff. rewrite index_nonneg by done. unfold Py.len. simpl. lia. }
  by rewrite Hr.
Qed.

Lemma bound_inside l i : 0 <= i <= Py.len l -> Py.bound l i = Z.to_nat i.
Proof.
  intros Hi. unfold Py.bound. destruct (Z.ltb_spec i 0); [lia|].
  f_equal. lia.
Qed.

Lemma bound_le l i : (Py.bound l i <= length l)%nat.
Proof.
  unfold Py.bound, Py.len. destruct (Z.ltb_spec i 0); lia.
Qed.
End PySeq.

(** ** Rules for computations *)

Lemma hoare_bind {A B} P (m : M A) (k : A -> M B) Q R E :
  hoare P m Q E -> (forall a, hoare (Q a) (k a) R E) -> hoare P (bind m k) R E.
Proof.
  intros Hm Hk s HP. unfold bind. specialize (Hm s HP).
  destruct (m s) as [[a|] s']; [by apply Hk | done].
Qed.

Lemma hoare_conseq {A} (P P' : CodeEditor -> Prop) (m : M A)
  (Q Q' : A -> CodeEditor -> Prop) (E E' : CodeEditor -> Prop) :
  hoare P' m Q' E' ->
  (forall s, P s -> P' s) -> (forall a s, Q' a s -> Q a s) ->
  (forall s, E' s -> E s) ->
  hoare P m Q E.
Proof.
  intros Hm HP HQ HE s Hs. specialize (Hm s (HP s Hs)).
  destruct (m s) as [[a|] s']; auto.
Qed.

Lemma hoare_ret {A} (P : CodeEditor -> Prop) (a : A) Q E :
  (forall s, P s -> Q a s) -> hoare P (ret a) Q E.
Proof. intros H s Hs. by apply H. Qed.

Lemma inv_bind {A B} I (m : M A) (k : A -> M B) :
  inv I m -> (forall a, inv I (k a)) -> inv I (bind m k).
Proof. intros. by eapply hoare_bind. Qed.

Lemma inv_ret {A} I (a : A) : inv I (ret a).
Proof. by intros s H. Qed.

Lemma inv_gets {A} I (f : CodeEditor -> A) : inv I (gets f).
Proof. by intros s H. Qed.

Lemma inv_index {A} I (o : option A) : inv I (index_or_raise o).
Proof. intros s H. unfold index_or_raise. by destruct o. Qed.

Lemma inv_modify I f : (forall s, I s -> I (f s)) -> inv I (modify f).
Proof. intros Hf s H. by apply Hf. Qed.

Lemma inv_exec {A} I (m : M A) s : inv I m -> I s -> I (exec m s).
Proof.
  intros Hm Hs. specialize (Hm s Hs). unfold exec.
  by destruct (m s) as [[a|] s'].
Qed.

(** An assignment to an attribute the property does not read keeps it. *)
Ltac inv_step :=
  lazymatch goal with
  | |- inv _ (bind _ _) => apply inv_bind; [| intros ?]
  | |- inv _ (ret _) => apply inv_ret
  | |- inv _ (gets _) => apply inv_gets
  | |- inv _ (index_or_raise _) => apply inv_index
  | |- inv _ (modify _) => apply inv_modify; intros ? ?; assumption
  | |- inv _ (if ?b then _ else _) => destruct b eqn:?
  | |- inv _ (match ?x with _ => _ end) => destruct x eqn:?
  end.

Ltac inv_auto := repeat inv_step.

Create HintDb frame_db.

(** ** The movements keep the buffer, the stacks and the cache *)

Section Frame.
Variable x : list Py.str * Py.str * list snapshot * list snapshot * bool
  * list (list (string * Py.str)) * (Z * Z) * string * Z.
Abbreviation keeps := (inv (fun s => frame s = x)).

Lemma cur_line_len_frame : keeps cur_line_len.
Proof. unfold cur_line_len, lines_get. inv_auto. Qed.
Lemma move_up_frame : keeps _move_up.
Proof. unfold _move_up, cur_line_len, lines_get. inv_auto. Qed.
Lemma move_down_frame : keeps _move_down.
Proof. unfold _move_down, cur_line_len, lines_get. inv_auto. Qed.
Lemma move_left_frame : keeps _move_left.
Proof. unfold _move_left, cur_line_len, lines_get. inv_auto. Qed.
Lemma move_right_frame : keeps _move_right.
Proof. unfold _move_right, cur_line_len, lines_get. inv_auto. Qed.
Lemma move_word_left_frame : keeps _move_word_left.
Proof. unfold _move_word_left, cur_line_len, lines_get. inv_auto. Qed.
Lemma move_word_right_frame : keeps _move_word_right.
Proof. unfold _move_word_right, cur_line_len, lines_get. inv_auto. Qed.
Lemma page_up_frame : keeps _page_up.
Proof. unfold _page_up, cur_line_len, lines_get. inv_auto. Qed.
Lemma page_down_frame : keeps _page_down.
Proof. unfold _page_down, cur_line_len, lines_get. inv_auto. Qed.
Lemma collapse_to_frame pick : keeps (collapse_to pick).
Proof. unfold collapse_to. inv_auto. Qed.
End Frame.

#[local] Hint Resolve cur_line_len_frame move_up_frame move_down_frame
  move_left_frame move_right_frame move_word_left_frame move_word_right_frame page_up_frame
  page_down_frame collapse_to_frame : frame_db.

Lemma name_in_cons k n ns : name_in k (n :: ns) = name_is k n || name_in k ns.
Proof. reflexivity. Qed.

Ltac inv_call :=
  first [ inv_step | solve [ auto with frame_db ] ].

Lemma handle_key_frame x k :
  is_movement_key k = true -> inv (fun s => frame s = x) (handle_key k).
Proof.
  intros Hk. unfold handle_key.
  repeat inv_call.
  all: exfalso; unfold is_movement_key, movement_names in Hk;
    repeat rewrite name_in_cons in Hk;
    repeat match goal with E : _ = false |- _ => rewrite E in Hk; clear E end;
    discriminate.
Qed.

(** Boolean comparisons of the code as propositions. *)
Ltac zbool :=
  repeat match goal with
  | H : (_ >? _) = _ |- _ => rewrite Z.gtb_ltb in H
  | H : (_ >=? _) = _ |- _ => rewrite Z.geb_leb in H
  | H : (_ <? _) = true |- _ => apply Z.ltb_lt in H
  | H : (_ <? _) = false |- _ => apply Z.ltb_ge in H
  | H : (_ <=? _) = true |- _ => apply Z.leb_le in H
  | H : (_ <=? _) = false |- _ => apply Z.leb_gt in H
  | H : (_ =? _) = true |- _ => apply Z.eqb_eq in H
  | H : (_ =? _) = false |- _ => apply Z.eqb_neq in H
  end.

(** ** The undo log *)


Lemma save_undo_run s :
  _save_undo s = (Ok tt, set_redo_stack [] (set_undo_stack (pushed s) s)).
Proof.
  unfold _save_undo, pushed, bind, modify, gets, Py.append.
  cbn [_undo_stack set_undo_stack].
  destruct (Py.len (_undo_stack s ++ [current_snapshot s]) >? _max_undo) eqn:Hn.
  - destruct (_undo_stack s) as [|e st]; [done|].
    cbn [app _undo_stack set_undo_stack]. unfold index_or_raise. by rewrite pop_first.
  - done.
Qed.

Lemma pushed_top s : exists st, pushed s = st ++ [current_snapshot s].
Proof.
  unfold pushed.
  destruct (Py.len (_undo_stack s ++ [current_snapshot s]) >? _max_undo) eqn:Hn.
  - destruct (_undo_stack s) as [|e st]; [done|]. by exists st.
  - by eexists.
Qed.

Lemma pushed_len s :
  Py.len (pushed s) = Z.min (Py.len (_undo_stack s) + 1) (Z.max _max_undo (Py.len (_undo_stack s))).
Proof.
  unfold pushed.
  destruct (Py.len (_undo_stack s ++ [current_snapshot s]) >? _max_undo) eqn:Hn;
    rewrite len_app in Hn; unfold Py.len, _max_undo in *;
    rewrite ?length_drop, ?length_app; zbool; simpl in *; lia.
Qed.

Lemma undo_run s st snap :
  _undo_stack s = st ++ [snap] ->
  _undo s =
    (Ok tt,
     set_dirty true (set_highlight_dirty true (set_sel_anchor None
       (set_cursor_col snap.2 (set_cursor_row snap.1.2 (set_lines snap.1.1
         (set_undo_stack st
           (set_redo_stack (_redo_stack s ++ [current_snapshot s]) s)))))))).
Proof.
  intros Hst. unfold _undo, bind, gets, modify, Py.append.
  cbn [_undo_stack set_redo_stack]. rewrite Hst, truthy_snoc. cbn [negb].
  unfold index_or_raise. rewrite Hst, pop_last. cbn [fst snd].
  by destruct snap as [[ls r] c].
Qed.

Lemma redo_run s st snap :
  _redo_stack s = st ++ [snap] ->
  _redo s =
    (Ok tt,
     set_dirty true (set_highlight_dirty true (set_sel_anchor None
       (set_cursor_col snap.2 (set_cursor_row snap.1.2 (set_lines snap.1.1
         (set_redo_stack st
           (set_undo_stack (_undo_stack s ++ [current_snapshot s]) s)))))))).
Proof.
  intros Hst. unfold _redo, bind, gets, modify, Py.append.
  cbn [_redo_stack set_undo_stack]. rewrite Hst, truthy_snoc. cbn [negb].
  unfold index_or_raise. rewrite Hst, pop_last. cbn [fst snd].
  by destruct snap as [[ls r] c].
Qed.

Lemma undo_empty s : _undo_stack s = [] -> _undo s = (Ok tt, s).
Proof. intros H. unfold _undo, bind, gets. by rewrite H. Qed.
Lemma redo_empty s : _redo_stack s = [] -> _redo s = (Ok tt, s).
Proof. intros H. unfold _redo, bind, gets. by rewrite H. Qed.

(** Undo straight after an edit, then redo. *)
Lemma undo_redo_round_trip ls s :
  undo_top ls s ->
  get_text (exec _undo s) = Py.join_nl ls /\
  get_text (exec _redo (exec _undo s)) = get_text s.
Proof.
  intros (st & r & c & Hst). unfold exec.
  rewrite (undo_run _ _ _ Hst). cbn [snd].
  split; [done|].
  erewrite redo_run; [|reflexivity]. done.
Qed.

(** *** What the edits leave on the undo stack *)

Section Top.
Variable ls : list Py.str.

Lemma save_undo_top :
  hoare (fun s => _lines s = ls) _save_undo
    (fun _ s => _lines s = ls /\ undo_top ls s) (undo_top ls).
Proof.
  intros s Hs. rewrite save_undo_run. split; [done|].
  destruct (pushed_top s) as [st Hst]. exists st, (_cursor_row s), (_cursor_col s).
  cbn [_undo_stack set_redo_stack set_undo_stack]. rewrite Hst.
  unfold current_snapshot. by rewrite Hs.
Qed.

Lemma lines_get_top i : inv (undo_top ls) (lines_get i).
Proof. unfold lines_get. inv_auto. Qed.
Lemma lines_set_top i v : inv (undo_top ls) (lines_set i v).
Proof. unfold lines_set. inv_auto. Qed.
Lemma lines_pop_top i : inv (undo_top ls) (lines_pop i).
Proof. unfold lines_pop. inv_auto. Qed.
Lemma insert_char_top ch : inv (undo_top ls) (_insert_char ch).
Proof. unfold _insert_char, lines_get, lines_set. inv_auto. Qed.
Lemma insert_text_top t : inv (undo_top ls) (_insert_text t).
Proof. unfold _insert_text, lines_get, lines_set. inv_auto. Qed.
Lemma backspace_top : inv (undo_top ls) _backspace.
Proof. unfold _backspace, lines_get, lines_set, lines_pop. inv_auto. Qed.
Lemma delete_top : inv (undo_top ls) _delete.
Proof. unfold _delete, lines_get, lines_set, lines_pop. inv_auto. Qed.
Lemma enter_top : inv (undo_top ls) _enter.
Proof. unfold _enter, lines_get, lines_set. inv_auto. Qed.

(** [_delete_selection] on the lines [ls]: when it returns [False] nothing
    has changed; otherwise the newest undo entry holds [ls]. *)
Lemma delete_selection_top (R : CodeEditor -> Prop) :
  hoare (fun s => _lines s = ls /\ R s) _delete_selection
    (fun b s => if b then undo_top ls s else _lines s = ls /\ R s)
    (undo_top ls).
Proof.
  unfold _delete_selection.
  eapply hoare_bind with (Q := fun _ s => _lines s = ls /\ R s).
  { by intros s Hs. }
  intros [[[sr sc] [er ec]]|]; [|by apply hoare_ret].
  eapply hoare_bind with (Q := fun _ s => undo_top ls s).
  { eapply hoare_conseq; [apply save_undo_top|..];
      first [by intros ? ? [? ?] | by intros ? [? ?] | by intros]. }
  intros _.
  eapply hoare_bind with (Q := fun _ s => undo_top ls s).
  { change (inv (undo_top ls)
              (if sr =? er
               then line <- lines_get sr ;;
                    lines_set sr (Py.slice_to line sc ++ Py.slice_from line ec)
               else l1 <- lines_get sr ;; l2 <- lines_get er ;;
                    lines_set sr (Py.slice_to l1 sc ++ Py.slice_from l2 ec) ;;
                    modify (fun s => set_lines
                              (Py.del_slice (_lines s) (sr + 1) (er + 1)) s))).
    unfold lines_get, lines_set. inv_auto. }
  intros _.
  repeat (eapply hoare_bind with (Q := fun _ s => undo_top ls s);
          [apply inv_modify; intros ? ?; assumption | intros _]).
  by apply hoare_ret.
Qed.
End Top.

(** The class of a key against the tests of [handle_key] it passed. *)
Ltac key_rewrite Hk :=
  repeat match goal with
         | E : _ = true |- _ =>
             tryif constr_eq E Hk then fail else rewrite E in Hk
         | E : _ = false |- _ => rewrite E in Hk
         end.
Ltac key_cases Hk :=
  unfold is_editing_key, is_movement_key, is_history_key in Hk;
  repeat match goal with
         | E : (_ || _) = false |- _ => apply orb_false_elim in E; destruct E
         end;
  key_rewrite Hk;
  unfold movement_names, editing_names in Hk;
  repeat rewrite name_in_cons in Hk;
  key_rewrite Hk;
  simpl in Hk; discriminate.

Section TopKeys.
Variable ls : list Py.str.

(** The body of the backspace and delete branches. *)
Lemma replace_or_edit_top (m : M unit) :
  inv (undo_top ls) m ->
  hoare (fun s => _lines s = ls)
    (deleted <- _delete_selection ;;
     if deleted then ret true else _save_undo ;; m ;; ret true)
    (fun _ => undo_top ls) (undo_top ls).
Proof.
  intros Hm.
  eapply hoare_bind
    with (Q := fun (b : bool) s => if b then undo_top ls s else _lines s = ls).
  { eapply hoare_conseq; [apply (delete_selection_top ls (fun _ => True))|..].
    - cbv beta; tauto.
    - intros [|] s; cbv beta; tauto.
    - cbv beta; tauto. }
  intros [|]; [by apply hoare_ret|].
  eapply hoare_bind with (Q := fun _ s => undo_top ls s).
  { eapply hoare_conseq; [apply (save_undo_top ls)|..];
      first [by intros ? ? [? ?] | by intros]. }
  intros ?. eapply hoare_bind; [apply Hm|]. intros ?. by apply hoare_ret.
Qed.

(** The body of the enter, tab and character branches. *)
Lemma save_replace_edit_top (m : M unit) :
  inv (undo_top ls) m ->
  hoare (fun s => _lines s = ls)
    (_save_undo ;; _delete_selection ;; m ;; ret true)
    (fun _ => undo_top ls) (undo_top ls).
Proof.
  intros Hm. eapply hoare_bind; [apply (save_undo_top ls)|]. intros ?.
  eapply hoare_bind with (Q := fun _ s => undo_top ls s).
  { eapply hoare_conseq; [apply (delete_selection_top ls (undo_top ls))|..].
    - cbv beta; tauto.
    - intros [|] s; cbv beta; tauto.
    - cbv beta; tauto. }
  intros ?. eapply hoare_bind; [apply Hm|]. intros ?. by apply hoare_ret.
Qed.

Lemma editing_key_top k :
  is_editing_key k = true ->
  hoare (fun s => _lines s = ls) (handle_key k)
    (fun _ => undo_top ls) (undo_top ls).
Proof.
  intros Hk. unfold handle_key.
  repeat match goal with
         | |- hoare _ (if ?b then _ else _) _ _ => destruct b eqn:?
         end.
  all: first
    [ exfalso; key_cases Hk
    | apply replace_or_edit_top; auto using backspace_top, delete_top
    | apply save_replace_edit_top;
      auto using enter_top, insert_text_top, insert_char_top ].
Qed.
End TopKeys.


(** [_delete_selection] returns [False] only when no selection is active. *)
Lemma hoare_any {A} (m : M A) :
  hoare (fun _ => True) m (fun _ _ => True) (fun _ => True).
Proof. intros s _. by destruct (m s) as [[a|] s']. Qed.

Lemma delete_selection_returns :
  hoare (fun s => _sel_range s <> None) _delete_selection
    (fun b _ => b = true) (fun _ => True).
Proof.
  unfold _delete_selection.
  eapply hoare_bind with (Q := fun sel _ => sel <> None).
  { by intros s Hs. }
  intros [[[sr sc] [er ec]]|]; [|by intros s Hs].
  repeat (eapply hoare_bind with (Q := fun _ _ => True);
          [eapply hoare_conseq; [apply hoare_any|..]; done | intros ?]).
  by apply hoare_ret.
Qed.

Lemma delete_selection_active s :
  _sel_range s <> None -> undo_top (_lines s) (exec _delete_selection s).
Proof.
  intros Hsel.
  pose proof (delete_selection_returns s Hsel) as Hb.
  pose proof (delete_selection_top (_lines s) (fun _ => True) s
                (conj eq_refl I)) as Ht.
  unfold exec. destruct (_delete_selection s) as [[b|] s']; [|done].
  by subst b.
Qed.

Lemma undo_key_is_undo s :
  exec (handle_key (mkKey [ctrl_U] None false)) s = exec _undo s /\
  exec (handle_key (mkKey [ctrl_R] None false)) s = exec _redo s.
Proof.
  unfold exec, handle_key, bind, ret. simpl.
  split; [by destruct (_undo s) as [[[]|] s'] | by destruct (_redo s) as [[[]|] s']].
Qed.

(** Claim C1. After any single editing key (a character, backspace,
    delete, enter, tab; backspace and delete on an active selection delete
    it), pressed on any editor object, [_undo] makes [get_text] the text
    before the edit, and [_redo] straight after makes it the text the edit
    left. The same holds for a direct [_delete_selection] on an active
    selection. *)
Theorem undo_redo_round_trip_after_edit (s : CodeEditor) (k : Keystroke)
  (Hk : is_editing_key k = true) :
  (let s1 := exec (handle_key k) s in
   get_text (exec _undo s1) = get_text s /\
   get_text (exec _redo (exec _undo s1)) = get_text s1) /\
  (_sel_range s <> None ->
   let s1 := exec _delete_selection s in
   get_text (exec _undo s1) = get_text s /\
   get_text (exec _redo (exec _undo s1)) = get_text s1).
Proof.
  split.
  - intros s1. apply undo_redo_round_trip.
    pose proof (editing_key_top (_lines s) k Hk s eq_refl) as H.
    subst s1. unfold exec. by destruct (handle_key k s) as [[b|] s'].
  - intros Hsel s1. apply undo_redo_round_trip.
    by apply delete_selection_active.
Qed.

Lemma undo_redo_round_trip_after_edit_witness :
  is_editing_key (named "KEY_ENTER") = true /\
  get_text (exec _undo (exec (handle_key (named "KEY_ENTER")) abcdef_selected))
  = get_text abcdef_selected.
Proof.
  split; [reflexivity|].
  apply (proj1 (undo_redo_round_trip_after_edit abcdef_selected
                  (named "KEY_ENTER") eq_refl)).
Defined.

(** ** The stacks stay bounded *)

Lemma save_undo_bounded : inv stacks_bounded _save_undo.
Proof.
  intros s Hs. rewrite save_undo_run. unfold stacks_bounded in *.
  cbn [_undo_stack _redo_stack set_redo_stack set_undo_stack].
  rewrite pushed_len. pose proof (len_nonneg (_redo_stack s)).
  unfold Py.len, _max_undo in *. simpl. lia.
Qed.

Lemma undo_bounded : inv stacks_bounded _undo.
Proof.
  intros s Hs. destruct (_undo_stack s) as [|e st _] eqn:Hst using rev_ind.
  - by rewrite undo_empty.
  - rewrite (undo_run _ _ _ Hst). unfold stacks_bounded in *.
    cbn [_undo_stack _redo_stack set_dirty set_highlight_dirty set_sel_anchor
         set_cursor_col set_cursor_row set_lines set_undo_stack set_redo_stack].
    rewrite Hst in Hs. rewrite !len_app in *. unfold Py.len in *. simpl in *. lia.
Qed.

Lemma redo_bounded : inv stacks_bounded _redo.
Proof.
  intros s Hs. destruct (_redo_stack s) as [|e st _] eqn:Hst using rev_ind.
  - by rewrite redo_empty.
  - rewrite (redo_run _ _ _ Hst). unfold stacks_bounded in *.
    cbn [_undo_stack _redo_stack set_dirty set_highlight_dirty set_sel_anchor
         set_cursor_col set_cursor_row set_lines set_undo_stack set_redo_stack].
    rewrite Hst in Hs. rewrite !len_app in *. unfold Py.len in *. simpl in *. lia.
Qed.

Create HintDb bound_db.
#[local] Hint Resolve save_undo_bounded undo_bounded redo_bounded : bound_db.

Ltac unfold_ops :=
  unfold _delete_selection, _insert_char, _insert_text, _backspace, _delete,
    _enter, _move_up, _move_down, _move_left, _move_right, _move_word_left,
    _move_word_right, _page_up, _page_down, collapse_to, cur_line_len,
    lines_get, lines_set, lines_pop.

Ltac inv_bound := repeat first [ inv_step | solve [ auto with bound_db ] ].

Lemma handle_key_bounded k : inv stacks_bounded (handle_key k).
Proof. unfold handle_key. unfold_ops. inv_bound. Qed.

Lemma set_text_bounded t : inv stacks_bounded (set_text t).
Proof. intros s _. unfold stacks_bounded, _max_undo. simpl. done. Qed.

Lemma set_language_bounded l : inv stacks_bounded (set_language l).
Proof. unfold set_language. inv_auto. Qed.

Lemma render_bounded lex x y w h : inv stacks_bounded (render lex x y w h).
Proof. unfold render, _rehighlight. inv_auto. Qed.

Lemma do_calls_bounded lex cs s :
  stacks_bounded s -> stacks_bounded (do_calls lex cs s).
Proof.
  revert s. induction cs as [|c cs IH]; intros s Hs; [done|].
  apply IH. destruct c; simpl; apply inv_exec;
    auto using handle_key_bounded, set_text_bounded, set_language_bounded,
      render_bounded.
Qed.

(** Claim C7. After every sequence of calls on a new editor (keys, among
    them the undo and redo keys, [set_text], [set_language], [render]), the
    undo stack and the redo stack hold at most [_max_undo] = 200 entries
    each; and a [_save_undo] on a full undo stack drops its oldest entry. *)
Theorem stacks_never_exceed_max lex (lang : string) (cs : list call) :
  let s := do_calls lex cs (init lang) in
  Py.len (_undo_stack s) <= _max_undo /\
  Py.len (_redo_stack s) <= _max_undo /\
  _max_undo = 200 /\
  forall t, Py.len (_undo_stack t) = _max_undo ->
    _undo_stack (exec _save_undo t)
    = drop 1 (_undo_stack t) ++ [current_snapshot t].
Proof.
  intros s.
  assert (Hb : stacks_bounded s).
  { apply do_calls_bounded. unfold stacks_bounded, _max_undo. simpl. done. }
  unfold stacks_bounded in Hb.
  pose proof (len_nonneg (_undo_stack s)). pose proof (len_nonneg (_redo_stack s)).
  repeat split; try lia.
  intros t Ht. unfold exec. rewrite save_undo_run.
  cbn [snd _undo_stack set_redo_stack set_undo_stack]. unfold pushed.
  rewrite len_app, Ht. unfold _max_undo, Py.len. simpl.
  destruct (_undo_stack t); [done|]. done.
Qed.

Lemma stacks_never_exceed_max_witness :
  let t := press (replicate 200 (char_key "a")) (init "python") in
  Py.len (_undo_stack t) = _max_undo /\
  _undo_stack (exec _save_undo t)
  = drop 1 (_undo_stack t) ++ [current_snapshot t].
Proof.
  intros t.
  assert (H : Py.len (_undo_stack t) = _max_undo) by (vm_compute; reflexivity).
  split; [exact H|].
  apply (stacks_never_exceed_max text_lexer "python" []). exact H.
Defined.

(** ** Deleting the selection *)

Lemma lines_get_run s i line :
  0 <= i -> _lines s !! Z.to_nat i = Some line ->
  lines_get i s = (Ok line, s).
Proof.
  intros Hi Hl. unfold lines_get, bind, gets, index_or_raise.
  by rewrite (getitem_nonneg _ _ _ Hi Hl).
Qed.

Lemma lines_set_run s i v :
  0 <= i < Py.len (_lines s) ->
  lines_set i v s = (Ok tt, set_lines (<[Z.to_nat i := v]> (_lines s)) s).
Proof.
  intros Hi. unfold lines_set, bind, gets, index_or_raise, modify.
  by rewrite (setitem_nonneg _ _ _ Hi).
Qed.

Lemma lookup_len {A} (l : list A) (i : Z) x :
  0 <= i -> l !! Z.to_nat i = Some x -> i < Py.len l.
Proof. intros Hi Hx. apply lookup_lt_Some in Hx. unfold Py.len. lia. Qed.

Lemma slice_to_inside {A} (l : list A) i :
  0 <= i <= Py.len l -> Py.slice_to l i = take (Z.to_nat i) l.
Proof. intros. unfold Py.slice_to. by rewrite bound_inside. Qed.
Lemma slice_from_inside {A} (l : list A) i :
  0 <= i <= Py.len l -> Py.slice_from l i = drop (Z.to_nat i) l.
Proof. intros. unfold Py.slice_from. by rewrite bound_inside. Qed.

Lemma sel_range_ordered s sr sc er ec :
  _sel_range s = Some ((sr, sc), (er, ec)) ->
  sr < er \/ (sr = er /\ sc < ec).
Proof.
  unfold _sel_range. destruct (_sel_anchor s) as [[ar ac]|]; [|done].
  unfold Py.pair_eqb, Py.pair_lt. simpl.
  destruct (Z.eqb_spec ar (_cursor_row s)), (Z.eqb_spec ac (_cursor_col s)),
    (Z.ltb_spec ar (_cursor_row s)), (Z.ltb_spec ac (_cursor_col s));
    simpl; intros [=]; subst; lia.
Qed.

Lemma delete_selection_run s sr sc er ec l1 l2 :
  _sel_range s = Some ((sr, sc), (er, ec)) ->
  0 <= sr -> _lines s !! Z.to_nat sr = Some l1 -> 0 <= sc <= Py.len l1 ->
  0 <= er -> _lines s !! Z.to_nat er = Some l2 -> 0 <= ec <= Py.len l2 ->
  _delete_selection s =
    (Ok true,
     set_dirty true (set_highlight_dirty true (set_sel_anchor None
       (set_cursor_col sc (set_cursor_row sr
         (set_lines (without_range (_lines s) sr sc er ec l1 l2)
           (set_redo_stack [] (set_undo_stack (pushed s) s)))))))).
Proof.
  intros Hsel Hsr Hl1 Hsc Her Hl2 Hec.
  pose proof (sel_range_ordered _ _ _ _ _ Hsel) as Hord.
  pose proof (lookup_len _ _ _ Hsr Hl1) as Hsr'.
  pose proof (lookup_len _ _ _ Her Hl2) as Her'.
  unfold _delete_selection, bind at 1. unfold gets. rewrite Hsel.
  unfold bind at 1. rewrite save_undo_run.
  set (s0 := set_redo_stack [] (set_undo_stack (pushed s) s)).
  assert (Hs0 : _lines s0 = _lines s) by done.
  unfold without_range.
  destruct (Z.eqb_spec sr er) as [->|Hne].
  - assert (l2 = l1) by congruence. subst l2.
    unfold bind at 1. unfold bind at 1.
    rewrite (lines_get_run s0 er l1) by done.
    rewrite lines_set_run by (rewrite Hs0; lia).
    rewrite slice_to_inside, slice_from_inside by lia.
    unfold bind, modify, ret. cbn.
    rewrite insert_take_drop by (unfold Py.len in *; lia). done.
  - unfold bind at 1. unfold bind at 1.
    rewrite (lines_get_run s0 sr l1) by done.
    unfold bind at 1. rewrite (lines_get_run s0 er l2) by done.
    unfold bind at 1.
    rewrite lines_set_run by (rewrite Hs0; lia).
    rewrite slice_to_inside, slice_from_inside by lia.
    unfold bind, modify, ret. cbn.
    change (set_lines ?v (set_lines ?w s0)) with (set_lines v s0).
    do 7 f_equal. unfold Py.del_slice.
    assert (Hlen : Py.len (<[Z.to_nat sr := take (Z.to_nat sc) l1 ++ drop (Z.to_nat ec) l2]> (_lines s)) = Py.len (_lines s)).
    { unfold Py.len. by rewrite length_insert. }
    rewrite !bound_inside by (rewrite Hlen; lia).
    replace (Z.to_nat (sr + 1)) with (S (Z.to_nat sr)) by lia.
    replace (Z.to_nat (er + 1)) with (S (Z.to_nat er)) by lia.
    destruct (Nat.ltb_spec (S (Z.to_nat sr)) (S (Z.to_nat er))); [|lia].
    rewrite drop_insert_lt by lia.
    rewrite (take_S_r _ _ (take (Z.to_nat sc) l1 ++ drop (Z.to_nat ec) l2)).
    + rewrite take_insert_ge by lia. by rewrite <- app_assoc.
    + apply list_lookup_insert_eq. unfold Py.len in *. lia.
Qed.

(** *** The text without the range *)

Lemma join_nl_cons x ls : Py.join_nl (x :: ls) = x ++ text_after ls.
Proof. destruct ls; simpl; [by rewrite app_nil_r | done]. Qed.

Lemma join_nl_app a x b :
  Py.join_nl (a ++ x :: b) = text_before a ++ Py.join_nl (x :: b).
Proof.
  induction a as [|h a IH]; [done|].
  change (text_before (h :: a)) with ((h ++ [Py.newline]) ++ text_before a).
  rewrite <- !app_assoc, <- IH. simpl.
  destruct (a ++ x :: b) eqn:E; [by destruct a | done].
Qed.

Lemma get_text_at ls r l :
  ls !! r = Some l ->
  Py.join_nl ls = text_before (take r ls) ++ l ++ text_after (drop (S r) ls).
Proof.
  intros Hl. rewrite <- (take_drop_middle ls r l Hl) at 1.
  by rewrite join_nl_app, join_nl_cons.
Qed.

Lemma text_split ls (p : pos) l :
  0 <= p.1 -> ls !! Z.to_nat p.1 = Some l -> 0 <= p.2 <= Py.len l ->
  take (offset ls p) (Py.join_nl ls)
    = text_before (take (Z.to_nat p.1) ls) ++ take (Z.to_nat p.2) l /\
  drop (offset ls p) (Py.join_nl ls)
    = drop (Z.to_nat p.2) l ++ text_after (drop (S (Z.to_nat p.1)) ls).
Proof.
  intros Hr Hl Hc. rewrite (get_text_at ls _ l Hl). unfold offset.
  assert (Hn : (Z.to_nat p.2 <= length l)%nat) by (unfold Py.len in Hc; lia).
  split.
  - rewrite take_app_add. f_equal. by rewrite take_app_le.
  - rewrite drop_app_add. by rewrite drop_app_le.
Qed.

Lemma without_range_text ls sr sc er ec l1 l2 :
  0 <= sr -> ls !! Z.to_nat sr = Some l1 -> 0 <= sc <= Py.len l1 ->
  0 <= er -> ls !! Z.to_nat er = Some l2 -> 0 <= ec <= Py.len l2 ->
  Py.join_nl (without_range ls sr sc er ec l1 l2)
  = take (offset ls (sr, sc)) (Py.join_nl ls)
    ++ drop (offset ls (er, ec)) (Py.join_nl ls).
Proof.
  intros Hsr Hl1 Hsc Her Hl2 Hec.
  destruct (text_split ls (sr, sc) l1) as [-> _]; [done..|].
  destruct (text_split ls (er, ec) l2) as [_ ->]; [done..|].
  unfold without_range. cbn [fst snd].
  change ([?x] ++ ?l) with (x :: l).
  rewrite join_nl_app, join_nl_cons. by rewrite <- !app_assoc.
Qed.

(** [_delete_selection] inside the buffer (claim C3 where the code meets
    it). On an active selection whose two ends are positions of the
    buffer, [_delete_selection] returns [True] and removes exactly the range
    from the start [(sr, sc)] to the end [(er, ec)], the end excluded: within
    one row the row keeps its characters before [sc] and from [ec] on; over
    several rows the start of row [sr] is joined with the end of row [er] and
    the rows in between are gone; in both cases [get_text] loses exactly the
    characters between the two offsets. The cursor is left at the start and
    the anchor is cleared. Without an active selection it returns [False] and
    the editor is unchanged. On ["abcdef"] with the selection from [(0, 2)] to
    [(0, 5)] the line becomes ["abf"] and the cursor is at [(0, 2)]. *)
Theorem delete_selection_removes_range
  (s : CodeEditor) (sr sc er ec : Z) (l1 l2 : Py.str)
  (Hsel : _sel_range s = Some ((sr, sc), (er, ec)))
  (Hsr : 0 <= sr) (Hl1 : _lines s !! Z.to_nat sr = Some l1)
  (Hsc : 0 <= sc <= Py.len l1)
  (Her : 0 <= er) (Hl2 : _lines s !! Z.to_nat er = Some l2)
  (Hec : 0 <= ec <= Py.len l2) :
  let s' := exec _delete_selection s in
  returned _delete_selection s = Ok true /\
  (sr = er ->
   _lines s'
   = <[Z.to_nat sr := take (Z.to_nat sc) l1 ++ drop (Z.to_nat ec) l1]>
       (_lines s)) /\
  _lines s'
  = take (Z.to_nat sr) (_lines s)
    ++ [take (Z.to_nat sc) l1 ++ drop (Z.to_nat ec) l2]
    ++ drop (S (Z.to_nat er)) (_lines s) /\
  get_text s'
  = take (offset (_lines s) (sr, sc)) (get_text s)
    ++ drop (offset (_lines s) (er, ec)) (get_text s) /\
  cursor s' = (sr, sc) /\ _sel_anchor s' = None /\
  (forall t, _sel_range t = None -> _delete_selection t = (Ok false, t)) /\
  (_sel_range abcdef_selected = Some ((0, 2), (0, 5)) /\
   _lines abcdef_selected = [Py.of_string "abcdef"] /\
   _lines (exec _delete_selection abcdef_selected) = [Py.of_string "abf"] /\
   cursor (exec _delete_selection abcdef_selected) = (0, 2)).
Proof.
  intros s'. subst s'. unfold exec, returned, get_text.
  rewrite (delete_selection_run s sr sc er ec l1 l2) by done.
  cbn [fst snd _lines set_dirty set_highlight_dirty set_sel_anchor
       set_cursor_col set_cursor_row set_lines].
  repeat split.
  - intros <-. assert (l2 = l1) by congruence. subst l2.
    unfold without_range. rewrite insert_take_drop; [done|].
    by eapply lookup_lt_Some.
  - by apply without_range_text.
  - intros t Ht. unfold _delete_selection, bind, gets. by rewrite Ht.
Qed.

Lemma delete_selection_removes_range_witness :
  _sel_range abcdef_selected = Some ((0, 2), (0, 5)) /\
  get_text (exec _delete_selection abcdef_selected)
  = take (offset (_lines abcdef_selected) (0, 2)) (get_text abcdef_selected)
    ++ drop (offset (_lines abcdef_selected) (0, 5))
         (get_text abcdef_selected).
Proof.
  split; [reflexivity|].
  apply (delete_selection_removes_range abcdef_selected 0 2 0 5
           (Py.of_string "abcdef") (Py.of_string "abcdef"));
    first [ reflexivity | unfold Py.len; simpl; lia ].
Defined.

(** ** Editing keys on an active selection *)

Lemma replace_only_run (m : M unit) s :
  _sel_range s <> None ->
  (deleted <- _delete_selection ;;
   if deleted then ret true else _save_undo ;; m ;; ret true) s
  = _delete_selection s.
Proof.
  intros Hsel. pose proof (delete_selection_returns s Hsel) as Hb.
  unfold bind. destruct (_delete_selection s) as [[b|] s']; [|done].
  by subst b.
Qed.

Lemma save_replace_edit_run (m : M unit) s :
  exec (_save_undo ;; _delete_selection ;; m ;; ret true) s
  = exec (_delete_selection ;; m) (exec _save_undo s).
Proof.
  unfold exec, bind. rewrite save_undo_run. cbn [fst snd].
  destruct (_delete_selection _) as [[b|] s1]; [|done].
  by destruct (m s1) as [[u|] s2].
Qed.

Lemma removal_key_on_selection s k :
  is_editing_key k = true -> is_removal_key k = true ->
  _sel_range s <> None ->
  handle_key k s = _delete_selection s.
Proof.
  intros Hk Hr Hsel. unfold handle_key.
  repeat match goal with
         | |- (if ?b then _ else _) _ = _ => destruct b eqn:?
         end.
  all: first
    [ exfalso; key_cases Hk
    | by apply replace_only_run
    | exfalso; unfold is_removal_key in Hr;
      repeat match goal with
             | E : _ = false |- _ => rewrite E in Hr
             end; discriminate ].
Qed.

Lemma other_key_on_selection s k :
  is_editing_key k = true -> is_removal_key k = false ->
  exec (handle_key k) s
  = exec (_delete_selection ;; own_edit k) (exec _save_undo s).
Proof.
  intros Hk Hr. unfold is_removal_key in Hr.
  apply orb_false_elim in Hr as [Hr1 Hr2].
  unfold handle_key, own_edit. rewrite Hr1, Hr2.
  repeat match goal with
         | |- exec (if ?b then _ else _) _ = _ => destruct b eqn:?
         end.
  all: first [ exfalso; key_cases Hk | apply save_replace_edit_run ].
Qed.

Lemma save_undo_sel_range s : _sel_range (exec _save_undo s) = _sel_range s.
Proof. unfold exec. by rewrite save_undo_run. Qed.

(** A [_delete_selection] that returns leaves the cursor at the start of
    the range and no anchor. *)
Lemma delete_selection_collapses s r :
  _sel_range s = Some r ->
  hoare (fun s0 => s0 = s) _delete_selection
    (fun _ s' => cursor s' = r.1 /\ _sel_anchor s' = None) (fun _ => True).
Proof.
  intros Hsel. unfold _delete_selection.
  eapply hoare_bind with (Q := fun sel _ => sel = Some r).
  { intros ? ->. done. }
  intros sel. destruct sel as [[[sr sc] [er ec]]|]; [|by intros ? ?].
  eapply hoare_bind with (Q := fun _ _ => Some (sr, sc, (er, ec)) = Some r).
  { intros s0 Hs0. by destruct (_save_undo s0) as [[[]|] ?]. }
  intros ?.
  eapply hoare_bind with (Q := fun _ _ => Some (sr, sc, (er, ec)) = Some r).
  { intros s0 Hs0. by destruct (_ s0) as [[[]|] ?]. }
  intros ?.
  intros s0 Hs0. injection Hs0 as <-. done.
Qed.

(** An editing key other than backspace and delete runs its four calls in
    a row. *)
Lemma other_key_run s k :
  is_editing_key k = true -> is_removal_key k = false ->
  handle_key k s
  = (_save_undo ;; _delete_selection ;; own_edit k ;; ret true) s.
Proof.
  intros Hk Hr. unfold is_removal_key in Hr.
  apply orb_false_elim in Hr as [Hr1 Hr2].
  unfold handle_key, own_edit. rewrite Hr1, Hr2.
  repeat match goal with
         | |- (if ?b then _ else _) _ = _ => destruct b eqn:?
         end.
  all: first [ exfalso; key_cases Hk | reflexivity ].
Qed.

(** Claim C6, as the code has it. On an active selection whose two ends
    are positions of the buffer, the [_delete_selection] of an editing key
    returns [True] and leaves the text without the range, the cursor at the
    start of the range and no anchor. Backspace and delete then return at
    once: only the selection is deleted and the key's own edit is not
    applied. Enter, tab and a character save a snapshot first, and after
    [_delete_selection] apply their own edit to the editor it left. *)
Theorem editing_key_on_selection (s : CodeEditor) (k : Keystroke)
  (sr sc er ec : Z) (l1 l2 : Py.str)
  (Hk : is_editing_key k = true)
  (Hsel : _sel_range s = Some ((sr, sc), (er, ec)))
  (Hsr : 0 <= sr) (Hl1 : _lines s !! Z.to_nat sr = Some l1)
  (Hsc : 0 <= sc <= Py.len l1)
  (Her : 0 <= er) (Hl2 : _lines s !! Z.to_nat er = Some l2)
  (Hec : 0 <= ec <= Py.len l2) :
  let s1 := if is_removal_key k then s else exec _save_undo s in
  let s2 := exec _delete_selection s1 in
  returned _delete_selection s1 = Ok true /\
  get_text s2
  = take (offset (_lines s) (sr, sc)) (get_text s)
    ++ drop (offset (_lines s) (er, ec)) (get_text s) /\
  cursor s2 = (sr, sc) /\ _sel_anchor s2 = None /\
  handle_key k s
  = (if is_removal_key k then (Ok true, s2)
     else (own_edit k ;; ret true) s2).
Proof.
  intros s1 s2.
  assert (Hs1 : _sel_range s1 = Some ((sr, sc), (er, ec)) /\
                _lines s1 = _lines s).
  { subst s1. destruct (is_removal_key k); [done|].
    unfold exec. rewrite save_undo_run. done. }
  destruct Hs1 as [Hsel1 Hls1].
  pose proof (delete_selection_run s1 sr sc er ec l1 l2 Hsel1 Hsr
                ltac:(by rewrite Hls1) Hsc Her ltac:(by rewrite Hls1) Hec)
    as Hrun.
  assert (Hs2 : _delete_selection s1 = (Ok true, s2)).
  { subst s2. unfold exec. by rewrite Hrun. }
  split_and!.
  - unfold returned. by rewrite Hs2.
  - subst s2. unfold exec, get_text. rewrite Hrun. cbn [snd].
    cbn [_lines set_dirty set_highlight_dirty set_sel_anchor
         set_cursor_col set_cursor_row set_lines].
    rewrite Hls1. by apply without_range_text.
  - subst s2. unfold exec. by rewrite Hrun.
  - subst s2. unfold exec. by rewrite Hrun.
  - destruct (is_removal_key k) eqn:Hr.
    + rewrite removal_key_on_selection by (done || by rewrite Hsel).
      exact Hs2.
    + rewrite other_key_run by done.
      unfold bind at 1. rewrite save_undo_run.
      assert (Hs1' : s1 = set_redo_stack [] (set_undo_stack (pushed s) s)).
      { subst s1. unfold exec. by rewrite save_undo_run. }
      rewrite <- Hs1'. unfold bind at 1. by rewrite Hs2.
Qed.

Lemma editing_key_on_selection_witness :
  is_editing_key (named "KEY_BACKSPACE") = true /\
  _sel_range abcdef_selected = Some ((0, 2), (0, 5)) /\
  handle_key (named "KEY_BACKSPACE") abcdef_selected
  = (Ok true, exec _delete_selection abcdef_selected).
Proof.
  split; [reflexivity|]. split; [reflexivity|].
  apply (editing_key_on_selection abcdef_selected (named "KEY_BACKSPACE")
           0 2 0 5 (Py.of_string "abcdef") (Py.of_string "abcdef"));
    first [ reflexivity | unfold Py.len; simpl; lia ].
Defined.

(** ** Scenarios *)

(** Claim C2 fails on the code. An anchor set where the cursor stands
    (Shift+End at the end of a line, Shift+Home at its start) selects
    nothing, so the next edit does not clear it; after the edit it may lie
    outside the buffer, and Left or Right moves the cursor onto it. After
    [stale_anchor_keys] the line is ["a"] and the cursor is at column 2; after
    [stale_anchor_row_keys] the buffer has one line and the cursor is on
    row 1, where typing a character raises [IndexError]. *)
Theorem buffer_invariant_broken :
  let s := press stale_anchor_keys (init "python") in
  let s' := press stale_anchor_row_keys (init "python") in
  (_lines s = [Py.of_string "a"] /\ cursor s = (0, 2) /\
   ~ buffer_invariant s) /\
  (_lines s' = [[]] /\ cursor s' = (1, 0) /\ ~ buffer_invariant s' /\
   returned (handle_key (char_key "x")) s' = IndexError).
Proof.
  repeat split; try (vm_compute; reflexivity).
  - intros (_ & _ & line & Hl & Hc). vm_compute in Hl.
    injection Hl as <-. vm_compute in Hc. by apply Hc.
  - intros (_ & _ & line & Hl & _). vm_compute in Hl. discriminate.
Qed.

(** Claim C3 fails on the code. After [stale_selection_keys] the buffer is
    the one empty line and the cursor, at [(0, 0)], is a position of it,
    but the anchor is still [(1, 0)]: the selection from [(0, 0)] to
    [(1, 0)] is active and its end is no row of the buffer. There
    [_delete_selection] saves a snapshot and raises [IndexError] at
    [self._lines[er]]: nothing is removed and the anchor stays. After
    [stale_selection_text_keys] the same happens on the line ["a"]. *)
Theorem delete_selection_raises_on_stale_anchor :
  let s := press stale_selection_keys (init "python") in
  let t := press stale_selection_text_keys (init "python") in
  (_lines s = [[]] /\ cursor s = (0, 0) /\ buffer_invariant s /\
   _sel_range s = Some ((0, 0), (1, 0)) /\
   returned _delete_selection s = IndexError /\
   _lines (exec _delete_selection s) = [[]] /\
   _sel_anchor (exec _delete_selection s) = Some (1, 0)) /\
  (_lines t = [Py.of_string "a"] /\ cursor t = (0, 1) /\
   buffer_invariant t /\
   _sel_range t = Some ((0, 1), (1, 0)) /\
   returned _delete_selection t = IndexError /\
   _lines (exec _delete_selection t) = [Py.of_string "a"] /\
   _sel_anchor (exec _delete_selection t) = Some (1, 0)).
Proof.
  split; split_and!; try (vm_compute; reflexivity).
  - split_and!; [vm_compute; discriminate..|].
    exists []. split; vm_compute; [reflexivity|discriminate].
  - split_and!; [vm_compute; discriminate..|].
    exists (Py.of_string "a"). split; vm_compute; [reflexivity|discriminate].
Qed.

(** Claim C5 as stated fails: the second [_move_word_right] starts at the
    end of the line ["two"], and only crosses to the start of the next
    line. *)
Lemma word_right_twice_not_end_of_sum :
  ~ (cursor (exec _move_word_right two_sum) = (0, 3) /\
     cursor (exec (_move_word_right ;; _move_word_right) two_sum) = (1, 3)).
Proof. intros [_ H]. vm_compute in H. discriminate. Qed.

(** Claim C5, as the code has it. On [["two"; "sum"]] from [(0, 0)], one
    [_move_word_right] moves the cursor to [(0, 3)], a second one crosses
    into the next line and stops at [(1, 0)], and a third one skips to the
    end of ["sum"], [(1, 3)]. *)
Theorem word_right_scenario :
  _lines two_sum = [Py.of_string "two"; Py.of_string "sum"] /\
  cursor two_sum = (0, 0) /\
  cursor (exec _move_word_right two_sum) = (0, 3) /\
  cursor (exec (_move_word_right ;; _move_word_right) two_sum) = (1, 0) /\
  cursor (exec (_move_word_right ;; _move_word_right ;; _move_word_right)
            two_sum) = (1, 3).
Proof. repeat split; vm_compute; reflexivity. Qed.

(** Claim C6 as stated fails for backspace: on ["abcdef"] with the selection
    from [(0, 2)] to [(0, 5)] the key leaves ["abf"]; deleting the selection
    and then one more character before the cursor would leave ["af"]. *)
Lemma backspace_on_selection_deletes_selection_only :
  _sel_range abcdef_selected = Some ((0, 2), (0, 5)) /\
  get_text (exec (handle_key (named "KEY_BACKSPACE")) abcdef_selected)
    = Py.of_string "abf" /\
  get_text (exec (_delete_selection ;; _backspace) abcdef_selected)
    = Py.of_string "af" /\
  exec (handle_key (named "KEY_BACKSPACE")) abcdef_selected
    <> exec (_delete_selection ;; _backspace) abcdef_selected.
Proof.
  repeat split; try (vm_compute; reflexivity).
  intros H. apply (f_equal get_text) in H. vm_compute in H. discriminate.
Qed.

(** Reading an attribute after assignments. *)
Ltac attrs :=
  cbn [_lines _cursor_row _cursor_col _scroll_row _scroll_col _lang_name
       _highlighted _highlight_dirty dirty _gutter_width _sel_anchor
       _undo_stack _redo_stack
       set_lines set_cursor_row set_cursor_col set_scroll_row set_scroll_col
       set_lang_name set_highlighted set_highlight_dirty set_dirty
       set_gutter_width set_sel_anchor set_undo_stack set_redo_stack
       cursor fst snd].

(** ** The viewport *)

Section Render.
Variable lex : string -> Py.str -> list (token_type * Py.str).

(** [_rehighlight] returns, and assigns the cache and its flag only. *)
Lemma rehighlight_run s :
  exists hl d,
    _rehighlight lex s = (Ok tt, set_highlighted hl (set_highlight_dirty d s)) /\
    (_highlight_dirty s = false -> hl = _highlighted s /\ d = false).
Proof.
  unfold _rehighlight, bind, gets, modify, ret.
  destruct (_highlight_dirty s) eqn:Hd; simpl.
  - eexists _, _. split; [reflexivity|done].
  - exists (_highlighted s), false. split; [|done]. destruct s. simpl in *. by subst.
Qed.

Lemma render_run s x y width height :
  let s' := exec (render lex x y width height) s in
  returned (render lex x y width height) s = Ok tt /\
  _lines s' = _lines s /\ cursor s' = cursor s /\
  _gutter_width s' = gutter_of s /\
  _scroll_row s' = scrolled_row s height /\
  _scroll_col s' = scrolled_col s width /\
  dirty s' = false.
Proof.
  intros s'. subst s'.
  unfold exec, returned, render, scrolled_row, scrolled_col, gutter_of, bind.
  destruct (rehighlight_run s) as (hl & d & -> & _).
  unfold gets, modify, ret. attrs.
  destruct (_cursor_row s <? _scroll_row s);
    [|destruct (_cursor_row s >=? _scroll_row s + height)];
    attrs;
    (destruct (_cursor_col s <? _scroll_col s);
     [|destruct (_cursor_col s >=? _scroll_col s + _)]);
    attrs; repeat split; reflexivity.
Qed.

Lemma viewport_bounds s width height :
  0 <= _cursor_row s -> 0 <= _cursor_col s ->
  0 <= _scroll_row s -> 0 <= _scroll_col s ->
  1 <= height -> gutter_of s < width ->
  0 <= scrolled_row s height <= _cursor_row s /\
  _cursor_row s < scrolled_row s height + height /\
  0 <= scrolled_col s width <= _cursor_col s /\
  _cursor_col s < scrolled_col s width + (width - gutter_of s).
Proof.
  intros. unfold scrolled_row, scrolled_col.
  destruct (_cursor_row s <? _scroll_row s) eqn:?;
    [|destruct (_cursor_row s >=? _scroll_row s + height) eqn:?];
    (destruct (_cursor_col s <? _scroll_col s) eqn:?;
     [|destruct (_cursor_col s >=? _scroll_col s + _) eqn:?]);
    zbool; lia.
Qed.
End Render.

(** ** The highlight cache *)

(** *** Splitting and joining at line breaks *)

Lemma split_nl_nonempty v : Py.split_nl v <> [].
Proof. destruct v as [|c v]; simpl; [done|]. by repeat case_match. Qed.

Lemma join_split v : Py.join_nl (Py.split_nl v) = v.
Proof.
  induction v as [|c v IH]; [done|]. simpl.
  destruct (Py.is_newline c) eqn:Hc.
  - apply Ascii.eqb_eq in Hc as ->.
    destruct (Py.split_nl v) as [|h t] eqn:E; [by destruct (split_nl_nonempty v)|].
    change (Py.join_nl ([] :: h :: t)) with (Py.newline :: Py.join_nl (h :: t)).
    by rewrite IH.
  - destruct (Py.split_nl v) as [|h t] eqn:E; [by destruct (split_nl_nonempty v)|].
    rewrite <- IH. by destruct t.
Qed.

Lemma split_nl_is_line v : Forall is_line (Py.split_nl v).
Proof.
  induction v as [|c v IH]; simpl.
  - repeat constructor.
  - destruct (Py.is_newline c) eqn:Hc.
    + constructor; [constructor | done].
    + destruct (Py.split_nl v) as [|h t]; [repeat constructor; done|].
      inversion IH; subst. constructor; [by constructor | done].
Qed.

Lemma split_line x : is_line x -> Py.split_nl x = [x].
Proof.
  induction 1 as [|c x Hc _ IH]; [done|]. simpl. by rewrite Hc, IH.
Qed.

Lemma split_line_app x rest :
  is_line x -> Py.split_nl (x ++ Py.newline :: rest) = x :: Py.split_nl rest.
Proof.
  induction 1 as [|c x Hc _ IH]; [done|]. simpl. by rewrite Hc, IH.
Qed.

Lemma split_join ls :
  ls <> [] -> Forall is_line ls -> Py.split_nl (Py.join_nl ls) = ls.
Proof.
  intros Hne Hls. induction Hls as [|x ls Hx Hls IH]; [done|].
  destruct ls as [|y ls].
  - by apply split_line.
  - change (Py.join_nl (x :: y :: ls))
      with (x ++ Py.newline :: Py.join_nl (y :: ls)).
    rewrite split_line_app by done. by rewrite IH.
Qed.

(** *** The loops of [_rehighlight] *)

Lemma line_text_snoc toks color part :
  line_text (toks ++ [(color, part)]) = line_text toks ++ part.
Proof. unfold line_text. rewrite map_app, concat_app. simpl. by rewrite app_nil_r. Qed.

Lemma add_part_first color acc part :
  lines_of (add_part color acc (0%nat, part))
  = map line_text acc.1 ++ [line_text acc.2 ++ part].
Proof.
  unfold add_part, lines_of, Py.append. simpl.
  destruct part; simpl; [by rewrite app_nil_r | by rewrite line_text_snoc].
Qed.

Lemma add_part_next color acc i part :
  (0 < i)%nat ->
  lines_of (add_part color acc (i, part)) = lines_of acc ++ [part].
Proof.
  intros Hi. unfold add_part, lines_of, Py.append. simpl.
  destruct (Nat.ltb_spec 0 i); [|lia]. simpl.
  destruct part; simpl; rewrite map_app; unfold line_text; simpl;
    rewrite ?app_nil_r; done.
Qed.

Lemma add_parts_next color parts : forall (g : nat -> nat) acc,
  (forall i, (0 < g i)%nat) ->
  lines_of (foldl (add_part color) acc (imap (fun i p => (g i, p)) parts))
  = lines_of acc ++ parts.
Proof.
  induction parts as [|p ps IH]; intros g acc Hg; simpl.
  - by rewrite app_nil_r.
  - rewrite (IH (fun i => g (S i))) by auto.
    rewrite add_part_next by auto. by rewrite <- app_assoc.
Qed.

Lemma add_token_lines acc tok p ps :
  Py.split_nl tok.2 = p :: ps ->
  lines_of (add_token acc tok)
  = map line_text acc.1 ++ (line_text acc.2 ++ p) :: ps.
Proof.
  intros Hs. unfold add_token. rewrite Hs. simpl.
  rewrite (add_parts_next _ ps S) by lia.
  rewrite add_part_first. by rewrite <- app_assoc.
Qed.

Lemma join_nl_snoc_app d c v :
  Py.join_nl (d ++ [c ++ v]) = Py.join_nl (d ++ [c]) ++ v.
Proof. rewrite !join_nl_app. simpl. by rewrite !app_assoc. Qed.

Lemma add_token_text acc tok :
  Py.join_nl (lines_of (add_token acc tok))
  = Py.join_nl (lines_of acc) ++ tok.2 /\
  (Forall is_line (lines_of acc) -> Forall is_line (lines_of (add_token acc tok))).
Proof.
  destruct (Py.split_nl tok.2) as [|p ps] eqn:Hs;
    [by destruct (split_nl_nonempty tok.2)|].
  rewrite (add_token_lines _ _ _ _ Hs). unfold lines_of. split.
  - rewrite join_nl_app, join_nl_cons, join_nl_app, join_nl_cons.
    rewrite <- (join_split tok.2), Hs, join_nl_cons. simpl.
    by rewrite <- !app_assoc.
  - pose proof (split_nl_is_line tok.2) as Hl. rewrite Hs in Hl.
    inversion Hl; subst. rewrite !Forall_app, !Forall_cons, !Forall_nil.
    intros (? & ? & _). repeat split; try done. by apply Forall_app.
Qed.

Lemma add_tokens_text toks : forall acc,
  Py.join_nl (lines_of (foldl add_token acc toks))
  = Py.join_nl (lines_of acc) ++ concat (map snd toks) /\
  (Forall is_line (lines_of acc) ->
   Forall is_line (lines_of (foldl add_token acc toks))).
Proof.
  induction toks as [|tok toks IH]; intros acc; simpl.
  - by rewrite app_nil_r.
  - destruct (IH (add_token acc tok)) as [-> Hl].
    destruct (add_token_text acc tok) as [-> Hl']. rewrite <- app_assoc.
    split; [done | auto].
Qed.

Lemma pad_loop_full n hl : length hl = n -> pad_loop n n hl = hl.
Proof.
  intros <-. destruct (length hl) eqn:E; [done|]. simpl. rewrite E.
  by rewrite Nat.ltb_irrefl.
Qed.

(** The cache computed from a token stream that spells the text of the
    buffer: each line of the cache spells the line of the buffer. *)
Lemma split_tokens_lines toks ls :
  ls <> [] -> Forall is_line ls ->
  concat (map snd toks) = Py.join_nl ls ->
  map line_text (split_tokens toks (length ls)) = ls.
Proof.
  intros Hne Hls Htoks. unfold split_tokens, Py.append.
  set (acc := foldl add_token ([], []) toks).
  assert (Hacc : map line_text (acc.1 ++ [acc.2]) = ls).
  { rewrite map_app. change (lines_of acc = ls).
    destruct (add_tokens_text toks ([], [])) as [Hj Hl]. fold acc in Hj, Hl.
    rewrite Htoks in Hj. simpl in Hj.
    rewrite <- (split_join (lines_of acc)), Hj, split_join; try done.
    - unfold lines_of. by destruct (map line_text acc.1).
    - apply Hl. repeat constructor. }
  rewrite pad_loop_full; [done|]. by rewrite <- Hacc, length_map.
Qed.

(** *** Recomputing the cache *)

Lemma rehighlight_dirty lex s :
  _highlight_dirty s = true ->
  _rehighlight lex s
  = (Ok tt,
     set_highlighted
       (split_tokens (lex (_lang_name s) (get_text s)) (length (_lines s)))
       (set_highlight_dirty false s)).
Proof.
  intros Hd. unfold _rehighlight, bind, gets, modify. by rewrite Hd.
Qed.

Lemma rehighlight_clean lex s :
  _highlight_dirty s = false -> _rehighlight lex s = (Ok tt, s).
Proof.
  intros Hd. unfold _rehighlight, bind, gets. by rewrite Hd.
Qed.

(** Claim C8. For a buffer of at least one line, none holding a line break,
    a lexer whose tokens spell the text of the buffer, and a cache that is
    dirty or in step with the buffer: after [_rehighlight] the cache has
    exactly one token list per buffer line, the fragments of each list
    spelling that line, and is not dirty; [_rehighlight] on a cache that is
    not dirty changes nothing; and forcing the flag and recomputing again on
    the unchanged text gives the same editor, so the same per-line lists. *)
Theorem rehighlight_one_list_per_line
  (lex : string -> Py.str -> list (token_type * Py.str)) (s : CodeEditor)
  (Hne : _lines s <> []) (Hlines : Forall is_line (_lines s))
  (Hlex : concat (map snd (lex (_lang_name s) (get_text s))) = get_text s)
  (Hcache : cache_ok s) :
  let s1 := exec (_rehighlight lex) s in
  returned (_rehighlight lex) s = Ok tt /\
  _lines s1 = _lines s /\
  length (_highlighted s1) = length (_lines s1) /\
  map line_text (_highlighted s1) = _lines s1 /\
  _highlight_dirty s1 = false /\
  (forall t, _highlight_dirty t = false -> _rehighlight lex t = (Ok tt, t)) /\
  (forall t,
     let r := exec (_rehighlight lex) (set_highlight_dirty true t) in
     exec (_rehighlight lex) (set_highlight_dirty true r) = r) /\
  (_highlight_dirty s = true ->
   exec (_rehighlight lex) (set_highlight_dirty true s1) = s1).
Proof.
  intros s1. subst s1. unfold exec, returned.
  assert (Hstep : map line_text (_highlighted (_rehighlight lex s).2)
                  = _lines s /\
                  _highlight_dirty (_rehighlight lex s).2 = false /\
                  (_rehighlight lex s).1 = Ok tt /\
                  _lines (_rehighlight lex s).2 = _lines s).
  { destruct (_highlight_dirty s) eqn:Hd.
    - rewrite (rehighlight_dirty lex s Hd). attrs.
      by rewrite (split_tokens_lines _ _ Hne Hlines Hlex).
    - rewrite (rehighlight_clean lex s Hd). attrs. auto. }
  destruct Hstep as (Hl & Hd' & Hr & Hls).
  split; [done|]. split; [done|].
  split; [by rewrite Hls, <- Hl, length_map|].
  split; [by rewrite Hls|]. split; [done|].
  split; [apply rehighlight_clean|].
  split.
  - intros t. by rewrite !rehighlight_dirty.
  - intros Hd. by rewrite !rehighlight_dirty.
Qed.

Lemma rehighlight_one_list_per_line_witness :
  _lines two_sum <> [] /\ Forall is_line (_lines two_sum) /\
  cache_ok two_sum /\
  length (_highlighted (exec (_rehighlight text_lexer) two_sum))
  = length (_lines (exec (_rehighlight text_lexer) two_sum)).
Proof.
  assert (Hne : _lines two_sum <> []) by discriminate.
  assert (Hl : Forall is_line (_lines two_sum)).
  { repeat constructor. }
  assert (Hc : cache_ok two_sum) by (intros Hd; discriminate Hd).
  split; [exact Hne|]. split; [exact Hl|]. split; [exact Hc|].
  apply (rehighlight_one_list_per_line text_lexer two_sum Hne Hl eq_refl Hc).
Defined.

(** Claim C4, as the code has it. The columns left for the code are the
    width less the gutter. From non-negative cursor and scroll offsets, for
    every height of at least 1 and every width that leaves at least one code
    column, after [render] both scroll offsets are non-negative, the cursor
    row lies in [[scroll_row, scroll_row + height)] and the cursor column in
    [[scroll_col, scroll_col + code_width)], hence below
    [scroll_col + width]. *)
Theorem render_keeps_cursor_in_view
  (lex : string -> Py.str -> list (token_type * Py.str)) (s : CodeEditor)
  (x y width height : Z)
  (Hrow : 0 <= _cursor_row s) (Hcol : 0 <= _cursor_col s)
  (Hsrow : 0 <= _scroll_row s) (Hscol : 0 <= _scroll_col s)
  (Hheight : 1 <= height) (Hwidth : gutter_of s < width) :
  let s' := exec (render lex x y width height) s in
  returned (render lex x y width height) s = Ok tt /\
  cursor s' = cursor s /\
  0 <= _scroll_row s' /\
  _scroll_row s' <= _cursor_row s' < _scroll_row s' + height /\
  0 <= _scroll_col s' /\
  _scroll_col s' <= _cursor_col s'
    < _scroll_col s' + (width - _gutter_width s') /\
  _cursor_col s' < _scroll_col s' + width.
Proof.
  intros s'.
  destruct (render_run lex s x y width height)
    as (Hr & _ & Hc & Hg & Hsr & Hsc & _).
  fold s' in Hc, Hg, Hsr, Hsc.
  pose proof (viewport_bounds s width height Hrow Hcol Hsrow Hscol
                Hheight Hwidth) as Hb.
  assert (Hrow' : _cursor_row s' = _cursor_row s) by (by injection Hc).
  assert (Hcol' : _cursor_col s' = _cursor_col s) by (by injection Hc).
  rewrite Hrow', Hcol', Hg, Hsr, Hsc.
  assert (4 <= gutter_of s) by (unfold gutter_of; lia).
  repeat split; try done; lia.
Qed.

Lemma render_keeps_cursor_in_view_witness :
  gutter_of two_sum < 80 /\
  let s' := exec (render text_lexer 0 4 80 24) two_sum in
  _scroll_col s' <= _cursor_col s'
    < _scroll_col s' + (80 - _gutter_width s').
Proof.
  split; [reflexivity|].
  apply (render_keeps_cursor_in_view text_lexer two_sum 0 4 80 24);
    first [ reflexivity | discriminate ].
Defined.

(** Claim C4 as stated fails for a width that leaves no code column: with
    width 4 the gutter takes all four columns, and [render] sets the column
    offset one past the cursor. *)
Lemma render_narrow_hides_cursor :
  let s' := exec (render text_lexer 0 0 4 1) (init "python") in
  ~ (_scroll_row s' <= _cursor_row s' < _scroll_row s' + 1 /\
     _scroll_col s' <= _cursor_col s' < _scroll_col s' + 4 /\
     0 <= _scroll_row s' /\ 0 <= _scroll_col s').
Proof. intros s' (_ & [H _] & _). vm_compute in H. by apply H. Qed.

(** Claim C10. Every key that only moves the cursor, and each of the
    movement methods, leaves the lines, [get_text], the undo stack, the redo
    stack and the highlight-dirty flag as they were (and with them the cache,
    the scroll offsets, the language and the gutter width), whether it
    returns or raises: only the cursor, the anchor and the render-dirty flag
    can differ. *)
Theorem movement_keeps_buffer (s : CodeEditor) (k : Keystroke)
  (Hk : is_movement_key k = true) :
  frame (exec (handle_key k) s) = frame s /\
  Forall (fun m : M unit => frame (exec m s) = frame s)
    [_move_up; _move_down; _move_left; _move_right; _move_word_left;
     _move_word_right; _page_up; _page_down].
Proof.
  split.
  - apply (inv_exec (fun t => frame t = frame s));
      [by apply handle_key_frame | done].
  - repeat constructor;
      (apply (inv_exec (fun t => frame t = frame s));
       [auto with frame_db | done]).
Qed.

Lemma movement_keeps_buffer_witness :
  is_movement_key (named "kRIT6") = true /\
  frame (exec (handle_key (named "kRIT6")) two_sum) = frame two_sum.
Proof.
  split; [reflexivity|].
  apply (proj1 (movement_keeps_buffer two_sum (named "kRIT6") eq_refl)).
Defined.

(** ** Tasks that end after their screen was popped *)

Lemma getitem_last {A} (l : list A) x : Py.getitem (l ++ [x]) (-1) = Some x.
Proof.
  pose proof (pop_last l x) as H. unfold Py.pop in H.
  destruct (Py.getitem (l ++ [x]) (-1)); [|done]. by injection H as ->.
Qed.

(** What is on display depends on the stack, the screens on it, the
    running flag and the notification only. *)
Lemma visible_eq a b :
  App._screen_stack b = App._screen_stack a ->
  App._running b = App._running a ->
  App._notification b = App._notification a ->
  same_screens a b ->
  App.visible b = App.visible a.
Proof.
  intros Hs Hr Hn Hh. unfold App.visible. rewrite Hs, Hr, Hn.
  do 2 f_equal. apply map_ext_in. intros id Hid. f_equal.
  apply Hh. by apply list_elem_of_In.
Qed.

(** *** [on_enter] and [notify] *)

Lemma on_enter_spec id a :
  App._screen_stack (App.on_enter id a) = App._screen_stack a /\
  App._running (App.on_enter id a) = App._running a /\
  App._notification (App.on_enter id a) = App._notification a /\
  App.tasks (App.on_enter id a)
  = App.tasks a ++ from_option (fun o => entering_tasks o id) []
                     (App.heap a !! id) /\
  (forall id', id' <> id ->
     App.heap (App.on_enter id a) !! id' = App.heap a !! id') /\
  (forall o, App.heap (App.on_enter id a) !! id = Some o ->
     App.dirty (App.base o) = true).
Proof.
  unfold App.on_enter.
  destruct (App.heap a !! id) as [o|] eqn:Ho.
  - assert (Hne : forall f id',
              id' <> id -> alter f id (App.heap a) !! id' = App.heap a !! id').
    { intros f id' Hid. by apply lookup_alter_ne. }
    destruct o as [b|b [|] l|b [|] l|b|b]; cbn;
      rewrite ?app_nil_r; split_and!; try done;
      try (intros id' Hid; rewrite ?lookup_alter_ne by done; done);
      intros o; rewrite ?lookup_alter_eq, Ho; cbn; by intros [= <-].
  - cbn. rewrite app_nil_r. split_and!; try done.
    intros o. by rewrite Ho.
Qed.

Lemma notify_spec msg a :
  App._screen_stack (App.notify msg a) = App._screen_stack a /\
  App._running (App.notify msg a) = App._running a /\
  App._notification (App.notify msg a) = msg /\
  App.tasks (App.notify msg a) = App.tasks a /\
  (forall id, App.current_screen a <> Some id ->
     App.heap (App.notify msg a) !! id = App.heap a !! id) /\
  (forall id, App.current_screen a = Some id ->
     App.heap (App.notify msg a) !! id
     = App.with_base App.invalidate <$> App.heap a !! id).
Proof.
  unfold App.notify.
  change (App.current_screen (App.set_notification msg a))
    with (App.current_screen a).
  destruct (App.current_screen a) as [top|]; cbn.
  - split_and!; try done.
    + intros id Hid. apply lookup_alter_ne. congruence.
    + intros id [= ->]. apply lookup_alter_eq.
  - split_and!; done.
Qed.

Lemma notify_stack msg a :
  App._screen_stack (App.notify msg a) = App._screen_stack a.
Proof. apply notify_spec. Qed.

Lemma notify_tasks msg a : App.tasks (App.notify msg a) = App.tasks a.
Proof. apply notify_spec. Qed.

Lemma invalidate_dirty ob :
  App.dirty (App.base (App.with_base App.invalidate ob)) = true.
Proof. by destruct ob. Qed.

(** Assignments to the attributes of a screen that is not on the stack
    change nothing on display. *)
Lemma visible_popped f o a :
  o ∉ App._screen_stack a ->
  App.visible (App.on_object o f a) = App.visible a.
Proof.
  intros Ho. apply visible_eq; try done.
  intros id Hid. apply lookup_alter_ne. by intros ->.
Qed.

(** A notification shows the same on two applications that agree on what
    is on display. *)
Lemma notify_visible msg a b :
  App._screen_stack b = App._screen_stack a ->
  App._running b = App._running a ->
  same_screens a b ->
  App.visible (App.notify msg b) = App.visible (App.notify msg a).
Proof.
  intros Hs Hr Hh.
  destruct (notify_spec msg a) as (Ha1 & Ha2 & Ha3 & _ & Ha5 & Ha6).
  destruct (notify_spec msg b) as (Hb1 & Hb2 & Hb3 & _ & Hb5 & Hb6).
  assert (Hc : App.current_screen b = App.current_screen a).
  { unfold App.current_screen. by rewrite Hs. }
  apply visible_eq; [congruence..|].
  intros id Hid. rewrite Ha1 in Hid.
  destruct (decide (App.current_screen a = Some id)) as [Hid'|Hid'].
  - rewrite Ha6, Hb6 by congruence. by rewrite Hh.
  - rewrite Ha5, Hb5 by congruence. by apply Hh.
Qed.

Lemma notify_popped msg f o a :
  o ∉ App._screen_stack a ->
  App.visible (App.notify msg (App.on_object o f a))
  = App.visible (App.notify msg a).
Proof.
  intros Ho. apply notify_visible; try done.
  intros id Hid. apply lookup_alter_ne. by intros ->.
Qed.

(** Claim C9, as the code has it. A task of a screen never looks at the
    stack when the call it waits for ends, so it does the same whether or
    not its screen [o] is still on the stack. With [o] popped:
    - the wrapper of [run_async], and a fetch of the problems or of the
      detail that succeeds, assign attributes of the popped screen, which
      is marked dirty, and nothing on display changes;
    - the task of a test or a submission whose call succeeds pushes its
      result screen, which becomes the active screen;
    - a task whose call fails shows a notification, as [notify] does on the
      screens that are on the stack, and leaves the stack as it is; after an
      [AuthenticationError] it also makes the task that logs in again. *)
Theorem stale_task_runs_unchecked (a : App.LeetCodeApp) (i : nat)
  (t : App.Task) (o : nat) (ans : App.Answer) (new : nat)
  (Ht : App.tasks a !! i = Some t) (Ho : App.owner t = Some o)
  (Hpopped : o ∉ App._screen_stack a) :
  let a' := App.finish_task i ans new a in
  match t, ans with
  | App.Relogin, _ => True
  | App.Wrapper _, _
  | App.FetchProblems _, App.Returned _
  | App.FetchDetail _, App.Returned _ =>
      App.visible a' = App.visible a /\
      App.tasks a' = delete i (App.tasks a) /\
      (forall ob, App.heap a !! o = Some ob ->
         exists ob', App.heap a' !! o = Some ob' /\
                     App.dirty (App.base ob') = true)
  | App.RunResult _ _, App.Returned _ =>
      App._screen_stack a' = App._screen_stack a ++ [new] /\
      App.current_screen a' = Some new /\
      App.visible a' <> App.visible a /\
      App.tasks a' = delete i (App.tasks a)
  | _, App.AuthenticationError =>
      App.visible a'
      = App.visible (App.notify "Session expired. Please log in again." a) /\
      App.tasks a' = delete i (App.tasks a) ++ [App.Relogin]
  | _, App.ReturnedThenRaised e | _, App.OtherError e =>
      App.visible a' = App.visible (App.notify (App.error_message t e) a) /\
      App.tasks a' = delete i (App.tasks a)
  end.
Proof.
  intros a'. subst a'. unfold App.finish_task. rewrite Ht.
  set (a0 := App.set_tasks (delete i (App.tasks a)) a).
  assert (Hp0 : o ∉ App._screen_stack a0) by done.
  assert (Hdirty : forall (b : App.LeetCodeApp) ob,
            App.heap b !! o = Some ob ->
            exists ob',
              App.heap (App.on_screen o App.invalidate b) !! o = Some ob' /\
              App.dirty (App.base ob') = true).
  { intros b ob Hob. exists (App.with_base App.invalidate ob).
    cbn. rewrite lookup_alter_eq, Hob. split; [done|apply invalidate_dirty]. }
  destruct t as [o'|o'|o'|k o'|]; simplify_eq/=.
  - (* the wrapper *)
    destruct ans;
      (split_and!; [unfold App.on_screen; by rewrite visible_popped|done|]);
      intros ob Hob; exact (Hdirty a0 ob Hob).
  - (* the fetch of the problems *)
    destruct ans as [d|e| |e]; unfold App.fetch_failed,
      App.show_login_on_auth_error, App.on_screen.
    + split_and!; [by rewrite !visible_popped|done|].
      intros ob Hob. eexists. cbn. rewrite !lookup_alter_eq, Hob. cbn.
      split; [reflexivity|apply invalidate_dirty].
    + split; [|cbn; by rewrite notify_tasks].
      rewrite visible_popped by by rewrite notify_stack.
      rewrite notify_popped by done. by apply notify_visible.
    + split; [|cbn; by rewrite notify_tasks].
      change (App.visible (App.create_task ?t ?b)) with (App.visible b).
      rewrite notify_popped by done. by apply notify_visible.
    + split; [|cbn; by rewrite notify_tasks].
      rewrite visible_popped by by rewrite notify_stack.
      rewrite notify_popped by done. by apply notify_visible.
  - (* the fetch of the detail *)
    destruct ans as [d|e| |e]; unfold App.fetch_failed,
      App.show_login_on_auth_error, App.on_screen.
    + split_and!; [by rewrite !visible_popped|done|].
      intros ob Hob. eexists. cbn. rewrite !lookup_alter_eq, Hob. cbn.
      split; [reflexivity|apply invalidate_dirty].
    + split; [|cbn; by rewrite notify_tasks].
      rewrite visible_popped by by rewrite notify_stack.
      rewrite !notify_popped by done. by apply notify_visible.
    + split; [|cbn; by rewrite notify_tasks].
      change (App.visible (App.create_task ?t ?b)) with (App.visible b).
      rewrite notify_popped by done. by apply notify_visible.
    + split; [|cbn; by rewrite notify_tasks].
      rewrite visible_popped by by rewrite notify_stack.
      rewrite notify_popped by done. by apply notify_visible.
  - (* the task of a test or a submission *)
    destruct ans as [d|e| |e]; unfold App.show_login_on_auth_error,
      App.on_screen.
    + unfold App.push_screen, Py.append.
      set (b := App.set_screen_stack _ _).
      destruct (on_enter_spec new b) as (Hs & _ & _ & Hts & _).
      assert (Hb : App.heap b !! new
                   = Some (match k with
                           | App.Test => App.TestResultScreen App.new_screen
                           | App.Submit =>
                               App.SubmissionResultScreen App.new_screen
                           end)).
      { subst b. cbn. apply lookup_insert_eq. }
      rewrite Hb in Hts.
      split_and!.
      * by rewrite Hs.
      * unfold App.current_screen. rewrite Hs. subst b. cbn.
        by rewrite truthy_snoc, getitem_last.
      * intros Hv. apply (f_equal (fun v => length v.1.1)) in Hv.
        unfold App.visible in Hv. cbn [fst] in Hv. rewrite Hs in Hv.
        subst b. cbn in Hv. rewrite !length_map, length_app in Hv.
        simpl in Hv. lia.
      * rewrite Hts. destruct k; cbn; by rewrite app_nil_r.
    + split; [|cbn; by rewrite notify_tasks].
      rewrite visible_popped by by rewrite notify_stack.
      by apply notify_visible.
    + split; [|cbn; by rewrite notify_tasks].
      change (App.visible (App.create_task ?t ?b)) with (App.visible b).
      by apply notify_visible.
    + split; [|cbn; by rewrite notify_tasks].
      rewrite visible_popped by by rewrite notify_stack.
      by apply notify_visible.
Qed.

Lemma stale_task_runs_unchecked_witness :
  let a := App.pop_screen
             (App.create_task (App.RunResult App.Test 1) App.list_detail) in
  App.tasks a !! 0%nat = Some (App.RunResult App.Test 1) /\
  (1%nat ∉ App._screen_stack a) /\
  App._screen_stack (App.finish_task 0 (App.Returned true) 2 a)
  = App._screen_stack a ++ [2%nat].
Proof.
  intros a.
  assert (Ht : App.tasks a !! 0%nat = Some (App.RunResult App.Test 1))
    by (vm_compute; reflexivity).
  assert (Hp : 1%nat ∉ App._screen_stack a).
  { replace (App._screen_stack a) with [0%nat] by (vm_compute; reflexivity).
    intros H. apply list_elem_of_singleton in H. discriminate. }
  split; [exact Ht|]. split; [exact Hp|].
  exact (proj1 (stale_task_runs_unchecked a 0 (App.RunResult App.Test 1) 1
                  (App.Returned true) 2 Ht eq_refl Hp)).
Defined.

(** Claim C9 as stated fails. Screen 1 launches a task and is popped, so
    screen 0 is active. The wrapper of [run_async] then still sets the dirty
    flag of screen 1: no check, not a no-op. The task of a test still pushes
    its result screen onto the stack: what is on display changes. *)
Lemma stale_task_is_not_a_no_op :
  let popped := App.pop_screen (App.run_async 1 App.list_detail) in
  let popped' :=
    App.pop_screen
      (App.create_task (App.RunResult App.Test 1) App.list_detail) in
  (App.current_screen popped = Some 0%nat /\
   App.tasks popped = [App.Wrapper 1] /\
   App.heap popped !! 1%nat
   = Some (App.ProblemDetailScreen App.rendered_screen true false) /\
   App.heap (App.finish_task 0 (App.Returned true) 2 popped) !! 1%nat
   <> App.heap popped !! 1%nat) /\
  (App.current_screen popped' = Some 0%nat /\
   App.tasks popped' = [App.RunResult App.Test 1] /\
   App._screen_stack (App.finish_task 0 (App.Returned true) 2 popped')
   = [0%nat; 2%nat] /\
   App.visible (App.finish_task 0 (App.Returned true) 2 popped')
   <> App.visible popped').
Proof.
  repeat split; try (vm_compute; reflexivity).
  - intros H. vm_compute in H. discriminate.
  - intros H. apply (f_equal (fun v => length v.1.1)) in H. vm_compute in H.
    discriminate.
Qed.

(** ** The loop bounds are enough *)

(** A loop that has left with the given fuel leaves at the same column with
    any more fuel, provided the condition is false where the fuel ends. *)
Lemma col_loop_more cond step : forall fuel extra col,
  (forall c, col_loop fuel cond step col = Some c ->
             cond c = Some false) ->
  col_loop (fuel + extra) cond step col = col_loop fuel cond step col.
Proof.
  induction fuel as [|fuel IH]; intros extra col Hend; simpl in *.
  - destruct extra; [done|]. simpl. by rewrite (Hend col eq_refl).
  - destruct (cond col) as [[|]|]; [|done..]. by apply IH.
Qed.

Lemma col_loop_right_end cond (line : Py.str) : forall fuel col c,
  (forall c, Py.len line <= c -> cond c = Some false) ->
  Z.to_nat (Py.len line - col) = fuel ->
  col_loop fuel cond 1 col = Some c -> cond c = Some false.
Proof.
  induction fuel as [|fuel IH]; intros col c Hcond Hf; simpl.
  - intros [= <-]. apply Hcond. lia.
  - destruct (cond col) as [[|]|] eqn:E; [|by intros [= <-]|done].
    apply IH; [done|lia].
Qed.

Lemma col_loop_left_end cond : forall fuel col c,
  (forall c, c <= 0 -> cond c = Some false) ->
  Z.to_nat col = fuel ->
  col_loop fuel cond (-1) col = Some c -> cond c = Some false.
Proof.
  induction fuel as [|fuel IH]; intros col c Hcond Hf; simpl.
  - intros [= <-]. apply Hcond. lia.
  - destruct (cond col) as [[|]|] eqn:E; [|by intros [= <-]|done].
    apply IH; [done|lia].
Qed.

Lemma cond_right_word_end line c :
  Py.len line <= c -> cond_right_word line c = Some false.
Proof. intros. unfold cond_right_word. by destruct (Z.ltb_spec c (Py.len line)); [lia|]. Qed.
Lemma cond_right_other_end line c :
  Py.len line <= c -> cond_right_other line c = Some false.
Proof. intros. unfold cond_right_other. by destruct (Z.ltb_spec c (Py.len line)); [lia|]. Qed.
Lemma cond_left_other_end line c : c <= 0 -> cond_left_other line c = Some false.
Proof. intros. unfold cond_left_other. rewrite Z.gtb_ltb. by destruct (Z.ltb_spec 0 c); [lia|]. Qed.
Lemma cond_left_word_end line c : c <= 0 -> cond_left_word line c = Some false.
Proof. intros. unfold cond_left_word. rewrite Z.gtb_ltb. by destruct (Z.ltb_spec 0 c); [lia|]. Qed.

(** The loops of the word movements with any larger bound: the bound the
    model takes is the number of rounds the loop can make at most. *)
Lemma word_loops_bounded line col extra :
  col_loop (Z.to_nat (Py.len line - col) + extra) (cond_right_word line) 1 col
  = col_loop (Z.to_nat (Py.len line - col)) (cond_right_word line) 1 col /\
  col_loop (Z.to_nat (Py.len line - col) + extra) (cond_right_other line) 1 col
  = col_loop (Z.to_nat (Py.len line - col)) (cond_right_other line) 1 col /\
  col_loop (Z.to_nat col + extra) (cond_left_other line) (-1) col
  = col_loop (Z.to_nat col) (cond_left_other line) (-1) col /\
  col_loop (Z.to_nat col + extra) (cond_left_word line) (-1) col
  = col_loop (Z.to_nat col) (cond_left_word line) (-1) col.
Proof.
  repeat split; apply col_loop_more; intros c.
  - apply (col_loop_right_end _ line); [apply cond_right_word_end | done].
  - apply (col_loop_right_end _ line); [apply cond_right_other_end | done].
  - apply col_loop_left_end; [apply cond_left_other_end | done].
  - apply col_loop_left_end; [apply cond_left_word_end | done].
Qed.

(** The padding loop reaches the number of lines. *)
Lemma pad_loop_length : forall fuel n hl,
  (n - length hl <= fuel)%nat ->
  length (pad_loop fuel n hl) = Nat.max n (length hl).
Proof.
  induction fuel as [|fuel IH]; intros n hl Hf; simpl.
  - lia.
  - destruct (Nat.ltb_spec (length hl) n); [|lia].
    rewrite IH; unfold Py.append; rewrite length_app; simpl; lia.
Qed.

(** The walk of [_get_color] ends with a color of the table or at the
    root, within its bound. *)
Lemma get_color_loop_more : forall fuel extra tt,
  (length tt < fuel)%nat ->
  _get_color_loop (fuel + extra) tt = _get_color_loop fuel tt.
Proof.
  induction fuel as [|fuel IH]; intros extra tt Hf; [lia|].
  cbn [Nat.add _get_color_loop].
  destruct tt as [|n tt]; [done|]. cbn [Py.truthy].
  destruct (table_get (n :: tt) _TOKEN_COLORS); [done|].
  apply IH. unfold parent.
  assert (length (removelast (n :: tt)) = length tt); [|simpl in *; lia].
  rewrite removelast_firstn_len, length_take. simpl. lia.
Qed.

(** ** The lower invariant *)

Section PyInv.
Context {A : Type}.
Implicit Types (l : list A) (x : A) (i : Z) (P : A -> Prop).

Lemma getitem_Some l i x :
  Py.getitem l i = Some x ->
  l !! Z.to_nat (Py.index l i) = Some x /\ 0 <= Py.index l i < Py.len l.
Proof.
  unfold Py.getitem. destruct (Py.in_range l i) eqn:Hr; [|done].
  apply in_range_iff in Hr. done.
Qed.

Lemma setitem_Some l i x l' :
  Py.setitem l i x = Some l' ->
  l' = <[Z.to_nat (Py.index l i) := x]> l /\ 0 <= Py.index l i < Py.len l.
Proof.
  unfold Py.setitem. destruct (Py.in_range l i) eqn:Hr; [|done].
  apply in_range_iff in Hr. by intros [= <-].
Qed.

Lemma pop_Some l i x l' :
  Py.pop l i = Some (x, l') ->
  l' = delete (Z.to_nat (Py.index l i)) l /\
  l !! Z.to_nat (Py.index l i) = Some x /\ 0 <= Py.index l i < Py.len l.
Proof.
  unfold Py.pop. destruct (Py.getitem l i) eqn:Hg; [|done].
  apply getitem_Some in Hg. by intros [= <- <-].
Qed.

Lemma getitem_Forall P l i x : Forall P l -> Py.getitem l i = Some x -> P x.
Proof.
  intros Hl Hg. apply getitem_Some in Hg as [Hg _].
  by eapply Forall_lookup_1.
Qed.

Lemma setitem_Forall P l i x l' :
  Forall P l -> P x -> Py.setitem l i x = Some l' -> Forall P l'.
Proof.
  intros Hl Hx Hs. apply setitem_Some in Hs as [-> _]. by apply Forall_insert.
Qed.

Lemma setitem_length l i x l' :
  Py.setitem l i x = Some l' -> length l' = length l.
Proof. intros Hs. apply setitem_Some in Hs as [-> _]. apply length_insert. Qed.

Lemma pop_Forall P l i x l' :
  Forall P l -> Py.pop l i = Some (x, l') -> Forall P l' /\ P x.
Proof.
  intros Hl Hp. apply pop_Some in Hp as (-> & Hx & _). split.
  - by apply Forall_delete.
  - by eapply Forall_lookup_1.
Qed.

Lemma pop_length l i x l' :
  Py.pop l i = Some (x, l') -> length l = S (length l').
Proof.
  intros Hp. apply pop_Some in Hp as (-> & Hx & _).
  rewrite length_delete by done. apply lookup_lt_Some in Hx. lia.
Qed.

Lemma slice_to_Forall P l i : Forall P l -> Forall P (Py.slice_to l i).
Proof. apply Forall_take. Qed.
Lemma slice_from_Forall P l i : Forall P l -> Forall P (Py.slice_from l i).
Proof. apply Forall_drop. Qed.

Lemma del_slice_Forall P l i j : Forall P l -> Forall P (Py.del_slice l i j).
Proof.
  intros Hl. unfold Py.del_slice. case_match; [|done].
  apply Forall_app. split; [by apply Forall_take | by apply Forall_drop].
Qed.

Lemma del_slice_nonempty l i j :
  l <> [] -> 0 <= i -> Py.del_slice l (i + 1) j <> [].
Proof.
  intros Hl Hi. unfold Py.del_slice. case_match; [|done].
  assert (Hb : (0 < Py.bound l (i + 1))%nat).
  { unfold Py.bound, Py.len. destruct (Z.ltb_spec (i + 1) 0); [lia|].
    destruct l; [done|]. simpl. lia. }
  destruct l as [|x l]; [done|]. destruct (Py.bound (x :: l) (i + 1)); [lia|].
  done.
Qed.

Lemma insert_Forall P l i x : Forall P l -> P x -> Forall P (Py.insert l i x).
Proof.
  intros Hl Hx. unfold Py.insert. apply Forall_app. split;
    [by apply Forall_take | constructor; [done | by apply Forall_drop]].
Qed.

Lemma insert_nonempty l i x : Py.insert l i x <> [].
Proof. unfold Py.insert. by destruct (take _ l). Qed.
End PyInv.

Lemma leading_indent_is_line line : is_line (leading_indent line).
Proof.
  induction line as [|c line IH]; simpl; [constructor|].
  destruct (Ascii.eqb_spec c Py.space) as [->|];
    [by constructor|].
  destruct (Ascii.eqb_spec c Py.tab) as [->|]; simpl;
    [by constructor | constructor].
Qed.

Lemma split_nl_lines_ok t : lines_ok (Py.split_nl t).
Proof. split; [apply split_nl_nonempty | apply split_nl_is_line]. Qed.

Lemma nonempty_length {A} (l : list A) : l <> [] <-> (0 < length l)%nat.
Proof. destruct l; simpl; split; (done || lia). Qed.

(** Running a method on a given object, one case per outcome of its tests
    and of its indexings. *)
Ltac run_step :=
  first
    [ progress
        (unfold bind, gets, modify, ret, index_or_raise, lines_get, lines_set,
           lines_pop, cur_line_len; attrs)
    | rewrite save_undo_run
    | match goal with
      | |- context [match _sel_range ?s with _ => _ end] =>
          destruct (_sel_range s) as [[[? ?] [? ?]]|] eqn:?
      | |- context [match Py.getitem ?l ?i with _ => _ end] =>
          destruct (Py.getitem l i) eqn:?
      | |- context [match Py.setitem ?l ?i ?x with _ => _ end] =>
          destruct (Py.setitem l i x) eqn:?
      | |- context [match Py.pop ?l ?i with _ => _ end] =>
          destruct (Py.pop l i) as [[? ?]|] eqn:?
      | |- context [match word_left_col ?l ?i with _ => _ end] =>
          destruct (word_left_col l i) eqn:?
      | |- context [match word_right_col ?l ?i with _ => _ end] =>
          destruct (word_right_col l i) eqn:?
      | |- context [if ?b then _ else _] => destruct b eqn:?
      end ].

Ltac run := repeat run_step.

(** A line built from lines of the buffer is a line. *)
Ltac line_solve :=
  unfold is_line in *;
  repeat first
    [ assumption
    | apply Forall_app_2
    | apply Forall_take
    | apply Forall_drop
    | apply leading_indent_is_line
    | apply slice_to_Forall
    | apply slice_from_Forall ].

(** What the indexings that succeeded say about the lists. *)
Ltac list_facts :=
  repeat match goal with
  | H : Py.getitem ?l ?i = Some ?x, HF : Forall is_line ?l |- _ =>
      lazymatch goal with
      | _ : is_line x |- _ => fail
      | _ => assert (is_line x) by exact (getitem_Forall _ _ _ _ HF H);
             pose proof (proj2 (getitem_Some _ _ _ H))
      end
  | H : Py.setitem ?l ?i ?x = Some ?l', HF : Forall is_line ?l |- _ =>
      lazymatch goal with
      | _ : Forall is_line l' |- _ => fail
      | _ =>
          assert (Forall is_line l')
            by (apply (setitem_Forall is_line l i x l' HF); [line_solve | exact H]);
          pose proof (setitem_length _ _ _ _ H)
      end
  | H : Py.pop ?l ?i = Some (?x, ?l'), HF : Forall is_line ?l |- _ =>
      lazymatch goal with
      | _ : Forall is_line l' |- _ => fail
      | _ =>
          pose proof (proj1 (pop_Forall _ _ _ _ _ HF H));
          pose proof (pop_length _ _ _ _ H)
      end
  end.

(** The ends of a selection are the cursor and the anchor. *)
Lemma sel_range_nonneg s r :
  _sel_range s = Some r ->
  pos_nonneg (cursor s) ->
  (forall a, _sel_anchor s = Some a -> pos_nonneg a) ->
  pos_nonneg r.1 /\ pos_nonneg r.2.
Proof.
  unfold _sel_range. intros Hsel Hc Ha.
  destruct (_sel_anchor s) as [a|]; [|done]. specialize (Ha a eq_refl).
  destruct (Py.pair_eqb _ _); [done|].
  destruct (Py.pair_lt _ _); by injection Hsel as <-.
Qed.

Lemma pushed_ok s :
  (0 < length (_lines s))%nat -> Forall is_line (_lines s) ->
  0 <= _cursor_row s -> 0 <= _cursor_col s ->
  Forall snapshot_ok (_undo_stack s) -> Forall snapshot_ok (pushed s).
Proof.
  intros Hne Hl Hr Hc Hu. unfold pushed. apply nonempty_length in Hne.
  assert (Forall snapshot_ok (_undo_stack s ++ [current_snapshot s])).
  { apply Forall_app. split; [done|]. constructor; [|constructor]. done. }
  case_match; [by apply Forall_drop | done].
Qed.

Ltac sel_facts :=
  repeat match goal with
  | H : _sel_range ?s = Some (?sr, ?sc, (?er, ?ec)) |- _ =>
      lazymatch goal with
      | _ : pos_nonneg (sr, sc) |- _ => fail
      | _ =>
          let Hs := fresh "Hs" in
          let He := fresh "He" in
          assert (pos_nonneg (sr, sc) /\ pos_nonneg (er, ec)) as [Hs He]
            by (apply (sel_range_nonneg s _ H); [split; assumption | assumption]);
          pose proof (proj1 Hs : 0 <= sr); pose proof (proj2 Hs : 0 <= sc);
          pose proof (proj1 He : 0 <= er); pose proof (proj2 He : 0 <= ec)
      end
  end.

Ltac lower_solve :=
  lazymatch goal with
  | HK : lower_invariant ?s |- _ =>
      let Hne := fresh "Hne" in
      let Hls := fresh "Hls" in
      let Hr := fresh "Hr" in
      let Hc := fresh "Hc" in
      let Ha := fresh "Ha" in
      let Hsr := fresh "Hsr" in
      let Hsc := fresh "Hsc" in
      let Hu := fresh "Hu" in
      let Hd := fresh "Hd" in
      destruct HK as ((Hne & Hls) & (Hr & Hc) & Ha & (Hsr & Hsc) & Hu & Hd);
      unfold cursor in Hr, Hc; cbn [fst snd] in Hr, Hc, Hsr, Hsc;
      apply nonempty_length in Hne;
      sel_facts; list_facts; zbool;
      unfold lower_invariant, lines_ok, pos_nonneg; attrs;
      rewrite ?nonempty_length;
      repeat match goal with
             | |- _ /\ _ => split
             end;
      try first
        [ assumption
        | apply nonempty_length, insert_nonempty
        | apply nonempty_length, del_slice_nonempty;
          [apply nonempty_length; lia | lia]
        | apply insert_Forall; line_solve
        | apply del_slice_Forall; assumption
        | apply pushed_ok; assumption
        | apply Forall_nil; done
        | lia
        | done
        | intros ? [= <-]; simpl; lia
        | apply len_nonneg
        | unfold Py.len; lia
        | rewrite ?index_nonneg in * by lia; unfold Py.len in *; lia ]
  end.


Ltac lower_run op := intros s HK; unfold op; run; lower_solve.

Lemma backspace_lower : inv lower_invariant _backspace.
Proof. lower_run _backspace. Qed.
Lemma delete_lower : inv lower_invariant _delete.
Proof. lower_run _delete. Qed.
Lemma enter_lower : inv lower_invariant _enter.
Proof. lower_run _enter. Qed.
Lemma insert_char_lower ch : is_line ch -> inv lower_invariant (_insert_char ch).
Proof. intros Hch. lower_run _insert_char. Qed.
Lemma insert_text_lower t : is_line t -> inv lower_invariant (_insert_text t).
Proof. intros Ht. lower_run _insert_text. Qed.
Lemma move_up_lower : inv lower_invariant _move_up.
Proof. lower_run _move_up. Qed.
Lemma move_down_lower : inv lower_invariant _move_down.
Proof. lower_run _move_down. Qed.
Lemma move_left_lower : inv lower_invariant _move_left.
Proof. lower_run _move_left. Qed.
Lemma move_right_lower : inv lower_invariant _move_right.
Proof. lower_run _move_right. Qed.
Lemma page_up_lower : inv lower_invariant _page_up.
Proof. lower_run _page_up. Qed.
Lemma page_down_lower : inv lower_invariant _page_down.
Proof. lower_run _page_down. Qed.
Lemma collapse_to_fst_lower : inv lower_invariant (collapse_to fst).
Proof. lower_run collapse_to. Qed.
Lemma collapse_to_snd_lower : inv lower_invariant (collapse_to snd).
Proof. lower_run collapse_to. Qed.
Lemma save_undo_lower : inv lower_invariant _save_undo.
Proof. intros s HK. rewrite save_undo_run. lower_solve. Qed.
Lemma delete_selection_lower : inv lower_invariant _delete_selection.
Proof. lower_run _delete_selection. Qed.

Lemma col_loop_right_ge cond : forall fuel col c,
  col_loop fuel cond 1 col = Some c -> col <= c.
Proof.
  induction fuel as [|fuel IH]; intros col c; simpl.
  - intros [= <-]. lia.
  - destruct (cond col) as [[|]|]; [|by intros [= <-]; lia|done].
    intros H. apply IH in H. lia.
Qed.

Lemma col_loop_left_nonneg cond : forall fuel col c,
  (forall c, cond c = Some true -> 0 < c) -> 0 <= col ->
  col_loop fuel cond (-1) col = Some c -> 0 <= c.
Proof.
  induction fuel as [|fuel IH]; intros col c Hcond Hcol; simpl.
  - by intros [= <-].
  - destruct (cond col) as [[|]|] eqn:E; [|by intros [= <-]|done].
    apply IH; [done|]. apply Hcond in E. lia.
Qed.

Lemma word_right_col_ge line col c : word_right_col line col = Some c -> col <= c.
Proof.
  unfold word_right_col.
  destruct (col_loop _ (cond_right_word line) 1 col) as [c1|] eqn:E1; [|done].
  intros E2. apply col_loop_right_ge in E1, E2. lia.
Qed.

Lemma cond_left_other_true line c : cond_left_other line c = Some true -> 0 < c.
Proof. unfold cond_left_other. rewrite Z.gtb_ltb. by destruct (Z.ltb_spec 0 c). Qed.
Lemma cond_left_word_true line c : cond_left_word line c = Some true -> 0 < c.
Proof. unfold cond_left_word. rewrite Z.gtb_ltb. by destruct (Z.ltb_spec 0 c). Qed.

Lemma word_left_col_nonneg line col c :
  0 <= col -> word_left_col line col = Some c -> 0 <= c.
Proof.
  unfold word_left_col. intros Hcol.
  destruct (col_loop _ (cond_left_other line) (-1) col) as [c1|] eqn:E1; [|done].
  intros E2.
  apply col_loop_left_nonneg in E1; [|apply cond_left_other_true|done].
  apply col_loop_left_nonneg in E2; [done|apply cond_left_word_true|done].
Qed.

Lemma move_word_left_lower : inv lower_invariant _move_word_left.
Proof.
  intros s HK. unfold _move_word_left. run.
  all: try match goal with
           | H : word_left_col _ _ = Some _ |- _ =>
               apply word_left_col_nonneg in H; [|zbool; lia]
           end.
  all: lower_solve.
Qed.

Lemma move_word_right_lower : inv lower_invariant _move_word_right.
Proof.
  intros s HK. unfold _move_word_right. run.
  all: try match goal with
           | H : word_right_col _ _ = Some _ |- _ =>
               apply word_right_col_ge in H
           end.
  all: lower_solve.
Qed.

Lemma undo_lower : inv lower_invariant _undo.
Proof.
  intros s HK. destruct (_undo_stack s) as [|e st _] eqn:Hst using rev_ind.
  - by rewrite undo_empty.
  - rewrite (undo_run _ _ _ Hst).
    destruct HK as (Hl & Hc & Ha & Hs & Hu & Hd). rewrite Hst in Hu.
    apply Forall_app in Hu as [Hu He]. inversion He as [|? ? (Hel & Her & Hec) _]; subst.
    destruct Hel as [Hel1 Hel2]. destruct Hl as [Hl1 Hl2].
    destruct Hc as [Hc1 Hc2]. destruct Hs as [Hs1 Hs2].
    unfold cursor in *. cbn [fst snd] in Hc1, Hc2, Hs1, Hs2.
    unfold lower_invariant, lines_ok, pos_nonneg. attrs.
    repeat split; try done.
    apply Forall_app. split; [done|]. constructor; [|constructor]. done.
Qed.

Lemma redo_lower : inv lower_invariant _redo.
Proof.
  intros s HK. destruct (_redo_stack s) as [|e st _] eqn:Hst using rev_ind.
  - by rewrite redo_empty.
  - rewrite (redo_run _ _ _ Hst).
    destruct HK as (Hl & Hc & Ha & Hs & Hu & Hd). rewrite Hst in Hd.
    apply Forall_app in Hd as [Hd He]. inversion He as [|? ? (Hel & Her & Hec) _]; subst.
    destruct Hel as [Hel1 Hel2]. destruct Hl as [Hl1 Hl2].
    destruct Hc as [Hc1 Hc2]. destruct Hs as [Hs1 Hs2].
    unfold cursor in *. cbn [fst snd] in Hc1, Hc2, Hs1, Hs2.
    unfold lower_invariant, lines_ok, pos_nonneg. attrs.
    repeat split; try done.
    apply Forall_app. split; [done|]. constructor; [|constructor]. done.
Qed.

Lemma set_text_lower t : inv lower_invariant (set_text t).
Proof.
  intros s _. unfold set_text. run; unfold lower_invariant, pos_nonneg; attrs;
    (split; [|by repeat split]).
  - apply split_nl_lines_ok.
  - split; [done|]. by repeat constructor.
Qed.

Lemma set_language_lower l : inv lower_invariant (set_language l).
Proof. lower_run set_language. Qed.

Lemma render_lower lex x y w h : inv lower_invariant (render lex x y w h).
Proof.
  intros s HK. unfold render, bind at 1.
  destruct (rehighlight_run lex s) as (hl & d & -> & _).
  run; lower_solve.
Qed.

Create HintDb lower_db.
#[local] Hint Resolve backspace_lower delete_lower enter_lower insert_char_lower
  insert_text_lower move_up_lower move_down_lower move_left_lower
  move_right_lower page_up_lower page_down_lower collapse_to_fst_lower
  collapse_to_snd_lower save_undo_lower delete_selection_lower
  move_word_left_lower move_word_right_lower undo_lower redo_lower : lower_db.

Lemma cur_line_len_lower : inv lower_invariant cur_line_len.
Proof. unfold cur_line_len, lines_get. inv_auto. Qed.
#[local] Hint Resolve cur_line_len_lower : lower_db.

(** The end-of-line jump of the Home and End branches. *)
Lemma goto_line_end_lower {A} (k : M A) :
  inv lower_invariant k ->
  inv lower_invariant (n <- cur_line_len ;; modify (set_cursor_col n) ;; k).
Proof.
  intros Hk. eapply hoare_bind with (Q := fun n s => lower_invariant s /\ 0 <= n).
  { intros s HK. unfold cur_line_len. run; [split|]; lower_solve. }
  intros n. eapply hoare_bind with (Q := fun _ s => lower_invariant s).
  { intros s [HK Hn]. unfold modify. lower_solve. }
  intros ?. apply Hk.
Qed.

Ltac lower_step :=
  lazymatch goal with
  | |- inv _ (bind cur_line_len _) => apply goto_line_end_lower
  | |- inv _ (bind _ _) => apply inv_bind; [| intros ?]
  | |- inv _ (ret _) => apply inv_ret
  | |- inv _ (gets _) => apply inv_gets
  | |- inv _ (modify _) => apply inv_modify; intros ? ?; lower_solve
  | |- inv _ (if ?b then _ else _) => destruct b eqn:?
  | |- inv _ (match ?x with _ => _ end) => destruct x eqn:?
  | |- inv _ _ => solve [ auto with lower_db ]
  end.

Lemma handle_key_lower k : key_ok k -> inv lower_invariant (handle_key k).
Proof.
  intros Hk. unfold key_ok in Hk.
  assert (is_line (Py.of_string "    ")) by (by repeat constructor).
  destruct (inserts_text k) eqn:Hins.
  - specialize (Hk eq_refl). unfold handle_key. repeat lower_step.
  - clear Hk. unfold handle_key. repeat lower_step.
    exfalso.
    unfold inserts_text, is_movement_key, is_history_key in Hins.
    match goal with
    | H : name_in k selection_keys = false |- _ => rewrite H in Hins
    end.
    unfold name_in, movement_names, editing_names in Hins. simpl in Hins.
    repeat match goal with
           | H : _ || _ = false |- _ => apply orb_false_elim in H as [? ?]
           end.
    revert Hins.
    repeat match goal with
           | H : _ = false |- _ => rewrite H; clear H
           | H : _ = true |- _ => rewrite H; clear H
           end.
    done.
Qed.

Lemma do_calls_lower lex cs s :
  Forall call_ok cs -> lower_invariant s -> lower_invariant (do_calls lex cs s).
Proof.
  intros Hcs. revert s. induction Hcs as [|c cs Hc _ IH]; intros s Hs; [done|].
  apply IH. destruct c; simpl; apply inv_exec;
    auto using handle_key_lower, set_text_lower, set_language_lower,
      render_lower.
Qed.

Lemma init_lower lang : lower_invariant (init lang).
Proof.
  unfold lower_invariant, lines_ok, pos_nonneg. simpl.
  repeat split; try done. by repeat constructor.
Qed.

(** After every sequence of calls on a new editor, with keys that insert
    no line break: the buffer has at least one line, its lines hold no line
    break, and the cursor and the scroll offsets are not negative. *)
Lemma reachable_lower lex lang cs :
  Forall call_ok cs -> lower_invariant (do_calls lex cs (init lang)).
Proof. intros. by apply do_calls_lower, init_lower. Qed.

(** ** The cache stays in step with the buffer *)

(** A line that was read can be popped after an assignment to a line:
    the assignment keeps the length of the list. *)
Lemma pop_after_setitem {A} (l l1 : list A) i x j v :
  Py.getitem l i = Some x -> Py.setitem l j v = Some l1 ->
  Py.pop l1 i <> None.
Proof.
  intros Hg Hs. apply setitem_length in Hs.
  unfold Py.pop, Py.getitem, Py.in_range, Py.index, Py.len in *.
  rewrite Hs. destruct (_ && _) eqn:E; [|done].
  destruct (l1 !! _) eqn:El; [done|].
  apply lookup_ge_None in El. apply lookup_lt_Some in Hg. lia.
Qed.

Ltac infeasible :=
  match goal with
  | Hp : Py.pop ?l1 ?i = None, Hg : Py.getitem ?l ?i = Some _,
    Hs : Py.setitem ?l _ _ = Some ?l1 |- _ =>
      exact (pop_after_setitem _ _ _ _ _ _ Hg Hs Hp)
  end.

Ltac cache_run op :=
  intros s HJ; unfold op; run; unfold cache_ok; attrs;
  first [ done | exact HJ | exfalso; infeasible ].

Lemma backspace_cache : inv cache_ok _backspace.
Proof. cache_run _backspace. Qed.
Lemma delete_cache : inv cache_ok _delete.
Proof. cache_run _delete. Qed.
Lemma enter_cache : inv cache_ok _enter.
Proof. cache_run _enter. Qed.
Lemma insert_char_cache ch : inv cache_ok (_insert_char ch).
Proof. cache_run _insert_char. Qed.
Lemma insert_text_cache t : inv cache_ok (_insert_text t).
Proof. cache_run _insert_text. Qed.
Lemma delete_selection_cache : inv cache_ok _delete_selection.
Proof. cache_run _delete_selection. Qed.
Lemma save_undo_cache : inv cache_ok _save_undo.
Proof. intros s HJ. rewrite save_undo_run. exact HJ. Qed.
Lemma undo_cache : inv cache_ok _undo.
Proof.
  intros s HJ. destruct (_undo_stack s) as [|e st _] eqn:Hst using rev_ind.
  - by rewrite undo_empty.
  - by rewrite (undo_run _ _ _ Hst).
Qed.
Lemma redo_cache : inv cache_ok _redo.
Proof.
  intros s HJ. destruct (_redo_stack s) as [|e st _] eqn:Hst using rev_ind.
  - by rewrite redo_empty.
  - by rewrite (redo_run _ _ _ Hst).
Qed.

Create HintDb cache_db.
#[local] Hint Resolve backspace_cache delete_cache enter_cache insert_char_cache
  insert_text_cache delete_selection_cache save_undo_cache undo_cache
  redo_cache : cache_db.

Ltac unfold_moves :=
  unfold _move_up, _move_down, _move_left, _move_right, _move_word_left,
    _move_word_right, _page_up, _page_down, collapse_to, cur_line_len,
    lines_get.

Lemma handle_key_cache k : inv cache_ok (handle_key k).
Proof.
  unfold handle_key. unfold_moves.
  repeat first [ inv_step | solve [ auto with cache_db ] ].
Qed.

Lemma set_text_cache t : inv cache_ok (set_text t).
Proof. cache_run set_text. Qed.
Lemma set_language_cache l : inv cache_ok (set_language l).
Proof. cache_run set_language. Qed.

Lemma rehighlight_cache lex :
  lexer_spells lex ->
  inv (fun s => lower_invariant s /\ cache_ok s) (_rehighlight lex).
Proof.
  intros Hlex s [HK HJ]. destruct (_highlight_dirty s) eqn:Hd.
  - rewrite rehighlight_dirty by done. split; [lower_solve|].
    intros _. attrs. destruct HK as ([Hne Hls] & _).
    by apply split_tokens_lines.
  - by rewrite rehighlight_clean.
Qed.

Lemma render_cache lex x y w h :
  lexer_spells lex ->
  inv (fun s => lower_invariant s /\ cache_ok s) (render lex x y w h).
Proof.
  intros Hlex. unfold render.
  apply inv_bind; [by apply rehighlight_cache|]. intros ?.
  intros s [HK HJ]. run; (split; [lower_solve | exact HJ]).
Qed.

(** After every sequence of calls on a new editor, the cache that is not
    dirty has one list per line, spelling the line. *)
Lemma reachable_cache lex lang cs :
  lexer_spells lex -> Forall call_ok cs ->
  let s := do_calls lex cs (init lang) in
  lower_invariant s /\ cache_ok s.
Proof.
  intros Hlex Hcs.
  assert (H0 : lower_invariant (init lang) /\ cache_ok (init lang)).
  { split; [apply init_lower | done]. }
  revert H0. generalize (init lang).
  induction Hcs as [|c cs Hc _ IH]; intros s Hs; [done|].
  apply IH. destruct c; simpl.
  - destruct Hs. split; apply inv_exec;
      auto using handle_key_lower, handle_key_cache.
  - destruct Hs. split; apply inv_exec;
      auto using set_text_lower, set_text_cache.
  - destruct Hs. split; apply inv_exec;
      auto using set_language_lower, set_language_cache.
  - apply (inv_exec (fun s => lower_invariant s /\ cache_ok s));
      [by apply render_cache | done].
Qed.

(** ** The buffer invariant where no anchor is left behind *)

Lemma valid_pos_intro (ls : list Py.str) r c :
  0 <= r < Py.len ls -> 0 <= c ->
  (forall line, ls !! Z.to_nat r = Some line -> c <= Py.len line) ->
  valid_pos ls (r, c).
Proof.
  intros Hr Hc Hline. unfold valid_pos. simpl.
  destruct (lookup_lt_is_Some_2 ls (Z.to_nat r)) as [line Hl];
    [unfold Py.len in Hr; lia|].
  split; [lia|]. split; [done|]. exists line. split; [done|]. by apply Hline.
Qed.

Lemma valid_pos_elim (ls : list Py.str) r c :
  valid_pos ls (r, c) ->
  0 <= r < Py.len ls /\ 0 <= c /\
  exists line, ls !! Z.to_nat r = Some line /\
               Py.getitem ls r = Some line /\ c <= Py.len line.
Proof.
  intros (Hr & Hc & line & Hl & Hlen). simpl in *.
  pose proof (lookup_len _ _ _ Hr Hl).
  repeat split; try done. exists line.
  split; [done|]. split; [by apply getitem_nonneg | done].
Qed.

Lemma getitem_lookup {A} (l : list A) i x :
  0 <= i -> Py.getitem l i = Some x ->
  l !! Z.to_nat i = Some x /\ i < Py.len l.
Proof.
  intros Hi Hg. apply getitem_Some in Hg. rewrite index_nonneg in Hg by done.
  split; [tauto | lia].
Qed.

Lemma getitem_None {A} (l : list A) i :
  0 <= i < Py.len l -> Py.getitem l i <> None.
Proof.
  intros Hi Hg. unfold Py.getitem in Hg.
  assert (Hr : Py.in_range l i = true).
  { apply in_range_iff. rewrite index_nonneg; lia. }
  rewrite Hr, index_nonneg in Hg by lia.
  apply lookup_ge_None in Hg. unfold Py.len in Hi. lia.
Qed.

Lemma setitem_insert {A} (l l' : list A) i x :
  0 <= i -> Py.setitem l i x = Some l' ->
  l' = <[Z.to_nat i := x]> l /\ i < Py.len l.
Proof.
  intros Hi Hs. apply setitem_Some in Hs. rewrite index_nonneg in Hs by done.
  split; [tauto | lia].
Qed.

Lemma setitem_None {A} (l : list A) i x :
  0 <= i < Py.len l -> Py.setitem l i x <> None.
Proof. intros Hi. by rewrite setitem_nonneg. Qed.

Lemma pop_delete {A} (l l' : list A) i x :
  0 <= i -> Py.pop l i = Some (x, l') ->
  l' = delete (Z.to_nat i) l /\ l !! Z.to_nat i = Some x /\ i < Py.len l.
Proof.
  intros Hi Hp. apply pop_Some in Hp. rewrite index_nonneg in Hp by done.
  repeat split; first [tauto | lia].
Qed.

Lemma pop_None {A} (l : list A) i :
  0 <= i < Py.len l -> Py.pop l i <> None.
Proof.
  intros Hi Hp. unfold Py.pop in Hp.
  destruct (Py.getitem l i) eqn:Hg; [done|]. by apply getitem_None in Hg.
Qed.

Lemma length_delete_lt {A} (l : list A) i :
  (i < length l)%nat -> length (delete i l) = (length l - 1)%nat.
Proof. intros. apply length_delete. by apply lookup_lt_is_Some_2. Qed.

Lemma insert_length {A} (l : list A) i x :
  length (Py.insert l i x) = S (length l).
Proof.
  unfold Py.insert. rewrite length_app, length_cons, length_take, length_drop.
  pose proof (bound_le l i). lia.
Qed.

Lemma insert_lookup {A} (l : list A) i x :
  0 <= i <= Py.len l -> Py.insert l i x !! Z.to_nat i = Some x.
Proof.
  intros Hi. unfold Py.insert. rewrite bound_inside by done.
  rewrite lookup_app_r; rewrite length_take; unfold Py.len in Hi; [|lia].
  by replace (Z.to_nat i - Z.to_nat i `min` length l)%nat with 0%nat by lia.
Qed.

Ltac len_norm :=
  unfold Py.len in *;
  repeat first
    [ rewrite insert_length in *
    | rewrite length_app in *
    | rewrite length_take in *
    | rewrite length_drop in *
    | rewrite length_insert in *
    | rewrite length_cons in *
    | rewrite length_delete_lt in * by (len_norm; lia) ].

Ltac len_solve := len_norm; simpl in *; lia.

(** Facts from the indexings that succeeded, and the cases where an indexing
    in range is said to have failed. *)
Ltac index_facts :=
  repeat match goal with
  | H : Py.getitem ?l ?i = Some ?x |- _ =>
      let Hl := fresh "Hl" in
      let Hb := fresh "Hb" in
      apply getitem_lookup in H as [Hl Hb]; [|lia]
  | H : Py.setitem ?l ?i ?x = Some ?l' |- _ =>
      let Hb := fresh "Hb" in
      apply setitem_insert in H as [-> Hb]; [|lia]
  | H : Py.pop ?l ?i = Some (?x, ?l') |- _ =>
      let Hl := fresh "Hl" in
      let Hb := fresh "Hb" in
      apply pop_delete in H as (-> & Hl & Hb); [|lia]
  end.

Ltac no_raise :=
  exfalso;
  match goal with
  | H : Py.getitem ?l ?i = None |- _ =>
      apply getitem_None in H; [done | len_solve]
  | H : Py.setitem ?l ?i ?x = None |- _ =>
      apply setitem_None in H; [done | len_solve]
  | H : Py.pop ?l ?i = None |- _ =>
      apply pop_None in H; [done | len_solve]
  end.

(** The cursor of a valid buffer, unpacked. *)
Ltac open_valid HW :=
  let HW' := fresh "Hvalid" in
  pose proof HW as HW';
  let Hb := fresh "Hbuf" in
  let Hu := fresh "Hundo" in
  let Hd := fresh "Hredo" in
  destruct HW as (Hb & Hu & Hd);
  let Hrow := fresh "Hrow" in
  let Hcol := fresh "Hcol" in
  let line := fresh "line" in
  let Hline := fresh "Hline" in
  let Hget := fresh "Hget" in
  let Hlen := fresh "Hlen" in
  apply valid_pos_elim in Hb as (Hrow & Hcol & line & Hline & Hget & Hlen).


(** The line at the new cursor row, from the lines that were read. *)
Ltac line_at Hl :=
  repeat first
    [ rewrite list_lookup_delete_lt in Hl by lia
    | rewrite insert_lookup in Hl by len_solve
    | rewrite list_lookup_insert_eq in Hl by len_solve
    | rewrite list_lookup_insert_ne in Hl by lia ];
  simplify_eq.

Ltac valid_solve :=
  simplify_eq; index_facts; simplify_eq;
  rewrite ?slice_to_inside, ?slice_from_inside in * by len_solve;
  first
    [ assumption
    | no_raise
    | unfold buffers_valid, buffer_invariant; attrs;
      split; [|split; assumption];
      apply valid_pos_intro;
        [ len_solve
        | first [lia | len_solve]
        | let line := fresh "line" in
          let Hl := fresh "Hl" in
          intros line Hl; line_at Hl; len_solve ] ].

Ltac valid_run op :=
  intros s HW; open_valid HW; unfold op; run; zbool; valid_solve.

Lemma move_up_valid :
  hoare buffers_valid _move_up (fun _ => buffers_valid) (fun _ => False).
Proof. valid_run _move_up. Qed.
Lemma move_down_valid :
  hoare buffers_valid _move_down (fun _ => buffers_valid) (fun _ => False).
Proof. valid_run _move_down. Qed.
Lemma move_left_valid :
  hoare buffers_valid _move_left (fun _ => buffers_valid) (fun _ => False).
Proof. valid_run _move_left. Qed.
Lemma move_right_valid :
  hoare buffers_valid _move_right (fun _ => buffers_valid) (fun _ => False).
Proof. valid_run _move_right. Qed.
Lemma page_up_valid :
  hoare buffers_valid _page_up (fun _ => buffers_valid) (fun _ => False).
Proof. valid_run _page_up. Qed.
Lemma page_down_valid :
  hoare buffers_valid _page_down (fun _ => buffers_valid) (fun _ => False).
Proof. valid_run _page_down. Qed.

(** *** The word movements *)

Lemma word_at_in_range (line : Py.str) i :
  0 <= i < Py.len line -> exists b, word_at line i = Some b.
Proof.
  intros Hi. unfold word_at.
  destruct (Py.getitem line i) eqn:Hg; [eauto|]. by apply getitem_None in Hg.
Qed.

Lemma col_loop_right (line : Py.str) cond : forall fuel col,
  (forall c, 0 <= c < Py.len line -> exists b, cond c = Some b) ->
  (forall c, Py.len line <= c -> cond c = Some false) ->
  0 <= col <= Py.len line ->
  exists c, col_loop fuel cond 1 col = Some c /\ col <= c <= Py.len line.
Proof.
  induction fuel as [|fuel IH]; intros col Hin Hout Hcol; simpl.
  - exists col. split; [done|lia].
  - destruct (Z.lt_ge_cases col (Py.len line)) as [Hlt|Hge].
    + destruct (Hin col) as [[|] ->]; [lia| |exists col; split; [done|lia]].
      destruct (IH (col + 1) Hin Hout) as (c & -> & Hc); [lia|].
      exists c. split; [done|lia].
    + rewrite Hout by done. exists col. split; [done|lia].
Qed.

Lemma col_loop_left cond (bound : Z) : forall fuel col,
  (forall c, 0 < c <= bound -> exists b, cond c = Some b) ->
  (forall c, c <= 0 -> cond c = Some false) ->
  0 <= col <= bound ->
  exists c, col_loop fuel cond (-1) col = Some c /\ 0 <= c <= col.
Proof.
  induction fuel as [|fuel IH]; intros col Hin Hout Hcol; simpl.
  - exists col. split; [done|lia].
  - destruct (Z.lt_ge_cases 0 col) as [Hlt|Hge].
    + destruct (Hin col) as [[|] ->]; [lia| |exists col; split; [done|lia]].
      destruct (IH (col + -1) Hin Hout) as (c & -> & Hc); [lia|].
      exists c. split; [done|lia].
    + rewrite Hout by lia. exists col. split; [done|lia].
Qed.

Lemma word_right_col_in_line (line : Py.str) col :
  0 <= col <= Py.len line ->
  exists c, word_right_col line col = Some c /\ col <= c <= Py.len line.
Proof.
  intros Hcol. unfold word_right_col.
  destruct (col_loop_right line (cond_right_word line)
              (Z.to_nat (Py.len line - col)) col) as (c1 & -> & Hc1);
    [|apply cond_right_word_end|done|].
  { intros c Hc. unfold cond_right_word.
    destruct (Z.ltb_spec c (Py.len line)); [|lia]. by apply word_at_in_range. }
  destruct (col_loop_right line (cond_right_other line)
              (Z.to_nat (Py.len line - c1)) c1) as (c2 & -> & Hc2);
    [|apply cond_right_other_end|lia|].
  { intros c Hc. unfold cond_right_other.
    destruct (Z.ltb_spec c (Py.len line)); [|lia].
    destruct (word_at_in_range line c Hc) as [b ->]. by eexists. }
  exists c2. split; [done|lia].
Qed.

Lemma word_left_col_in_line (line : Py.str) col :
  0 <= col < Py.len line ->
  exists c, word_left_col line col = Some c /\ 0 <= c <= col.
Proof.
  intros Hcol. unfold word_left_col.
  destruct (col_loop_left (cond_left_other line) (Py.len line - 1)
              (Z.to_nat col) col) as (c1 & -> & Hc1);
    [|apply cond_left_other_end|lia|].
  { intros c Hc. unfold cond_left_other. rewrite Z.gtb_ltb.
    destruct (Z.ltb_spec 0 c); [|lia].
    destruct (word_at_in_range line c) as [b ->]; [lia|]. by eexists. }
  destruct (col_loop_left (cond_left_word line) (Py.len line)
              (Z.to_nat c1) c1) as (c2 & -> & Hc2);
    [|apply cond_left_word_end|lia|].
  { intros c Hc. unfold cond_left_word. rewrite Z.gtb_ltb.
    destruct (Z.ltb_spec 0 c); [|lia]. apply word_at_in_range. lia. }
  exists c2. split; [done|lia].
Qed.

Lemma move_word_right_valid :
  hoare buffers_valid _move_word_right (fun _ => buffers_valid) (fun _ => False).
Proof.
  intros s HW. open_valid HW. unfold _move_word_right. run; zbool.
  all: index_facts; simplify_eq.
  all: try match goal with
           | H : word_right_col ?l ?c = _ |- _ =>
               let Hc := fresh "Hc" in
               destruct (word_right_col_in_line l c) as (? & Hc & ?);
               [lia | rewrite Hc in H; simplify_eq]
           end.
  all: valid_solve.
Qed.

Lemma move_word_left_valid :
  hoare buffers_valid _move_word_left (fun _ => buffers_valid) (fun _ => False).
Proof.
  intros s HW. open_valid HW. unfold _move_word_left. run; zbool.
  all: index_facts; simplify_eq.
  all: try match goal with
           | H : word_left_col ?l ?c = _ |- _ =>
               let Hc := fresh "Hc" in
               destruct (word_left_col_in_line l c) as (? & Hc & ?);
               [lia | rewrite Hc in H; simplify_eq]
           end.
  all: valid_solve.
Qed.

(** *** The edits *)

Lemma insert_char_valid ch :
  hoare buffers_valid (_insert_char ch) (fun _ => buffers_valid) (fun _ => False).
Proof. valid_run _insert_char. Qed.
Lemma insert_text_valid t :
  hoare buffers_valid (_insert_text t) (fun _ => buffers_valid) (fun _ => False).
Proof. valid_run _insert_text. Qed.
Lemma backspace_valid :
  hoare buffers_valid _backspace (fun _ => buffers_valid) (fun _ => False).
Proof. valid_run _backspace. Qed.
Lemma delete_valid :
  hoare buffers_valid _delete (fun _ => buffers_valid) (fun _ => False).
Proof. valid_run _delete. Qed.

Lemma enter_valid :
  hoare buffers_valid _enter (fun _ => buffers_valid) (fun _ => False).
Proof. valid_run _enter. Qed.

(** *** The undo log and the selection *)

Lemma pushed_valid s : buffers_valid s -> Forall snapshot_valid (pushed s).
Proof.
  intros (Hb & Hu & _). unfold pushed.
  assert (Forall snapshot_valid (_undo_stack s ++ [current_snapshot s])).
  { apply Forall_app. split; [done|]. constructor; [|constructor]. done. }
  case_match; [by apply Forall_drop | done].
Qed.

Lemma save_undo_valid :
  hoare buffers_valid _save_undo (fun _ => buffers_valid) (fun _ => False).
Proof.
  intros s HW. rewrite save_undo_run. pose proof (pushed_valid s HW).
  destruct HW as (Hb & Hu & Hd). unfold buffers_valid, buffer_invariant. attrs.
  split; [done|]. split; [done|]. constructor.
Qed.


Lemma safe_bind {A B} I (m : M A) (k : A -> M B) :
  safe I m -> (forall a, safe I (k a)) -> safe I (bind m k).
Proof. intros. by eapply hoare_bind. Qed.
Lemma safe_ret {A} I (a : A) : safe I (ret a).
Proof. by intros s H. Qed.
Lemma safe_gets {A} I (f : CodeEditor -> A) : safe I (gets f).
Proof. by intros s H. Qed.
Lemma safe_modify I f : (forall s, I s -> I (f s)) -> safe I (modify f).
Proof. intros Hf s H. by apply Hf. Qed.

(** A method that keeps the buffers valid and leaves the lines and the
    anchor alone keeps a valid anchor valid. *)
Lemma safe_well_formed {A} (m : M A) :
  safe buffers_valid m ->
  (forall L a, inv (fun s => _lines s = L /\ _sel_anchor s = a) m) ->
  safe well_formed m.
Proof.
  intros Hv Hf s [Hb Ha]. specialize (Hv s Hb).
  specialize (Hf (_lines s) (_sel_anchor s) s (conj eq_refl eq_refl)).
  destruct (m s) as [[a|] s']; [|done]. destruct Hf as [Hl Hanchor].
  split; [done|]. unfold anchor_valid. by rewrite Hl, Hanchor.
Qed.

Ltac keeps_lines_anchor op :=
  intros L a; unfold op, cur_line_len, lines_get; inv_auto.

Lemma move_up_wf : safe well_formed _move_up.
Proof. apply safe_well_formed; [apply move_up_valid | keeps_lines_anchor _move_up]. Qed.
Lemma move_down_wf : safe well_formed _move_down.
Proof. apply safe_well_formed; [apply move_down_valid | keeps_lines_anchor _move_down]. Qed.
Lemma move_left_wf : safe well_formed _move_left.
Proof. apply safe_well_formed; [apply move_left_valid | keeps_lines_anchor _move_left]. Qed.
Lemma move_right_wf : safe well_formed _move_right.
Proof. apply safe_well_formed; [apply move_right_valid | keeps_lines_anchor _move_right]. Qed.
Lemma move_word_left_wf : safe well_formed _move_word_left.
Proof.
  apply safe_well_formed; [apply move_word_left_valid | keeps_lines_anchor _move_word_left].
Qed.
Lemma move_word_right_wf : safe well_formed _move_word_right.
Proof.
  apply safe_well_formed; [apply move_word_right_valid | keeps_lines_anchor _move_word_right].
Qed.
Lemma page_up_wf : safe well_formed _page_up.
Proof. apply safe_well_formed; [apply page_up_valid | keeps_lines_anchor _page_up]. Qed.
Lemma page_down_wf : safe well_formed _page_down.
Proof. apply safe_well_formed; [apply page_down_valid | keeps_lines_anchor _page_down]. Qed.

Lemma undo_wf : safe well_formed _undo.
Proof.
  intros s [HW Ha]. destruct (_undo_stack s) as [|e st _] eqn:Hst using rev_ind.
  - by rewrite undo_empty.
  - rewrite (undo_run _ _ _ Hst). destruct HW as (Hb & Hu & Hd).
    rewrite Hst in Hu. apply Forall_app in Hu as [Hu He].
    inversion He as [|? ? Hev _]; subst.
    split; [|by intros a' [=]].
    unfold buffers_valid, buffer_invariant. attrs. destruct e as [[ls r] c].
    split; [done|]. split; [done|].
    apply Forall_app. split; [done|]. constructor; [|constructor]. done.
Qed.

Lemma redo_wf : safe well_formed _redo.
Proof.
  intros s [HW Ha]. destruct (_redo_stack s) as [|e st _] eqn:Hst using rev_ind.
  - by rewrite redo_empty.
  - rewrite (redo_run _ _ _ Hst). destruct HW as (Hb & Hu & Hd).
    rewrite Hst in Hd. apply Forall_app in Hd as [Hd He].
    inversion He as [|? ? Hev _]; subst.
    split; [|by intros a' [=]].
    unfold buffers_valid, buffer_invariant. attrs. destruct e as [[ls r] c].
    split; [done|]. split; [|done].
    apply Forall_app. split; [done|]. constructor; [|constructor]. done.
Qed.

Lemma sel_range_valid s r :
  well_formed s -> _sel_range s = Some r ->
  valid_pos (_lines s) r.1 /\ valid_pos (_lines s) r.2.
Proof.
  intros [(Hb & _) Ha]. unfold _sel_range. unfold anchor_valid in Ha.
  destruct (_sel_anchor s) as [a|]; [|done]. specialize (Ha a eq_refl).
  destruct (Py.pair_eqb _ _); [done|].
  destruct (Py.pair_lt _ _); by intros [= <-].
Qed.

Lemma sel_range_None s :
  _sel_range s = None -> _sel_anchor s = None \/ anchor_on_cursor s.
Proof.
  unfold _sel_range, anchor_on_cursor, cursor.
  destruct (_sel_anchor s) as [[ar ac]|]; [|by left].
  unfold Py.pair_eqb. simpl.
  destruct (Z.eqb_spec ar (_cursor_row s)), (Z.eqb_spec ac (_cursor_col s));
    simpl; try (by destruct (Py.pair_lt _ _)).
  intros _. right. by subst.
Qed.

Lemma collapse_to_wf pick :
  pick = fst \/ pick = snd -> safe well_formed (collapse_to pick).
Proof.
  intros Hpick s HW. pose proof HW as [(Hb & Hu & Hd) Ha].
  unfold collapse_to. run.
  - destruct (sel_range_valid s _ HW Heqo) as [Hs He].
    split; [|by intros a' [=]].
    unfold buffers_valid, buffer_invariant. attrs.
    split; [|by split]. by destruct Hpick as [-> | ->]; simpl.
  - split; [|by intros a' [=]]. done.
Qed.

Lemma without_range_valid (ls : list Py.str) sr sc er ec l1 l2 :
  0 <= sr -> ls !! Z.to_nat sr = Some l1 -> 0 <= sc <= Py.len l1 ->
  valid_pos (without_range ls sr sc er ec l1 l2) (sr, sc).
Proof.
  intros Hsr Hl1 Hsc. apply lookup_lt_Some in Hl1 as Hlt.
  assert (Hlook : without_range ls sr sc er ec l1 l2 !! Z.to_nat sr
                  = Some (take (Z.to_nat sc) l1 ++ drop (Z.to_nat ec) l2)).
  { unfold without_range. rewrite lookup_app_r; rewrite length_take; [|lia].
    by replace (Z.to_nat sr - Z.to_nat sr `min` length ls)%nat with 0%nat by lia. }
  unfold valid_pos. simpl. split; [done|]. split; [lia|].
  eexists. split; [exact Hlook|]. len_solve.
Qed.

(** [_delete_selection] on a well-formed editor: it returns; when it
    returns [True] the editor is well formed and without anchor; when it
    returns [False] nothing has changed and nothing was selected. *)
Lemma delete_selection_wf s :
  well_formed s ->
  match _delete_selection s with
  | (Ok true, s') => well_formed s' /\ _sel_anchor s' = None
  | (Ok false, s') => s' = s /\ _sel_range s = None
  | (IndexError, _) => False
  end.
Proof.
  intros HW. destruct (_sel_range s) as [[[sr sc] [er ec]]|] eqn:Hsel.
  - destruct (sel_range_valid s _ HW Hsel) as [Hs He]. simpl in Hs, He.
    apply valid_pos_elim in Hs as (Hsr & Hsc & l1 & Hl1 & _ & Hlen1).
    apply valid_pos_elim in He as (Her & Hec & l2 & Hl2 & _ & Hlen2).
    rewrite (delete_selection_run s sr sc er ec l1 l2) by (done || lia).
    pose proof (pushed_valid s (proj1 HW)) as Hp.
    destruct HW as [(Hb & Hu & Hd) Ha].
    split; [|done]. split; [|by intros a' [=]].
    unfold buffers_valid, buffer_invariant. attrs.
    split; [|split; [done | constructor]].
    apply without_range_valid; (done || lia).
  - unfold _delete_selection, bind, gets. by rewrite Hsel.
Qed.

(** An edit on a valid buffer without anchor leaves a well-formed editor
    without anchor. *)
Lemma edit_wf (m : M unit) :
  safe buffers_valid m -> (forall a, inv (fun s => _sel_anchor s = a) m) ->
  hoare (fun s => buffers_valid s /\ _sel_anchor s = None) m
    (fun _ s => well_formed s /\ _sel_anchor s = None) (fun _ => False).
Proof.
  intros Hv Hf s [Hb Ha]. specialize (Hv s Hb).
  specialize (Hf None s Ha).
  destruct (m s) as [[a|] s']; [|done].
  split; [|done]. split; [done|]. intros a'. by rewrite Hf.
Qed.

Ltac keeps_anchor op :=
  intros a; unfold op, lines_get, lines_set, lines_pop; inv_auto.

Lemma backspace_anchor a : inv (fun s => _sel_anchor s = a) _backspace.
Proof. revert a. keeps_anchor _backspace. Qed.
Lemma delete_anchor a : inv (fun s => _sel_anchor s = a) _delete.
Proof. revert a. keeps_anchor _delete. Qed.
Lemma enter_anchor a : inv (fun s => _sel_anchor s = a) _enter.
Proof. revert a. keeps_anchor _enter. Qed.
Lemma insert_char_anchor ch a : inv (fun s => _sel_anchor s = a) (_insert_char ch).
Proof. revert a. keeps_anchor _insert_char. Qed.
Lemma insert_text_anchor t a : inv (fun s => _sel_anchor s = a) (_insert_text t).
Proof. revert a. keeps_anchor _insert_text. Qed.

(** *** The keys *)

Lemma valid_pos_col0 (ls : list Py.str) r c : valid_pos ls (r, c) -> valid_pos ls (r, 0).
Proof.
  intros (Hr & Hc & line & Hl & Hlen). simpl in *.
  unfold valid_pos. simpl. split; [done|]. split; [done|].
  exists line. split; [done|]. unfold Py.len. lia.
Qed.

(** The assignments [handle_key] makes itself keep a well-formed editor. *)
Ltac wf_modify :=
  let s := fresh "s" in
  let Hb := fresh "Hb" in
  let Hu := fresh "Hu" in
  let Hd := fresh "Hd" in
  let Ha := fresh "Ha" in
  intros s [(Hb & Hu & Hd) Ha];
  unfold well_formed, buffers_valid, buffer_invariant, anchor_valid in *;
  attrs;
  split;
    [ split; [first [exact Hb | by eapply valid_pos_col0] | by split]
    | first [ exact Ha | by intros ? [=] | by intros ? [= <-] ] ].

Lemma goto_line_end_wf {A} (k : M A) :
  safe well_formed k ->
  safe well_formed (n <- cur_line_len ;; modify (set_cursor_col n) ;; k).
Proof.
  intros Hk.
  eapply hoare_bind
    with (Q := fun n s => well_formed s /\
                          valid_pos (_lines s) (_cursor_row s, n)).
  { intros s [HW Ha]. open_valid HW. unfold cur_line_len. run; [|no_raise].
    simplify_eq. split; [by split|].
    apply valid_pos_intro; [done | unfold Py.len; lia |].
    intros line' Hl'. by simplify_eq. }
  intros n. eapply hoare_bind with (Q := fun _ s => well_formed s).
  { intros s [[(Hb & Hu & Hd) Ha] Hn]. unfold modify.
    split; [split; [exact Hn | by split] | exact Ha]. }
  intros ?. apply Hk.
Qed.

Create HintDb wf_db.
#[local] Hint Resolve move_up_wf move_down_wf move_left_wf move_right_wf
  move_word_left_wf move_word_right_wf page_up_wf page_down_wf undo_wf
  redo_wf : wf_db.

Ltac wf_step :=
  lazymatch goal with
  | |- safe _ (bind cur_line_len _) => apply goto_line_end_wf
  | |- safe _ (bind _ _) => apply safe_bind; [| intros ?]
  | |- safe _ (ret _) => apply safe_ret
  | |- safe _ (gets _) => apply safe_gets
  | |- safe _ (modify _) => apply safe_modify; wf_modify
  | |- safe _ (collapse_to fst) => apply collapse_to_wf; by left
  | |- safe _ (collapse_to snd) => apply collapse_to_wf; by right
  | |- safe _ (if ?b then _ else _) => destruct b eqn:?
  | |- safe _ (match ?x with _ => _ end) => destruct x eqn:?
  | |- safe _ _ => solve [ auto with wf_db ]
  end.

Lemma safe_outcome s k (m : M bool) :
  safe well_formed m -> well_formed s -> key_outcome s k (m s).
Proof.
  intros Hm HW. specialize (Hm s HW). unfold key_outcome.
  destruct (m s) as [[b|] s']; [|done]. destruct Hm. by split.
Qed.

Lemma save_undo_wf s :
  well_formed s ->
  well_formed (set_redo_stack [] (set_undo_stack (pushed s) s)).
Proof.
  intros [HW Ha]. pose proof (save_undo_valid s HW) as H.
  rewrite save_undo_run in H. by split.
Qed.

(** An edit after a [_delete_selection] that found nothing selected. *)
Lemma edit_outcome (m : M unit) s k :
  safe buffers_valid m -> (forall a, inv (fun s => _sel_anchor s = a) m) ->
  buffers_valid s -> (_sel_anchor s = None \/ anchor_on_cursor s) ->
  is_editing_key k = true ->
  match (m ;; ret true) s with
  | (Ok _, s') =>
      buffers_valid s' /\ (_sel_anchor s = None -> anchor_valid s')
  | (IndexError, _) => False
  end.
Proof.
  intros Hv Hf Hb Hsel Hk. unfold bind.
  specialize (Hv s Hb). specialize (Hf (_sel_anchor s) s eq_refl).
  destruct (m s) as [[a|] s']; [|done]. simpl.
  split; [done|]. intros Hn a'. by rewrite Hf, Hn.
Qed.

Lemma removal_branch_outcome (m : M unit) s k :
  safe buffers_valid m -> (forall a, inv (fun s => _sel_anchor s = a) m) ->
  well_formed s -> is_editing_key k = true ->
  key_outcome s k
    ((deleted <- _delete_selection ;;
      if deleted then ret true else _save_undo ;; m ;; ret true) s).
Proof.
  intros Hv Hf HW Hk. pose proof (delete_selection_wf s HW) as Hds.
  unfold key_outcome, bind at 1.
  destruct (_delete_selection s) as [[[|]|] s1]; [| |done].
  - destruct Hds as [[Hb Ha] _]. by split.
  - destruct Hds as [-> Hsel]. apply sel_range_None in Hsel.
    unfold bind at 1. rewrite save_undo_run.
    pose proof (save_undo_wf s HW) as [Hb0 _].
    pose proof (edit_outcome m _ k Hv Hf Hb0 Hsel Hk) as He.
    destruct ((m ;; ret true) _) as [[b|] s2]; [|done].
    destruct He as [Hb2 Ha2]. split; [done|].
    intros [Hk'|Hnc]; [congruence|]. apply Ha2.
    destruct Hsel as [Hn|Hc]; [exact Hn | done].
Qed.

Lemma replace_branch_outcome (m : M unit) s k :
  safe buffers_valid m -> (forall a, inv (fun s => _sel_anchor s = a) m) ->
  well_formed s -> is_editing_key k = true ->
  key_outcome s k ((_save_undo ;; _delete_selection ;; m ;; ret true) s).
Proof.
  intros Hv Hf HW Hk. unfold key_outcome, bind at 1. rewrite save_undo_run.
  pose proof (save_undo_wf s HW) as HW0.
  set (s0 := set_redo_stack [] (set_undo_stack (pushed s) s)) in *.
  pose proof (delete_selection_wf s0 HW0) as Hds.
  unfold bind at 1.
  destruct (_delete_selection s0) as [[[|]|] s1]; [| |done].
  - destruct Hds as [[Hb1 Ha1] Hn1].
    pose proof (edit_wf m Hv Hf s1 (conj Hb1 Hn1)) as He.
    unfold bind. destruct (m s1) as [[u|] s2]; [|done]. simpl.
    destruct He as [[Hb2 Ha2] _]. by split.
  - destruct Hds as [-> Hsel]. apply sel_range_None in Hsel.
    pose proof (edit_outcome m s0 k Hv Hf (proj1 HW0) Hsel Hk) as He.
    destruct ((m ;; ret true) s0) as [[b|] s2]; [|done].
    destruct He as [Hb2 Ha2]. split; [done|].
    intros [Hk'|Hnc]; [congruence|]. apply Ha2.
    destruct Hsel as [Hn|Hc]; [exact Hn | done].
Qed.

(** The editing branches are reached by the editing keys. *)
Ltac branch_rewrite Hk :=
  repeat match goal with
         | E : _ = ?b |- _ =>
             tryif constr_eq E Hk then fail else rewrite E in Hk
         end.
Ltac editing_key k :=
  let Hk := fresh "Hk" in
  destruct (is_editing_key k) eqn:Hk; [reflexivity | exfalso];
  repeat match goal with
         | E : (_ || _) = true |- _ => apply orb_true_iff in E; destruct E
         | E : (_ || _) = false |- _ => apply orb_false_elim in E; destruct E
         end;
  unfold is_editing_key, is_movement_key, is_history_key in Hk;
  branch_rewrite Hk;
  unfold movement_names, editing_names in Hk;
  repeat rewrite name_in_cons in Hk;
  branch_rewrite Hk;
  simpl in Hk; rewrite ?orb_true_r in Hk; simpl in Hk; discriminate.

(** A key pressed on a well-formed editor raises nothing and leaves the
    cursor and the snapshots in their buffers; the anchor too, unless the key
    is an editing key and the anchor was on the cursor. *)
Lemma handle_key_outcome s k :
  well_formed s -> key_outcome s k (handle_key k s).
Proof.
  intros HW. unfold handle_key.
  repeat match goal with
         | |- key_outcome _ _ ((if ?b then _ else _) _) => destruct b eqn:?
         end.
  all: first
    [ apply removal_branch_outcome;
        [ first [apply backspace_valid | apply delete_valid]
        | first [apply backspace_anchor | apply delete_anchor]
        | done
        | editing_key k ]
    | apply replace_branch_outcome;
        [ first [apply enter_valid | apply insert_text_valid
                | apply insert_char_valid]
        | first [apply enter_anchor | apply insert_text_anchor
                | apply insert_char_anchor]
        | done
        | editing_key k ]
    | apply safe_outcome; [repeat wf_step | done] ].
Qed.

(** *** The other calls *)

Lemma init_well_formed lang : well_formed (init lang).
Proof.
  split; [split; [|by split]|by intros a [=]].
  apply valid_pos_intro; simpl; [done | done |].
  intros line [= <-]. done.
Qed.

Lemma set_text_wf t : safe well_formed (set_text t).
Proof.
  intros s _. unfold set_text. run.
  all: split; [split; [|by split]|by intros a [=]].
  all: unfold buffer_invariant; attrs.
  - pose proof (split_nl_nonempty t) as Hne.
    destruct (Py.split_nl t) as [|line ls]; [done|].
    apply valid_pos_intro; [len_solve | done |].
    intros line' [= <-]. unfold Py.len. lia.
  - apply valid_pos_intro; simpl; [done | done |].
    intros line [= <-]. done.
Qed.

Lemma set_language_wf l : safe well_formed (set_language l).
Proof. intros s HW. unfold set_language. run. exact HW. Qed.

Lemma render_wf lex x y w h : safe well_formed (render lex x y w h).
Proof.
  intros s HW. unfold render, bind at 1.
  destruct (rehighlight_run lex s) as (hl & d & -> & _).
  run; exact HW.
Qed.

(** A call on a well-formed editor returns; it leaves the editor well-formed
    unless it is an editing key pressed while an anchor stands on the
    cursor. *)
Lemma do_call_well_formed lex c s :
  well_formed s -> careful_call c s -> well_formed (do_call lex c s).
Proof.
  intros HW Hc. destruct c as [k|t|l|x y w h]; simpl.
  - pose proof (handle_key_outcome s k HW) as Hk. unfold key_outcome in Hk.
    unfold exec. destruct (handle_key k s) as [[b|] s']; [|done].
    destruct Hk as [Hb Ha]. split; [done|]. apply Ha.
    simpl in Hc. destruct (is_editing_key k); [right; by apply Hc | by left].
  - pose proof (set_text_wf t s HW) as H. unfold exec.
    by destruct (set_text t s) as [[u|] s'].
  - pose proof (set_language_wf l s HW) as H. unfold exec.
    by destruct (set_language l s) as [[u|] s'].
  - pose proof (render_wf lex x y w h s HW) as H. unfold exec.
    by destruct (render lex x y w h s) as [[u|] s'].
Qed.

Lemma do_calls_well_formed lex cs s :
  well_formed s -> careful lex cs s -> well_formed (do_calls lex cs s).
Proof.
  revert s. induction cs as [|c cs IH]; intros s HW Hcs; [done|].
  destruct Hcs as [Hc Hcs]. apply IH; [by apply do_call_well_formed | done].
Qed.

(** After every sequence of calls on a new editor in which no editing key
    is pressed while an anchor stands on the cursor, the cursor, the anchor
    and the snapshots are positions of their buffers. *)
Lemma reachable_well_formed lex lang cs :
  careful lex cs (init lang) -> well_formed (do_calls lex cs (init lang)).
Proof. intros. by apply do_calls_well_formed; [apply init_well_formed|]. Qed.

(** ** Further properties of the editor *)

(** *** Loading a text *)

(** [set_text] then [get_text] gives the text back, the empty text too; the
    cursor is at the start, nothing is selected, and both stacks are empty,
    so that undo and redo straight after [set_text] change nothing. *)
Theorem set_text_get_text (t : Py.str) (s : CodeEditor) :
  let s' := exec (set_text t) s in
  returned (set_text t) s = Ok tt /\
  get_text s' = t /\
  cursor s' = (0, 0) /\ _sel_anchor s' = None /\
  _undo s' = (Ok tt, s') /\ _redo s' = (Ok tt, s').
Proof.
  intros s'. subst s'. unfold exec, returned, set_text, bind, modify. attrs.
  split; [done|]. split.
  - unfold get_text. attrs. destruct t as [|c t]; [done|].
    cbn [Py.truthy]. apply join_split.
  - split; [done|]. split; [done|]. split; [by apply undo_empty | by apply redo_empty].
Qed.

(** *** Edits and the redo stack *)

Lemma save_undo_no_redo :
  hoare (fun _ => True) _save_undo
    (fun _ s => _redo_stack s = []) (fun s => _redo_stack s = []).
Proof. intros s _. by rewrite save_undo_run. Qed.

Lemma delete_selection_no_redo (R : CodeEditor -> Prop) :
  hoare R _delete_selection
    (fun b s => if b then _redo_stack s = [] else R s)
    (fun s => _redo_stack s = []).
Proof.
  unfold _delete_selection.
  eapply hoare_bind with (Q := fun _ s => R s); [by intros s Hs|].
  intros [[[sr sc] [er ec]]|]; [|by apply hoare_ret].
  eapply hoare_bind with (Q := fun _ s => _redo_stack s = []).
  { eapply hoare_conseq; [apply save_undo_no_redo|..]; done. }
  intros _.
  eapply hoare_bind with (Q := fun _ s => _redo_stack s = []).
  { change (inv (fun s => _redo_stack s = [])
              (if sr =? er
               then line <- lines_get sr ;;
                    lines_set sr (Py.slice_to line sc ++ Py.slice_from line ec)
               else l1 <- lines_get sr ;; l2 <- lines_get er ;;
                    lines_set sr (Py.slice_to l1 sc ++ Py.slice_from l2 ec) ;;
                    modify (fun s => set_lines
                              (Py.del_slice (_lines s) (sr + 1) (er + 1)) s))).
    unfold lines_get, lines_set. inv_auto. }
  intros _.
  repeat (eapply hoare_bind with (Q := fun _ s => _redo_stack s = []);
          [apply inv_modify; intros ? ?; assumption | intros _]).
  by apply hoare_ret.
Qed.

Lemma own_edit_no_redo (m : M unit) :
  inv (fun s => _redo_stack s = []) m ->
  hoare (fun _ => True)
    (deleted <- _delete_selection ;;
     if deleted then ret true else _save_undo ;; m ;; ret true)
    (fun _ s => _redo_stack s = []) (fun s => _redo_stack s = []) /\
  hoare (fun _ => True)
    (_save_undo ;; _delete_selection ;; m ;; ret true)
    (fun _ s => _redo_stack s = []) (fun s => _redo_stack s = []).
Proof.
  intros Hm. split.
  - eapply hoare_bind; [apply (delete_selection_no_redo (fun _ => True))|].
    intros [|]; [by apply hoare_ret|].
    eapply hoare_bind; [apply save_undo_no_redo|]. intros ?.
    eapply hoare_bind; [apply Hm|]. intros ?. by apply hoare_ret.
  - eapply hoare_bind; [apply save_undo_no_redo|]. intros ?.
    eapply hoare_bind with (Q := fun _ s => _redo_stack s = []).
    { eapply hoare_conseq;
        [apply (delete_selection_no_redo (fun s => _redo_stack s = []))|..].
      - done.
      - by intros [|] s'.
      - done. }
    intros ?. eapply hoare_bind; [apply Hm|]. intros ?. by apply hoare_ret.
Qed.

Lemma edits_keep_no_redo :
  inv (fun s => _redo_stack s = []) _backspace /\
  inv (fun s => _redo_stack s = []) _delete /\
  inv (fun s => _redo_stack s = []) _enter /\
  (forall t, inv (fun s => _redo_stack s = []) (_insert_text t)) /\
  (forall ch, inv (fun s => _redo_stack s = []) (_insert_char ch)).
Proof.
  repeat split; intros;
    unfold _backspace, _delete, _enter, _insert_text, _insert_char,
      lines_get, lines_set, lines_pop; inv_auto.
Qed.

(** An editing key (a character, tab, enter, backspace, delete) empties the
    redo stack, whatever the editor held, also when the key changes nothing
    (backspace at the start of the buffer) and when the call raises. *)
Theorem editing_key_clears_redo (s : CodeEditor) (k : Keystroke)
  (Hk : is_editing_key k = true) :
  _redo_stack (exec (handle_key k) s) = [].
Proof.
  destruct edits_keep_no_redo as (Hb & Hd & He & Ht & Hc).
  assert (H : hoare (fun _ => True) (handle_key k)
                (fun _ s => _redo_stack s = []) (fun s => _redo_stack s = [])).
  { unfold handle_key.
    repeat match goal with
           | |- hoare _ (if ?b then _ else _) _ _ => destruct b eqn:?
           end.
    all: first
      [ exfalso; key_cases Hk
      | apply own_edit_no_redo; auto ]. }
  specialize (H s I). unfold exec. by destruct (handle_key k s) as [[b|] s'].
Qed.

Lemma editing_key_clears_redo_witness :
  is_editing_key (named "KEY_BACKSPACE") = true /\
  _redo_stack
    (exec (handle_key (named "KEY_BACKSPACE"))
       (set_redo_stack [([[]], 0, 0)] (init "python"))) = [].
Proof.
  split; [reflexivity|].
  apply (editing_key_clears_redo _ (named "KEY_BACKSPACE") eq_refl).
Defined.

(** *** The selection *)

(** [_sel_range] is [None] when no anchor is set or the anchor is the
    cursor; otherwise its two ends are the anchor and the cursor, the
    smaller first. [_in_selection] holds of the positions from the first
    end on and before the second: the range is half-open. *)
Theorem in_selection_half_open (s : CodeEditor) (row col : Z) :
  _in_selection s row col
  = match _sel_range s with
    | Some (a, b) => pair_le a (row, col) && Py.pair_lt (row, col) b
    | None => false
    end /\
  match _sel_range s with
  | Some (a, b) =>
      Py.pair_lt a b = true /\
      ((_sel_anchor s = Some a /\ b = cursor s) \/
       (_sel_anchor s = Some b /\ a = cursor s))
  | None => _sel_anchor s = None \/ _sel_anchor s = Some (cursor s)
  end.
Proof.
  unfold _in_selection, _sel_range, cursor, pair_le, Py.pair_lt, Py.pair_eqb.
  destruct (_sel_anchor s) as [[ar ac]|]; simpl; [|by split; [|left]].
  destruct (ar =? _cursor_row s) eqn:E1; destruct (ac =? _cursor_col s) eqn:E2;
    destruct (ar <? _cursor_row s) eqn:E3;
    destruct (ac <? _cursor_col s) eqn:E4; simpl; zbool; try lia.
  all: split;
    [ repeat match goal with
             | |- context [?a <? ?b] => destruct (Z.ltb_spec a b)
             | |- context [?a >? ?b] => rewrite (Z.gtb_ltb a b)
             | |- context [?a >=? ?b] => rewrite (Z.geb_leb a b)
             | |- context [?a <=? ?b] => destruct (Z.leb_spec a b)
             | |- context [?a =? ?b] => destruct (Z.eqb_spec a b)
             end; simpl; try reflexivity; try lia
    | first [ right; f_equal; f_equal; lia
            | split; [try reflexivity; lia|]; first [left; done | right; done] ] ].
Qed.

(** *** The edits on the text *)

Lemma join_nl_insert (ls : list Py.str) r l v :
  ls !! r = Some l ->
  Py.join_nl (<[r := v]> ls)
  = text_before (take r ls) ++ v ++ text_after (drop (S r) ls).
Proof.
  intros Hl. rewrite insert_take_drop by (by eapply lookup_lt_Some).
  by rewrite join_nl_app, join_nl_cons.
Qed.

(** The cursor of a valid buffer: its row, its line and its column. *)
Lemma buffer_invariant_elim s :
  buffer_invariant s ->
  exists l, 0 <= _cursor_row s < Py.len (_lines s) /\
            _lines s !! Z.to_nat (_cursor_row s) = Some l /\
            0 <= _cursor_col s <= Py.len l.
Proof.
  intros H. apply valid_pos_elim in H as (Hr & Hc & l & Hl & _ & Hlen).
  by exists l.
Qed.

Lemma insert_char_run s ch l :
  0 <= _cursor_row s -> _lines s !! Z.to_nat (_cursor_row s) = Some l ->
  0 <= _cursor_col s <= Py.len l ->
  _insert_char ch s
  = (Ok tt,
     set_dirty true (set_highlight_dirty true
       (set_cursor_col (_cursor_col s + Py.len ch)
          (set_lines
             (<[Z.to_nat (_cursor_row s) :=
                  take (Z.to_nat (_cursor_col s)) l ++ ch
                  ++ drop (Z.to_nat (_cursor_col s)) l]> (_lines s)) s)))).
Proof.
  intros Hr Hl Hc. pose proof (lookup_len _ _ _ Hr Hl).
  unfold _insert_char, bind at 1. unfold gets at 1. unfold bind at 1.
  rewrite (lines_get_run s _ l) by done.
  unfold bind at 1. unfold gets at 1. unfold bind at 1.
  rewrite lines_set_run by lia.
  rewrite slice_to_inside, slice_from_inside by lia.
  reflexivity.
Qed.

Lemma backspace_run_col s l :
  0 <= _cursor_row s -> _lines s !! Z.to_nat (_cursor_row s) = Some l ->
  0 < _cursor_col s <= Py.len l ->
  _backspace s
  = (Ok tt,
     set_dirty true (set_highlight_dirty true
       (set_cursor_col (_cursor_col s - 1)
          (set_lines
             (<[Z.to_nat (_cursor_row s) :=
                  take (Z.to_nat (_cursor_col s - 1)) l
                  ++ drop (Z.to_nat (_cursor_col s)) l]> (_lines s)) s)))).
Proof.
  intros Hr Hl Hc. pose proof (lookup_len _ _ _ Hr Hl).
  unfold _backspace, bind at 1. unfold gets at 1. unfold bind at 1.
  unfold gets at 1.
  destruct (Z.gtb_spec (_cursor_col s) 0); [|lia].
  unfold bind at 1. rewrite (lines_get_run s _ l) by done.
  unfold bind at 1. rewrite lines_set_run by lia.
  rewrite slice_to_inside, slice_from_inside by lia.
  reflexivity.
Qed.

Lemma backspace_run_row s prev l :
  0 < _cursor_row s -> _lines s !! Z.to_nat (_cursor_row s) = Some l ->
  _lines s !! Z.to_nat (_cursor_row s - 1) = Some prev ->
  _cursor_col s = 0 ->
  _backspace s
  = (Ok tt,
     set_dirty true (set_highlight_dirty true
       (set_cursor_col (Py.len prev)
          (set_cursor_row (_cursor_row s - 1)
             (set_lines
                (delete (Z.to_nat (_cursor_row s))
                   (<[Z.to_nat (_cursor_row s - 1) := prev ++ l]> (_lines s)))
                s))))).
Proof.
  intros Hr Hl Hp Hc.
  assert (_cursor_row s < Py.len (_lines s)) by (apply (lookup_len _ _ l); [lia|done]).
  unfold _backspace, bind at 1. unfold gets at 1. unfold bind at 1.
  unfold gets at 1.
  destruct (Z.gtb_spec (_cursor_col s) 0); [lia|].
  destruct (Z.gtb_spec (_cursor_row s) 0); [|lia].
  unfold bind at 1. rewrite (lines_get_run s _ prev) by (done || lia).
  unfold bind at 1. rewrite (lines_get_run s _ l) by (done || lia).
  unfold bind at 1. rewrite lines_set_run by lia.
  unfold bind at 1. unfold lines_pop, bind at 1. unfold gets at 1.
  cbn [_lines set_lines].
  unfold Py.pop.
  rewrite (getitem_nonneg _ _ l).
  - rewrite index_nonneg by lia. reflexivity.
  - lia.
  - rewrite list_lookup_insert_ne by lia. done.
Qed.

Lemma backspace_run_start s :
  _cursor_row s <= 0 -> _cursor_col s <= 0 -> _backspace s = (Ok tt, s).
Proof.
  intros Hr Hc. unfold _backspace, bind, gets.
  destruct (Z.gtb_spec (_cursor_col s) 0); [lia|].
  destruct (Z.gtb_spec (_cursor_row s) 0); [lia|]. done.
Qed.

Lemma delete_run_col s l :
  0 <= _cursor_row s -> _lines s !! Z.to_nat (_cursor_row s) = Some l ->
  0 <= _cursor_col s < Py.len l ->
  _delete s
  = (Ok tt,
     set_dirty true (set_highlight_dirty true
       (set_lines
          (<[Z.to_nat (_cursor_row s) :=
               take (Z.to_nat (_cursor_col s)) l
               ++ drop (Z.to_nat (_cursor_col s + 1)) l]> (_lines s)) s))).
Proof.
  intros Hr Hl Hc. pose proof (lookup_len _ _ _ Hr Hl).
  unfold _delete, bind at 1. unfold gets at 1. unfold bind at 1.
  rewrite (lines_get_run s _ l) by done.
  unfold bind at 1. unfold gets at 1. unfold bind at 1. unfold gets at 1.
  destruct (Z.ltb_spec (_cursor_col s) (Py.len l)); [|lia].
  unfold bind at 1. rewrite lines_set_run by lia.
  rewrite slice_to_inside, slice_from_inside by lia.
  reflexivity.
Qed.

Lemma delete_run_row s l next :
  0 <= _cursor_row s -> _lines s !! Z.to_nat (_cursor_row s) = Some l ->
  _lines s !! Z.to_nat (_cursor_row s + 1) = Some next ->
  Py.len l <= _cursor_col s ->
  _delete s
  = (Ok tt,
     set_dirty true (set_highlight_dirty true
       (set_lines
          (delete (Z.to_nat (_cursor_row s + 1))
             (<[Z.to_nat (_cursor_row s) := l ++ next]> (_lines s))) s))).
Proof.
  intros Hr Hl Hn Hc.
  assert (_cursor_row s + 1 < Py.len (_lines s))
    by (apply (lookup_len _ _ next); [lia|done]).
  unfold _delete, bind at 1. unfold gets at 1. unfold bind at 1.
  rewrite (lines_get_run s _ l) by done.
  unfold bind at 1. unfold gets at 1. unfold bind at 1. unfold gets at 1.
  destruct (Z.ltb_spec (_cursor_col s) (Py.len l)); [lia|].
  destruct (Z.ltb_spec (_cursor_row s) (Py.len (_lines s) - 1)); [|lia].
  unfold bind at 1. rewrite (lines_get_run s _ l) by done.
  unfold bind at 1. rewrite (lines_get_run s _ next) by (done || lia).
  unfold bind at 1. rewrite lines_set_run by lia.
  unfold bind at 1. unfold lines_pop, bind at 1. unfold gets at 1.
  cbn [_lines set_lines].
  unfold Py.pop.
  rewrite (getitem_nonneg _ _ next).
  - rewrite index_nonneg by lia. reflexivity.
  - lia.
  - rewrite list_lookup_insert_ne by lia. done.
Qed.

Lemma delete_run_end s l :
  0 <= _cursor_row s -> _lines s !! Z.to_nat (_cursor_row s) = Some l ->
  Py.len l <= _cursor_col s -> Py.len (_lines s) - 1 <= _cursor_row s ->
  _delete s = (Ok tt, s).
Proof.
  intros Hr Hl Hc Hn.
  unfold _delete, bind at 1. unfold gets at 1. unfold bind at 1.
  rewrite (lines_get_run s _ l) by done.
  unfold bind, gets.
  destruct (Z.ltb_spec (_cursor_col s) (Py.len l)); [lia|].
  destruct (Z.ltb_spec (_cursor_row s) (Py.len (_lines s) - 1)); [lia|]. done.
Qed.

Lemma enter_run s l :
  0 <= _cursor_row s -> _lines s !! Z.to_nat (_cursor_row s) = Some l ->
  0 <= _cursor_col s <= Py.len l ->
  _enter s
  = (Ok tt,
     set_dirty true (set_highlight_dirty true
       (set_cursor_col (Py.len (leading_indent l))
          (set_cursor_row (_cursor_row s + 1)
             (set_lines
                (take (Z.to_nat (_cursor_row s)) (_lines s)
                 ++ take (Z.to_nat (_cursor_col s)) l
                 :: (leading_indent l ++ drop (Z.to_nat (_cursor_col s)) l)
                 :: drop (S (Z.to_nat (_cursor_row s))) (_lines s))
                s))))).
Proof.
  intros Hr Hl Hc. pose proof (lookup_len _ _ _ Hr Hl) as Hlen.
  unfold _enter, bind at 1. unfold gets at 1. unfold bind at 1.
  rewrite (lines_get_run s _ l) by done.
  unfold bind at 1. unfold gets at 1. unfold bind at 1.
  rewrite lines_set_run by lia.
  rewrite slice_to_inside, slice_from_inside by lia.
  unfold bind, modify. cbn [_lines set_lines].
  change (set_lines ?v (set_lines ?w s)) with (set_lines v s).
  do 6 f_equal.
  unfold Py.insert. rewrite bound_inside
    by (unfold Py.len in *; rewrite length_insert; lia).
  replace (Z.to_nat (_cursor_row s + 1)) with (S (Z.to_nat (_cursor_row s))) by lia.
  rewrite drop_insert_lt by lia.
  rewrite (take_S_r _ _ (take (Z.to_nat (_cursor_col s)) l)).
  - rewrite take_insert_ge by lia. by rewrite <- app_assoc.
  - apply list_lookup_insert_eq. unfold Py.len in *. lia.
Qed.

Lemma text_before_app a b : text_before (a ++ b) = text_before a ++ text_before b.
Proof. unfold text_before. by rewrite map_app, concat_app. Qed.

Lemma text_before_take_S (ls : list Py.str) r l :
  ls !! r = Some l ->
  text_before (take (S r) ls) = text_before (take r ls) ++ l ++ [Py.newline].
Proof.
  intros Hl. rewrite (take_S_r _ _ _ Hl), text_before_app.
  unfold text_before at 2. simpl. by rewrite app_nil_r.
Qed.

Lemma merged_rows {A} (ls : list A) r x :
  (S r < length ls)%nat ->
  delete (S r) (<[r := x]> ls) = take r ls ++ x :: drop (S (S r)) ls.
Proof.
  intros Hr. rewrite delete_take_drop.
  rewrite (take_S_r _ _ x) by (apply list_lookup_insert_eq; lia).
  rewrite take_insert_ge by lia. rewrite drop_insert_lt by lia.
  by rewrite <- app_assoc.
Qed.

Lemma take_merged_rows {A} (ls : list A) r x :
  (S r < length ls)%nat ->
  take r (delete (S r) (<[r := x]> ls)) = take r ls /\
  delete (S r) (<[r := x]> ls) !! r = Some x /\
  length (delete (S r) (<[r := x]> ls)) = (length ls - 1)%nat.
Proof.
  intros Hr. rewrite merged_rows by done. split_and!.
  - rewrite take_app_le by (rewrite length_take; lia).
    rewrite take_take. f_equal. lia.
  - rewrite lookup_app_r by (rewrite length_take; lia).
    rewrite length_take. by replace (r - r `min` length ls)%nat with 0%nat by lia.
  - rewrite length_app, length_cons, length_take, length_drop. lia.
Qed.

(** Two rows that follow each other, made one. *)
Lemma join_nl_merge (ls : list Py.str) r prev l :
  ls !! r = Some prev -> ls !! S r = Some l ->
  Py.join_nl (delete (S r) (<[r := prev ++ l]> ls))
  = text_before (take r ls) ++ prev ++ l ++ text_after (drop (S (S r)) ls).
Proof.
  intros Hp Hl. pose proof (lookup_lt_Some _ _ _ Hp).
  rewrite delete_take_drop.
  rewrite (take_S_r _ _ (prev ++ l)) by (by apply list_lookup_insert_eq).
  rewrite take_insert_ge by lia. rewrite drop_insert_lt by lia.
  rewrite <- app_assoc. change ([?x] ++ ?k) with (x :: k).
  rewrite join_nl_app, join_nl_cons. by rewrite <- app_assoc.
Qed.

(** The text around two rows that follow each other. *)
Lemma text_split_rows (ls : list Py.str) r prev l :
  ls !! r = Some prev -> ls !! S r = Some l ->
  let off := (length (text_before (take r ls)) + length prev)%nat in
  take off (Py.join_nl ls) = text_before (take r ls) ++ prev /\
  drop (S off) (Py.join_nl ls) = l ++ text_after (drop (S (S r)) ls) /\
  length (text_before (take (S r) ls)) = S off.
Proof.
  intros Hp Hl off.
  destruct (text_split ls (Z.of_nat r, Py.len prev) prev) as [Ht _];
    cbn [fst snd]; rewrite ?Nat2Z.id; [lia | done | unfold Py.len; lia |].
  destruct (text_split ls (Z.of_nat (S r), 0) l) as [_ Hd];
    cbn [fst snd]; rewrite ?Nat2Z.id; [lia | done | unfold Py.len; lia |].
  unfold offset in Ht, Hd. cbn [fst snd] in Ht, Hd.
  rewrite ?Nat2Z.id in Ht, Hd. unfold Py.len in Ht. rewrite Nat2Z.id in Ht.
  rewrite firstn_all in Ht. change (Z.to_nat 0) with 0%nat in Hd.
  rewrite Nat.add_0_r in Hd. simpl in Hd.
  assert (Hlen : length (text_before (take (S r) ls)) = S off).
  { rewrite (text_before_take_S _ _ _ Hp), !length_app. simpl. subst off. lia. }
  rewrite Hlen in Hd. by repeat split.
Qed.

Lemma insert_char_text (s : CodeEditor) (ch : Py.str)
  (Hinv : buffer_invariant s) :
  let s' := exec (_insert_char ch) s in
  returned (_insert_char ch) s = Ok tt /\
  get_text s'
  = take (cursor_offset s) (get_text s) ++ ch
    ++ drop (cursor_offset s) (get_text s) /\
  cursor s' = (_cursor_row s, _cursor_col s + Py.len ch) /\
  cursor_offset s' = (cursor_offset s + length ch)%nat /\
  buffer_invariant s' /\
  _insert_text ch s = _insert_char ch s.
Proof.
  destruct (buffer_invariant_elim s Hinv) as (l & Hr & Hl & Hc).
  intros s'. subst s'. unfold exec, returned.
  rewrite (insert_char_run s ch l) by (done || lia). cbn [fst snd].
  destruct (text_split (_lines s) (cursor s) l) as [Ht Hd];
    [simpl; lia | done | done |]. cbn [cursor fst snd] in Ht, Hd.
  pose proof (lookup_lt_Some _ _ _ Hl) as Hlt.
  split_and!; try reflexivity.
  - unfold get_text, cursor_offset. attrs.
    rewrite (join_nl_insert _ _ l) by done. rewrite Ht, Hd.
    by rewrite <- !app_assoc.
  - unfold cursor_offset, offset, cursor, Py.len. attrs. cbn [fst snd].
    rewrite take_insert_ge by lia. lia.
  - unfold buffer_invariant. attrs. apply valid_pos_intro.
    + unfold Py.len in *. rewrite length_insert. lia.
    + unfold Py.len. lia.
    + intros line. rewrite list_lookup_insert_eq by done. intros [= <-].
      unfold Py.len in *. rewrite !length_app, length_take, length_drop. lia.
  - change (_insert_text ch s) with (_insert_char ch s).
    apply (insert_char_run s ch l); (done || lia).
Qed.

(** On a buffer that satisfies the buffer invariant, [_insert_char] (and
    [_insert_text], which has the same body) returns, puts the characters
    into [get_text] at the cursor and leaves the cursor behind them. *)
Theorem insert_char_at_cursor (s : CodeEditor) (ch : Py.str)
  (Hinv : buffer_invariant s) :
  let s' := exec (_insert_char ch) s in
  returned (_insert_char ch) s = Ok tt /\
  get_text s'
  = take (cursor_offset s) (get_text s) ++ ch
    ++ drop (cursor_offset s) (get_text s) /\
  cursor s' = (_cursor_row s, _cursor_col s + Py.len ch) /\
  cursor_offset s' = (cursor_offset s + length ch)%nat /\
  buffer_invariant s' /\
  _insert_text ch s = _insert_char ch s.
Proof. exact (insert_char_text s ch Hinv). Qed.

Lemma insert_char_at_cursor_witness :
  buffer_invariant two_sum /\
  get_text (exec (_insert_char (Py.of_string "x")) two_sum)
  = Py.of_string "xtwo" ++ [Py.newline] ++ Py.of_string "sum".
Proof.
  assert (H : buffer_invariant two_sum).
  { apply valid_pos_intro; [done | done |]. intros line [= <-]. done. }
  split; [exact H|].
  exact (proj1 (proj2 (insert_char_at_cursor two_sum (Py.of_string "x") H))).
Defined.

Lemma backspace_text (s : CodeEditor)
  (Hinv : buffer_invariant s) :
  let s' := exec _backspace s in
  returned _backspace s = Ok tt /\
  get_text s'
  = take (cursor_offset s - 1) (get_text s)
    ++ drop (cursor_offset s) (get_text s) /\
  cursor_offset s' = (cursor_offset s - 1)%nat /\
  buffer_invariant s'.
Proof.
  destruct (buffer_invariant_elim s Hinv) as (l & Hr & Hl & Hc).
  intros s'. subst s'. unfold exec, returned.
  pose proof (lookup_lt_Some _ _ _ Hl) as Hlt.
  destruct (Z_lt_le_dec 0 (_cursor_col s)) as [Hcol|Hcol];
    [|destruct (Z_lt_le_dec 0 (_cursor_row s)) as [Hrow|Hrow]].
  - (* inside a row *)
    rewrite (backspace_run_col s l) by (done || lia). cbn [fst snd].
    destruct (text_split (_lines s) (cursor s) l) as [_ Hd];
      [simpl; lia | done | done |].
    destruct (text_split (_lines s) (_cursor_row s, _cursor_col s - 1) l)
      as [Ht _]; [simpl; lia | done | simpl; lia |].
    cbn [cursor fst snd] in Ht, Hd.
    assert (Hoff : (cursor_offset s - 1)%nat
                   = offset (_lines s) (_cursor_row s, _cursor_col s - 1)).
    { unfold cursor_offset, offset, cursor. cbn [fst snd]. lia. }
    split_and!; try reflexivity.
    + unfold get_text. attrs. rewrite (join_nl_insert _ _ l) by done.
      rewrite Hoff, Ht. unfold cursor_offset. rewrite Hd.
      by rewrite <- !app_assoc.
    + rewrite Hoff. unfold cursor_offset, offset, cursor. attrs. cbn [fst snd].
      by rewrite take_insert_ge by lia.
    + unfold buffer_invariant. attrs. apply valid_pos_intro.
      * unfold Py.len in *. rewrite length_insert. lia.
      * lia.
      * intros line. rewrite list_lookup_insert_eq by done. intros [= <-].
        unfold Py.len in *. rewrite !length_app, length_take, length_drop. lia.
  - (* at the start of a row that is not the first *)
    assert (Hprev : exists prev,
               _lines s !! Z.to_nat (_cursor_row s - 1) = Some prev).
    { apply lookup_lt_is_Some_2. lia. }
    destruct Hprev as [prev Hp].
    rewrite (backspace_run_row s prev l) by (done || lia). cbn [fst snd].
    assert (Hrow' : Z.to_nat (_cursor_row s) = S (Z.to_nat (_cursor_row s - 1)))
      by lia.
    rewrite Hrow' in *.
    set (r := Z.to_nat (_cursor_row s - 1)) in *.
    destruct (text_split_rows (_lines s) r prev l Hp Hl) as (Ht & Hd & Hlen).
    assert (Hoff : cursor_offset s
                   = S (length (text_before (take r (_lines s))) + length prev)).
    { unfold cursor_offset, offset, cursor. cbn [fst snd]. rewrite Hrow'.
      fold r. rewrite Hlen. lia. }
    pose proof (lookup_lt_Some _ _ _ Hp) as Hltp.
    split_and!; try reflexivity.
    + unfold get_text. attrs. rewrite (join_nl_merge _ _ _ _ Hp Hl).
      rewrite Hoff. cbn [Nat.sub]. rewrite Nat.sub_0_r, Ht, Hd.
      by rewrite <- !app_assoc.
    + destruct (take_merged_rows (_lines s) r (prev ++ l)) as (Htk & _ & _);
        [lia|].
      rewrite Hoff. unfold cursor_offset, offset, cursor. attrs. cbn [fst snd].
      fold r. rewrite Htk. unfold Py.len. lia.
    + destruct (take_merged_rows (_lines s) r (prev ++ l)) as (_ & Hlk & Hln);
        [lia|].
      unfold buffer_invariant. attrs. fold r. apply valid_pos_intro.
      * unfold Py.len in *. rewrite Hln. lia.
      * unfold Py.len. lia.
      * intros line. fold r. rewrite Hlk. intros [= <-].
        unfold Py.len. rewrite length_app. lia.
  - (* at the start of the buffer *)
    rewrite backspace_run_start by lia. cbn [fst snd].
    assert (Hoff : cursor_offset s = 0%nat).
    { unfold cursor_offset, offset, cursor. cbn [fst snd].
      replace (Z.to_nat (_cursor_row s)) with 0%nat by lia.
      replace (Z.to_nat (_cursor_col s)) with 0%nat by lia. done. }
    split_and!; try done; rewrite Hoff; done.
Qed.

(** On a buffer that satisfies the buffer invariant, [_backspace] returns and
    removes from [get_text] the one character before the cursor, a line break
    when the cursor is at the start of a row; at the start of the buffer
    there is none and the text stays. The cursor stays in front of the same
    text. *)
Theorem backspace_removes_before_cursor (s : CodeEditor)
  (Hinv : buffer_invariant s) :
  let s' := exec _backspace s in
  returned _backspace s = Ok tt /\
  get_text s'
  = take (cursor_offset s - 1) (get_text s)
    ++ drop (cursor_offset s) (get_text s) /\
  cursor_offset s' = (cursor_offset s - 1)%nat /\
  buffer_invariant s'.
Proof. exact (backspace_text s Hinv). Qed.

Lemma backspace_removes_before_cursor_witness :
  buffer_invariant (set_cursor_col 2 two_sum) /\
  get_text (exec _backspace (set_cursor_col 2 two_sum))
  = Py.of_string "to" ++ [Py.newline] ++ Py.of_string "sum".
Proof.
  assert (H : buffer_invariant (set_cursor_col 2 two_sum)).
  { apply valid_pos_intro; [done | done |]. intros line [= <-]. done. }
  split; [exact H|].
  exact (proj1 (proj2 (backspace_removes_before_cursor _ H))).
Defined.

Lemma delete_text (s : CodeEditor)
  (Hinv : buffer_invariant s) :
  let s' := exec _delete s in
  returned _delete s = Ok tt /\
  get_text s'
  = take (cursor_offset s) (get_text s)
    ++ drop (S (cursor_offset s)) (get_text s) /\
  cursor s' = cursor s /\
  buffer_invariant s'.
Proof.
  destruct (buffer_invariant_elim s Hinv) as (l & Hr & Hl & Hc).
  intros s'. subst s'. unfold exec, returned.
  pose proof (lookup_lt_Some _ _ _ Hl) as Hlt.
  destruct (Z_lt_le_dec (_cursor_col s) (Py.len l)) as [Hcol|Hcol];
    [|destruct (Z_lt_le_dec (_cursor_row s) (Py.len (_lines s) - 1))
        as [Hrow|Hrow]].
  - (* inside a row *)
    rewrite (delete_run_col s l) by (done || lia). cbn [fst snd].
    destruct (text_split (_lines s) (cursor s) l) as [Ht _];
      [simpl; lia | done | done |].
    destruct (text_split (_lines s) (_cursor_row s, _cursor_col s + 1) l)
      as [_ Hd]; [simpl; lia | done | simpl; lia |].
    cbn [cursor fst snd] in Ht, Hd.
    assert (Hoff : S (cursor_offset s)
                   = offset (_lines s) (_cursor_row s, _cursor_col s + 1)).
    { unfold cursor_offset, offset, cursor. cbn [fst snd]. lia. }
    split_and!; try reflexivity.
    + unfold get_text. attrs. rewrite (join_nl_insert _ _ l) by done.
      rewrite Hoff, Hd. unfold cursor_offset. rewrite Ht.
      by rewrite <- !app_assoc.
    + unfold buffer_invariant. attrs. apply valid_pos_intro.
      * unfold Py.len in *. rewrite length_insert. lia.
      * lia.
      * intros line. rewrite list_lookup_insert_eq by done. intros [= <-].
        unfold Py.len in *. rewrite !length_app, length_take, length_drop. lia.
  - (* at the end of a row that is not the last *)
    assert (Hnext : exists next,
               _lines s !! Z.to_nat (_cursor_row s + 1) = Some next).
    { apply lookup_lt_is_Some_2. unfold Py.len in *. lia. }
    destruct Hnext as [next Hn].
    rewrite (delete_run_row s l next) by (done || lia). cbn [fst snd].
    assert (Hrow' : Z.to_nat (_cursor_row s + 1) = S (Z.to_nat (_cursor_row s)))
      by lia.
    rewrite Hrow' in *.
    set (r := Z.to_nat (_cursor_row s)) in *.
    destruct (text_split_rows (_lines s) r l next Hl Hn) as (Ht & Hd & Hlen).
    assert (Hoff : cursor_offset s
                   = (length (text_before (take r (_lines s))) + length l)%nat).
    { unfold cursor_offset, offset, cursor. cbn [fst snd]. fold r.
      unfold Py.len in *. lia. }
    destruct (take_merged_rows (_lines s) r (l ++ next)) as (_ & Hlk & Hln);
      [unfold Py.len in *; lia|].
    split_and!; try reflexivity.
    + unfold get_text. attrs. rewrite (join_nl_merge _ _ _ _ Hl Hn).
      rewrite Hoff, Ht, Hd. by rewrite <- !app_assoc.
    + unfold buffer_invariant. attrs. fold r. apply valid_pos_intro.
      * unfold Py.len in *. rewrite Hln. lia.
      * lia.
      * intros line. fold r. rewrite Hlk. intros [= <-].
        unfold Py.len in *. rewrite length_app. lia.
  - (* at the end of the buffer *)
    rewrite (delete_run_end s l) by (done || lia). cbn [fst snd].
    split_and!; try done.
    unfold get_text, cursor_offset, offset, cursor. cbn [fst snd].
    rewrite (get_text_at _ _ l Hl).
    rewrite (drop_ge (_lines s)) by (unfold Py.len in *; lia).
    cbn [text_after]. rewrite app_nil_r.
    replace (Z.to_nat (_cursor_col s)) with (length l)
      by (unfold Py.len in *; lia).
    rewrite <- length_app.
    rewrite firstn_all. rewrite drop_ge by lia. by rewrite app_nil_r.
Qed.

(** On a buffer that satisfies the buffer invariant, [_delete] returns and
    removes from [get_text] the one character at the cursor, a line break
    when the cursor is at the end of a row; at the end of the buffer there is
    none and the text stays. The cursor does not move. *)
Theorem delete_removes_at_cursor (s : CodeEditor)
  (Hinv : buffer_invariant s) :
  let s' := exec _delete s in
  returned _delete s = Ok tt /\
  get_text s'
  = take (cursor_offset s) (get_text s)
    ++ drop (S (cursor_offset s)) (get_text s) /\
  cursor s' = cursor s /\
  buffer_invariant s'.
Proof. exact (delete_text s Hinv). Qed.

Lemma delete_removes_at_cursor_witness :
  buffer_invariant (set_cursor_col 3 two_sum) /\
  get_text (exec _delete (set_cursor_col 3 two_sum)) = Py.of_string "twosum".
Proof.
  assert (H : buffer_invariant (set_cursor_col 3 two_sum)).
  { apply valid_pos_intro; [done | done |]. intros line [= <-]. done. }
  split; [exact H|].
  exact (proj1 (proj2 (delete_removes_at_cursor _ H))).
Defined.

Lemma enter_text (s : CodeEditor) (l : Py.str)
  (Hinv : buffer_invariant s)
  (Hl : _lines s !! Z.to_nat (_cursor_row s) = Some l) :
  let s' := exec _enter s in
  returned _enter s = Ok tt /\
  get_text s'
  = take (cursor_offset s) (get_text s)
    ++ Py.newline :: leading_indent l
    ++ drop (cursor_offset s) (get_text s) /\
  cursor s' = (_cursor_row s + 1, Py.len (leading_indent l)) /\
  cursor_offset s' = (cursor_offset s + S (length (leading_indent l)))%nat /\
  Py.len (_lines s') = Py.len (_lines s) + 1 /\
  buffer_invariant s'.
Proof.
  destruct (buffer_invariant_elim s Hinv) as (l' & Hr & Hl' & Hc).
  assert (l' = l) by congruence. subst l'. clear Hl'.
  intros s'. subst s'. unfold exec, returned.
  pose proof (lookup_lt_Some _ _ _ Hl) as Hlt.
  rewrite (enter_run s l) by (done || lia). cbn [fst snd].
  destruct (text_split (_lines s) (cursor s) l) as [Ht Hd];
    [simpl; lia | done | done |]. cbn [cursor fst snd] in Ht, Hd.
  set (r := Z.to_nat (_cursor_row s)) in *.
  split_and!; try reflexivity.
  - unfold get_text, cursor_offset. attrs.
    rewrite join_nl_app, !join_nl_cons, Ht, Hd. cbn [text_after].
    rewrite join_nl_cons. by rewrite <- !app_assoc.
  - unfold cursor_offset, offset, cursor, Py.len. attrs. cbn [fst snd].
    replace (Z.to_nat (_cursor_row s + 1)) with (S r) by lia. fold r.
    rewrite (take_S_r _ _ (take (Z.to_nat (_cursor_col s)) l)).
    + rewrite take_app_le by (rewrite length_take; lia).
      rewrite take_take, Nat.min_id.
      rewrite text_before_app, !length_app. unfold text_before at 2.
      simpl. rewrite app_nil_r, length_app, length_take. simpl.
      unfold Py.len in *. lia.
    + rewrite lookup_app_r by (rewrite length_take; lia).
      rewrite length_take.
      by replace (r - r `min` length (_lines s))%nat with 0%nat by lia.
  - attrs. unfold Py.len. rewrite length_app, !length_cons, length_take,
      length_drop. lia.
  - unfold buffer_invariant. attrs. apply valid_pos_intro.
    + unfold Py.len in *. rewrite length_app, !length_cons, length_take,
        length_drop. lia.
    + unfold Py.len. lia.
    + intros line.
      replace (Z.to_nat (_cursor_row s + 1)) with (S r) by lia.
      rewrite lookup_app_r by (rewrite length_take; lia).
      rewrite length_take.
      replace (S r - r `min` length (_lines s))%nat with 1%nat by lia.
      intros [= <-]. unfold Py.len. rewrite length_app. lia.
Qed.

(** On a buffer that satisfies the buffer invariant, [_enter] returns and
    puts into [get_text], at the cursor, a line break followed by the
    leading blanks (spaces and tabs) of the cursor's row; the cursor is left
    on the new row behind those blanks. *)
Theorem enter_breaks_and_indents (s : CodeEditor) (l : Py.str)
  (Hinv : buffer_invariant s)
  (Hl : _lines s !! Z.to_nat (_cursor_row s) = Some l) :
  let s' := exec _enter s in
  returned _enter s = Ok tt /\
  get_text s'
  = take (cursor_offset s) (get_text s)
    ++ Py.newline :: leading_indent l
    ++ drop (cursor_offset s) (get_text s) /\
  cursor s' = (_cursor_row s + 1, Py.len (leading_indent l)) /\
  cursor_offset s' = (cursor_offset s + S (length (leading_indent l)))%nat /\
  Py.len (_lines s') = Py.len (_lines s) + 1 /\
  buffer_invariant s'.
Proof. exact (enter_text s l Hinv Hl). Qed.

Lemma enter_breaks_and_indents_witness :
  buffer_invariant (set_cursor_col 1 two_sum) /\
  get_text (exec _enter (set_cursor_col 1 two_sum))
  = Py.of_string "t" ++ [Py.newline] ++ Py.of_string "wo" ++ [Py.newline]
    ++ Py.of_string "sum".
Proof.
  assert (H : buffer_invariant (set_cursor_col 1 two_sum)).
  { apply valid_pos_intro; [done | done |]. intros line [= <-]. done. }
  split; [exact H|].
  exact (proj1 (proj2 (enter_breaks_and_indents _ (Py.of_string "two") H eq_refl))).
Defined.

(** *** Typing and taking back *)

Lemma cursor_offset_le s :
  buffer_invariant s -> (cursor_offset s <= length (get_text s))%nat.
Proof.
  intros Hinv. destruct (buffer_invariant_elim s Hinv) as (l & Hr & Hl & Hc).
  destruct (text_split (_lines s) (cursor s) l) as [Ht _];
    [simpl; lia | done | done |].
  apply (f_equal length) in Ht. rewrite length_take, length_app in Ht.
  cbn [cursor fst snd] in Ht. rewrite length_take in Ht.
  unfold cursor_offset, offset, get_text, Py.len in *. cbn [cursor fst snd] in *.
  lia.
Qed.

(** [n] backspaces remove the [n] characters before the cursor. *)
Lemma backspaces_text n : forall s,
  buffer_invariant s ->
  let s' := Nat.iter n (exec _backspace) s in
  get_text s'
  = take (cursor_offset s - n) (get_text s)
    ++ drop (cursor_offset s) (get_text s) /\
  cursor_offset s' = (cursor_offset s - n)%nat /\
  buffer_invariant s'.
Proof.
  induction n as [|n IH]; intros s Hinv.
  - simpl. rewrite Nat.sub_0_r, take_drop. done.
  - rewrite Nat.iter_succ. destruct (IH s Hinv) as (Ht & Ho & Hi).
    destruct (backspace_text _ Hi) as (_ & Ht' & Ho' & Hi').
    pose proof (cursor_offset_le s Hinv) as Hle.
    split_and!; [|lia|done].
    rewrite Ht', Ho, Ht.
    rewrite take_app_le by (rewrite length_take; lia).
    rewrite take_take.
    rewrite drop_app_ge by (rewrite length_take; lia).
    rewrite length_take.
    replace (cursor_offset s - n - (cursor_offset s - n) `min` length (get_text s))%nat
      with 0%nat by lia.
    rewrite drop_0. f_equal. f_equal. lia.
Qed.

(** On a buffer that satisfies the buffer invariant: typing characters and
    then pressing backspace once for each of them gives the text and the
    cursor offset back; so does enter followed by one backspace for the line
    break and one for each blank of the indentation it copied. *)
Theorem backspace_takes_back (s : CodeEditor) (ch l : Py.str)
  (Hinv : buffer_invariant s)
  (Hl : _lines s !! Z.to_nat (_cursor_row s) = Some l) :
  (let s2 := Nat.iter (length ch) (exec _backspace)
               (exec (_insert_char ch) s) in
   get_text s2 = get_text s /\ cursor_offset s2 = cursor_offset s) /\
  (let s2 := Nat.iter (S (length (leading_indent l))) (exec _backspace)
               (exec _enter s) in
   get_text s2 = get_text s /\ cursor_offset s2 = cursor_offset s).
Proof.
  pose proof (cursor_offset_le s Hinv) as Hle.
  assert (Hlen : length (take (cursor_offset s) (get_text s)) = cursor_offset s)
    by (rewrite length_take; lia).
  split.
  - destruct (insert_char_text s ch Hinv) as (_ & Ht & _ & Ho & Hi & _).
    destruct (backspaces_text (length ch) _ Hi) as (Ht' & Ho' & _).
    intros s2. subst s2. split; [|lia].
    rewrite Ht', Ho, Ht.
    replace (cursor_offset s + length ch - length ch)%nat
      with (cursor_offset s) by lia.
    rewrite take_app_le by lia. rewrite take_take, Nat.min_id.
    rewrite drop_app_ge by lia. rewrite Hlen.
    replace (cursor_offset s + length ch - cursor_offset s)%nat
      with (length ch) by lia.
    rewrite drop_app_length. apply take_drop.
  - destruct (enter_text s l Hinv Hl) as (_ & Ht & _ & Ho & _ & Hi).
    destruct (backspaces_text (S (length (leading_indent l))) _ Hi)
      as (Ht' & Ho' & _).
    intros s2. subst s2. split; [|lia].
    rewrite Ht', Ho, Ht.
    replace (cursor_offset s + S (length (leading_indent l))
             - S (length (leading_indent l)))%nat
      with (cursor_offset s) by lia.
    rewrite take_app_le by lia. rewrite take_take, Nat.min_id.
    rewrite drop_app_ge by lia. rewrite Hlen.
    replace (cursor_offset s + S (length (leading_indent l)) - cursor_offset s)%nat
      with (S (length (leading_indent l))) by lia.
    cbn [drop]. rewrite drop_app_length. apply take_drop.
Qed.

Lemma backspace_takes_back_witness :
  buffer_invariant (set_cursor_col 1 two_sum) /\
  get_text
    (Nat.iter 2 (exec _backspace)
       (exec (_insert_char (Py.of_string "xy")) (set_cursor_col 1 two_sum)))
  = get_text (set_cursor_col 1 two_sum).
Proof.
  assert (H : buffer_invariant (set_cursor_col 1 two_sum)).
  { apply valid_pos_intro; [done | done |]. intros line [= <-]. done. }
  split; [exact H|].
  exact (proj1 (proj1 (backspace_takes_back _ (Py.of_string "xy")
                         (Py.of_string "two") H eq_refl))).
Defined.

(** *** Left and right through the text *)

Lemma move_left_run s :
  0 <= _cursor_row s < Py.len (_lines s) ->
  _move_left s
  = (Ok tt,
     if _cursor_col s >? 0 then
       set_dirty true (set_cursor_col (_cursor_col s - 1) s)
     else if _cursor_row s >? 0 then
       match _lines s !! Z.to_nat (_cursor_row s - 1) with
       | Some prev =>
           set_dirty true
             (set_cursor_col (Py.len prev)
                (set_cursor_row (_cursor_row s - 1) s))
       | None => s
       end
     else s).
Proof.
  intros Hr. unfold _move_left, bind at 1. unfold gets at 1.
  unfold bind at 1. unfold gets at 1.
  destruct (Z.gtb_spec (_cursor_col s) 0); [done|].
  destruct (Z.gtb_spec (_cursor_row s) 0); [|done].
  destruct (lookup_lt_is_Some_2 (_lines s) (Z.to_nat (_cursor_row s - 1)))
    as [prev Hp]; [unfold Py.len in *; lia|].
  rewrite Hp. unfold bind at 1. unfold modify at 1.
  unfold bind at 1. unfold cur_line_len, bind at 1. unfold gets at 1.
  cbn [_cursor_row set_cursor_row].
  unfold bind at 1.
  rewrite (lines_get_run _ _ prev) by (done || lia).
  reflexivity.
Qed.

Lemma move_right_run s l :
  0 <= _cursor_row s -> _lines s !! Z.to_nat (_cursor_row s) = Some l ->
  _move_right s
  = (Ok tt,
     if _cursor_col s <? Py.len l then
       set_dirty true (set_cursor_col (_cursor_col s + 1) s)
     else if _cursor_row s <? Py.len (_lines s) - 1 then
       set_dirty true (set_cursor_col 0 (set_cursor_row (_cursor_row s + 1) s))
     else s).
Proof.
  intros Hr Hl. unfold _move_right, bind at 1. unfold gets at 1.
  unfold bind at 1. rewrite (lines_get_run s _ l) by done.
  unfold bind, gets, modify.
  destruct (_cursor_col s <? Py.len l); [done|].
  by destruct (_cursor_row s <? Py.len (_lines s) - 1).
Qed.

Lemma move_left_text s :
  buffer_invariant s ->
  let s' := exec _move_left s in
  returned _move_left s = Ok tt /\
  _lines s' = _lines s /\
  cursor_offset s' = (cursor_offset s - 1)%nat /\
  buffer_invariant s' /\
  (cursor s <> (0, 0) -> cursor (exec _move_right s') = cursor s).
Proof.
  intros Hinv. destruct (buffer_invariant_elim s Hinv) as (l & Hr & Hl & Hc).
  intros s'. subst s'. unfold exec, returned.
  rewrite move_left_run by done. cbn [fst snd].
  destruct (Z.gtb_spec (_cursor_col s) 0) as [Hcol|Hcol];
    [|destruct (Z.gtb_spec (_cursor_row s) 0) as [Hrow|Hrow]].
  - split_and!; try reflexivity.
    + unfold cursor_offset, offset, cursor. attrs. cbn [fst snd]. lia.
    + unfold buffer_invariant. attrs. apply valid_pos_intro; [done | lia |].
      intros line Hline. assert (line = l) by congruence. subst. lia.
    + intros _. rewrite (move_right_run _ l) by (attrs; done || lia). attrs.
      destruct (Z.ltb_spec (_cursor_col s - 1) (Py.len l)); [|lia].
      unfold cursor. attrs. cbn [fst snd]. f_equal. lia.
  - destruct (lookup_lt_is_Some_2 (_lines s) (Z.to_nat (_cursor_row s - 1)))
      as [prev Hp]; [unfold Py.len in *; lia|].
    rewrite Hp.
    assert (Hrow' : Z.to_nat (_cursor_row s) = S (Z.to_nat (_cursor_row s - 1)))
      by lia.
    split_and!; try reflexivity.
    + unfold cursor_offset, offset, cursor. attrs. cbn [fst snd].
      rewrite Hrow', (text_before_take_S _ _ _ Hp), !length_app.
      unfold Py.len. simpl. lia.
    + unfold buffer_invariant. attrs.
      apply valid_pos_intro; [lia | unfold Py.len; lia |].
      intros line Hline. assert (line = prev) by congruence. subst. lia.
    + intros _. rewrite (move_right_run _ prev) by (attrs; done || lia). attrs.
      destruct (Z.ltb_spec (Py.len prev) (Py.len prev)); [lia|].
      destruct (Z.ltb_spec (_cursor_row s - 1) (Py.len (_lines s) - 1)); [|lia].
      unfold cursor. attrs. cbn [fst snd]. f_equal; lia.
  - assert (Hoff : cursor_offset s = 0%nat).
    { unfold cursor_offset, offset, cursor. cbn [fst snd].
      replace (Z.to_nat (_cursor_row s)) with 0%nat by lia.
      replace (Z.to_nat (_cursor_col s)) with 0%nat by lia. done. }
    split_and!; try done.
    + by rewrite Hoff.
    + intros Hne. exfalso. apply Hne. unfold cursor. f_equal; lia.
Qed.

Lemma move_right_text s :
  buffer_invariant s ->
  let s' := exec _move_right s in
  returned _move_right s = Ok tt /\
  _lines s' = _lines s /\
  cursor_offset s' = Nat.min (S (cursor_offset s)) (length (get_text s)) /\
  buffer_invariant s' /\
  ((cursor_offset s < length (get_text s))%nat ->
   cursor (exec _move_left s') = cursor s).
Proof.
  intros Hinv. destruct (buffer_invariant_elim s Hinv) as (l & Hr & Hl & Hc).
  pose proof (cursor_offset_le s Hinv) as Hle.
  intros s'. subst s'. unfold exec, returned.
  rewrite (move_right_run s l) by (done || lia). cbn [fst snd].
  destruct (Z.ltb_spec (_cursor_col s) (Py.len l)) as [Hcol|Hcol];
    [|destruct (Z.ltb_spec (_cursor_row s) (Py.len (_lines s) - 1))
        as [Hrow|Hrow]].
  - assert (Hv : buffer_invariant
                   (set_dirty true (set_cursor_col (_cursor_col s + 1) s))).
    { unfold buffer_invariant. attrs. apply valid_pos_intro; [done | lia |].
      intros line Hline. assert (line = l) by congruence. subst. lia. }
    pose proof (cursor_offset_le _ Hv) as Hle'.
    assert (Ho : cursor_offset
                   (set_dirty true (set_cursor_col (_cursor_col s + 1) s))
                 = S (cursor_offset s)).
    { unfold cursor_offset, offset, cursor. attrs. cbn [fst snd]. lia. }
    split_and!; try done.
    + rewrite Ho in *. unfold get_text in *. attrs. cbn [_lines] in Hle'.
      change (_lines (set_dirty true (set_cursor_col (_cursor_col s + 1) s)))
        with (_lines s) in Hle'. lia.
    + intros _. rewrite move_left_run by done. attrs.
      destruct (Z.gtb_spec (_cursor_col s + 1) 0); [|lia].
      unfold cursor. attrs. cbn [fst snd]. f_equal. lia.
  - destruct (lookup_lt_is_Some_2 (_lines s) (S (Z.to_nat (_cursor_row s))))
      as [next Hn]; [unfold Py.len in *; lia|].
    set (s1 := set_dirty true
                 (set_cursor_col 0 (set_cursor_row (_cursor_row s + 1) s))).
    assert (Hv : buffer_invariant s1).
    { unfold buffer_invariant, s1. attrs.
      apply valid_pos_intro; [lia | lia |].
      intros line Hline. unfold Py.len. lia. }
    pose proof (cursor_offset_le _ Hv) as Hle'.
    assert (Ho : cursor_offset s1 = S (cursor_offset s)).
    { unfold cursor_offset, offset, cursor, s1. attrs. cbn [fst snd].
      replace (Z.to_nat (_cursor_row s + 1)) with (S (Z.to_nat (_cursor_row s)))
        by lia.
      rewrite (text_before_take_S _ _ _ Hl), !length_app.
      unfold Py.len in *. simpl. lia. }
    split_and!; try done.
    + rewrite Ho in *.
      change (get_text s1) with (get_text s) in Hle'. lia.
    + intros _. rewrite move_left_run by (unfold s1; attrs; lia).
      unfold s1. attrs.
      destruct (Z.gtb_spec 0 0); [lia|].
      destruct (Z.gtb_spec (_cursor_row s + 1) 0); [|lia].
      replace (_cursor_row s + 1 - 1) with (_cursor_row s) by lia.
      rewrite Hl. unfold cursor. attrs. cbn [fst snd]. f_equal. lia.
  - assert (Hoff : cursor_offset s = length (get_text s)).
    { unfold get_text, cursor_offset, offset, cursor. cbn [fst snd].
      rewrite (get_text_at _ _ l Hl).
      rewrite (drop_ge (_lines s)) by (unfold Py.len in *; lia).
      cbn [text_after]. rewrite app_nil_r, length_app.
      unfold Py.len in *. lia. }
    split_and!; try done; lia.
Qed.

(** On a buffer that satisfies the buffer invariant, [_move_left] and
    [_move_right] return, keep the lines and move the cursor by one character
    of [get_text], over a line break too; at the start and at the end of the
    text they stay. Unless the cursor was at the start, [_move_right] after
    [_move_left] brings it back; unless it was at the end, so does
    [_move_left] after [_move_right]. *)
Theorem left_right_move_by_one (s : CodeEditor) (Hinv : buffer_invariant s) :
  let sl := exec _move_left s in
  let sr := exec _move_right s in
  returned _move_left s = Ok tt /\ returned _move_right s = Ok tt /\
  _lines sl = _lines s /\ _lines sr = _lines s /\
  cursor_offset sl = (cursor_offset s - 1)%nat /\
  cursor_offset sr = Nat.min (S (cursor_offset s)) (length (get_text s)) /\
  buffer_invariant sl /\ buffer_invariant sr /\
  (cursor s <> (0, 0) -> cursor (exec _move_right sl) = cursor s) /\
  ((cursor_offset s < length (get_text s))%nat ->
   cursor (exec _move_left sr) = cursor s).
Proof.
  destruct (move_left_text s Hinv) as (? & ? & ? & ? & ?).
  destruct (move_right_text s Hinv) as (? & ? & ? & ? & ?).
  intros sl sr. by split_and!.
Qed.

Lemma left_right_move_by_one_witness :
  buffer_invariant (set_cursor_row 1 two_sum) /\
  returned _move_left (set_cursor_row 1 two_sum) = Ok tt.
Proof.
  assert (H : buffer_invariant (set_cursor_row 1 two_sum)).
  { apply valid_pos_intro; [done | done |]. intros line [= <-]. done. }
  split; [exact H|].
  exact (proj1 (left_right_move_by_one _ H)).
Defined.

(** *** Where the word movements stop *)

(** A loop to the right has passed only columns where its condition held. *)
Lemma col_loop_right_run cond : forall fuel col c,
  col_loop fuel cond 1 col = Some c ->
  col <= c /\ forall i, col <= i < c -> cond i = Some true.
Proof.
  induction fuel as [|fuel IH]; intros col c; simpl.
  - intros [= <-]. split; [lia|]. intros i Hi. lia.
  - destruct (cond col) as [[|]|] eqn:E; [| |done].
    + intros H. destruct (IH _ _ H) as [Hc Hi]. split; [lia|].
      intros i Hr. destruct (Z.eq_dec i col) as [->|]; [done|].
      apply Hi. lia.
    + intros [= <-]. split; [lia|]. intros i Hi. lia.
Qed.

(** A loop to the left has passed only columns where its condition held. *)
Lemma col_loop_left_run cond : forall fuel col c,
  col_loop fuel cond (-1) col = Some c ->
  c <= col /\ forall i, c < i <= col -> cond i = Some true.
Proof.
  induction fuel as [|fuel IH]; intros col c; simpl.
  - intros [= <-]. split; [lia|]. intros i Hi. lia.
  - destruct (cond col) as [[|]|] eqn:E; [| |done].
    + intros H. destruct (IH _ _ H) as [Hc Hi]. split; [lia|].
      intros i Hr. destruct (Z.eq_dec i col) as [->|]; [done|].
      apply Hi. lia.
    + intros [= <-]. split; [lia|]. intros i Hi. lia.
Qed.

Lemma cond_right_word_true line i :
  cond_right_word line i = Some true -> word_at line i = Some true.
Proof. unfold cond_right_word. by destruct (i <? Py.len line). Qed.

Lemma cond_right_other_true line i :
  cond_right_other line i = Some true -> word_at line i = Some false.
Proof.
  unfold cond_right_other. destruct (i <? Py.len line); [|done].
  by destruct (word_at line i) as [[|]|].
Qed.

Lemma cond_right_word_false line i :
  cond_right_word line i = Some false ->
  Py.len line <= i \/ word_at line i = Some false.
Proof.
  unfold cond_right_word. destruct (Z.ltb_spec i (Py.len line)); [by right|].
  intros _. by left.
Qed.

Lemma cond_right_other_false line i :
  cond_right_other line i = Some false ->
  Py.len line <= i \/ word_at line i = Some true.
Proof.
  unfold cond_right_other. destruct (Z.ltb_spec i (Py.len line)); [|by left].
  destruct (word_at line i) as [[|]|]; [by right|done..].
Qed.

(** The column [word_right_col] returns: a run of word characters is
    passed, then a run of other characters. *)
Lemma word_right_col_spec (l : Py.str) col c :
  word_right_col l col = Some c ->
  exists m, col <= m <= c /\
    (forall i, col <= i < m -> word_at l i = Some true) /\
    (Py.len l <= m \/ word_at l m = Some false) /\
    (forall i, m <= i < c -> word_at l i = Some false) /\
    (Py.len l <= c \/ word_at l c = Some true).
Proof.
  unfold word_right_col.
  destruct (col_loop _ (cond_right_word l) 1 col) as [m|] eqn:E1; [|done].
  intros E2. exists m.
  destruct (col_loop_right_run _ _ _ _ E1) as [Hm Hw].
  destruct (col_loop_right_run _ _ _ _ E2) as [Hc Ho].
  pose proof (col_loop_right_end _ l _ _ _ (cond_right_word_end l) eq_refl E1)
    as Hend1.
  pose proof (col_loop_right_end _ l _ _ _ (cond_right_other_end l) eq_refl E2)
    as Hend2.
  split_and!; try lia.
  - intros i Hi. by apply cond_right_word_true, Hw.
  - by apply cond_right_word_false.
  - intros i Hi. by apply cond_right_other_true, Ho.
  - by apply cond_right_other_false.
Qed.

Lemma cond_left_other_true' line i :
  cond_left_other line i = Some true -> word_at line i = Some false.
Proof.
  unfold cond_left_other. destruct (i >? 0); [|done].
  by destruct (word_at line i) as [[|]|].
Qed.

Lemma cond_left_word_true' line i :
  cond_left_word line i = Some true -> word_at line (i - 1) = Some true.
Proof. unfold cond_left_word. by destruct (i >? 0). Qed.

Lemma cond_left_other_false line i :
  cond_left_other line i = Some false -> i <= 0 \/ word_at line i = Some true.
Proof.
  unfold cond_left_other. rewrite Z.gtb_ltb.
  destruct (Z.ltb_spec 0 i); [|by left].
  destruct (word_at line i) as [[|]|]; [by right|done..].
Qed.

Lemma cond_left_word_false line i :
  cond_left_word line i = Some false ->
  i <= 0 \/ word_at line (i - 1) = Some false.
Proof.
  unfold cond_left_word. rewrite Z.gtb_ltb.
  destruct (Z.ltb_spec 0 i); [by right|]. intros _. by left.
Qed.

(** The column [word_left_col] returns: a run of other characters is
    passed, then the word in front of it, up to its first character. *)
Lemma word_left_col_spec (l : Py.str) col c :
  word_left_col l col = Some c ->
  exists m, c <= m <= col /\
    (forall i, m < i <= col -> word_at l i = Some false) /\
    (m <= 0 \/ word_at l m = Some true) /\
    (forall i, c < i <= m -> word_at l (i - 1) = Some true) /\
    (c <= 0 \/ word_at l (c - 1) = Some false).
Proof.
  unfold word_left_col.
  destruct (col_loop _ (cond_left_other l) (-1) col) as [m|] eqn:E1; [|done].
  intros E2. exists m.
  destruct (col_loop_left_run _ _ _ _ E1) as [Hm Hw].
  destruct (col_loop_left_run _ _ _ _ E2) as [Hc Ho].
  pose proof (col_loop_left_end _ _ _ _ (cond_left_other_end l) eq_refl E1)
    as Hend1.
  pose proof (col_loop_left_end _ _ _ _ (cond_left_word_end l) eq_refl E2)
    as Hend2.
  split_and!; try lia.
  - intros i Hi. by apply cond_left_other_true', Hw.
  - by apply cond_left_other_false.
  - intros i Hi. by apply cond_left_word_true', Ho.
  - by apply cond_left_word_false.
Qed.

Lemma move_word_right_run s l c :
  0 <= _cursor_row s -> _lines s !! Z.to_nat (_cursor_row s) = Some l ->
  _cursor_col s < Py.len l ->
  word_right_col l (_cursor_col s) = Some c ->
  _move_word_right s = (Ok tt, set_dirty true (set_cursor_col c s)).
Proof.
  intros Hr Hl Hcol Hc. unfold _move_word_right, bind at 1. unfold gets at 1.
  unfold bind at 1. rewrite (lines_get_run s _ l) by done.
  unfold bind at 1. unfold gets at 1. unfold bind at 1. unfold gets at 1.
  destruct (Z.ltb_spec (_cursor_col s) (Py.len l)); [|lia].
  rewrite Hc. reflexivity.
Qed.

Lemma move_word_left_run s l c :
  0 <= _cursor_row s -> _lines s !! Z.to_nat (_cursor_row s) = Some l ->
  0 < _cursor_col s ->
  word_left_col l (_cursor_col s - 1) = Some c ->
  _move_word_left s = (Ok tt, set_dirty true (set_cursor_col c s)).
Proof.
  intros Hr Hl Hcol Hc. unfold _move_word_left, bind at 1. unfold gets at 1.
  unfold bind at 1. unfold gets at 1.
  destruct (Z.gtb_spec (_cursor_col s) 0); [|lia].
  unfold bind at 1. unfold bind at 1.
  rewrite (lines_get_run s _ l) by done.
  unfold bind at 1. rewrite Hc. reflexivity.
Qed.

(** On a buffer that satisfies the buffer invariant, with the cursor before
    the end of its row, [_move_word_right] returns and moves the cursor
    within the row: it passes the word characters (letters, digits and
    underscores) from the cursor on, then the other characters that follow,
    and stops at the end of the row or at the first character of the next
    word. *)
Theorem word_right_stops_at_next_word (s : CodeEditor) (l : Py.str)
  (Hinv : buffer_invariant s)
  (Hl : _lines s !! Z.to_nat (_cursor_row s) = Some l)
  (Hcol : _cursor_col s < Py.len l) :
  let s' := exec _move_word_right s in
  returned _move_word_right s = Ok tt /\
  _lines s' = _lines s /\ _cursor_row s' = _cursor_row s /\
  exists m,
    _cursor_col s <= m <= _cursor_col s' /\ _cursor_col s' <= Py.len l /\
    (forall i, _cursor_col s <= i < m -> word_at l i = Some true) /\
    (m = Py.len l \/ word_at l m = Some false) /\
    (forall i, m <= i < _cursor_col s' -> word_at l i = Some false) /\
    (_cursor_col s' = Py.len l \/ word_at l (_cursor_col s') = Some true).
Proof.
  destruct (buffer_invariant_elim s Hinv) as (l' & Hr & Hl' & Hc).
  assert (l' = l) by congruence. subst l'. clear Hl'.
  destruct (word_right_col_in_line l (_cursor_col s)) as (c & Hw & Hcl); [lia|].
  destruct (word_right_col_spec _ _ _ Hw) as (m & Hm & H1 & H2 & H3 & H4).
  intros s'. subst s'. unfold exec, returned.
  rewrite (move_word_right_run s l c) by (done || lia). cbn [fst snd]. attrs.
  split_and!; try done. exists m. split_and!; try done; try lia.
  - destruct H2; [left; lia | by right].
  - destruct H4; [left; lia | by right].
Qed.

Lemma word_right_stops_at_next_word_witness :
  buffer_invariant two_sum /\
  _cursor_row (exec _move_word_right two_sum) = _cursor_row two_sum.
Proof.
  assert (H : buffer_invariant two_sum).
  { apply valid_pos_intro; [done | done |]. intros line [= <-]. done. }
  split; [exact H|].
  assert (Hc : _cursor_col two_sum < Py.len (Py.of_string "two")) by done.
  exact (proj1 (proj2 (proj2
    (word_right_stops_at_next_word two_sum (Py.of_string "two") H eq_refl Hc)))).
Defined.

(** On a buffer that satisfies the buffer invariant, with the cursor after
    the start of its row, [_move_word_left] returns and moves the cursor
    within the row: starting at the character before the cursor it passes
    the characters that are no word characters, then the word in front of
    them, and stops at the start of the row or at the first character of
    that word. *)
Theorem word_left_stops_at_word_start (s : CodeEditor) (l : Py.str)
  (Hinv : buffer_invariant s)
  (Hl : _lines s !! Z.to_nat (_cursor_row s) = Some l)
  (Hcol : 0 < _cursor_col s) :
  let s' := exec _move_word_left s in
  returned _move_word_left s = Ok tt /\
  _lines s' = _lines s /\ _cursor_row s' = _cursor_row s /\
  exists m,
    0 <= _cursor_col s' <= m /\ m <= _cursor_col s - 1 /\
    (forall i, m < i <= _cursor_col s - 1 -> word_at l i = Some false) /\
    (m = 0 \/ word_at l m = Some true) /\
    (forall i, _cursor_col s' <= i < m -> word_at l i = Some true) /\
    (_cursor_col s' = 0 \/ word_at l (_cursor_col s' - 1) = Some false).
Proof.
  destruct (buffer_invariant_elim s Hinv) as (l' & Hr & Hl' & Hc).
  assert (l' = l) by congruence. subst l'. clear Hl'.
  destruct (word_left_col_in_line l (_cursor_col s - 1)) as (c & Hw & Hcl);
    [lia|].
  destruct (word_left_col_spec _ _ _ Hw) as (m & Hm & H1 & H2 & H3 & H4).
  intros s'. subst s'. unfold exec, returned.
  rewrite (move_word_left_run s l c) by (done || lia). cbn [fst snd]. attrs.
  split_and!; try done. exists m. split_and!; try done; try lia.
  - destruct H2; [left; lia | by right].
  - intros i Hi. replace i with (i + 1 - 1) by lia. apply H3. lia.
  - destruct H4; [left; lia | by right].
Qed.

Lemma word_left_stops_at_word_start_witness :
  buffer_invariant (set_cursor_col 3 two_sum) /\
  _cursor_row (exec _move_word_left (set_cursor_col 3 two_sum)) = 0.
Proof.
  assert (H : buffer_invariant (set_cursor_col 3 two_sum)).
  { apply valid_pos_intro; [done | done |]. intros line [= <-]. done. }
  split; [exact H|].
  assert (Hc : 0 < _cursor_col (set_cursor_col 3 two_sum)) by done.
  exact (proj1 (proj2 (proj2
    (word_left_stops_at_word_start _ (Py.of_string "two") H eq_refl Hc)))).
Defined.

(** *** Token colors *)

(** A token type that has no entry in [_TOKEN_COLORS] gets the color of its
    parent: the walk of [_get_color] goes on from there. *)
Theorem get_color_inherits (tt : token_type) (n : string)
  (Hmiss : table_get (tt ++ [n]) _TOKEN_COLORS = None) :
  _get_color (tt ++ [n]) = _get_color tt.
Proof.
  unfold _get_color. rewrite length_app. cbn [length].
  replace (S (length tt + 1)) with (S (S (length tt))) by lia.
  cbn [_get_color_loop]. rewrite truthy_snoc, Hmiss.
  unfold parent. by rewrite removelast_last.
Qed.

Lemma get_color_inherits_witness :
  table_get (["Keyword"; "Other"]%string) _TOKEN_COLORS = None /\
  _get_color (["Keyword"; "Other"]%string) = "cyan"%string.
Proof.
  assert (H : table_get ([ "Keyword"%string ] ++ [ "Other"%string ])
                _TOKEN_COLORS = None) by reflexivity.
  split; [exact H|].
  exact (eq_trans (get_color_inherits _ _ H) eq_refl).
Defined.

(** *** The keys the editor consumes *)

Lemma returns_true_bind {A} (m : M A) (k : A -> M bool) :
  (forall a, hoare (fun _ => True) (k a) (fun b _ => b = true) (fun _ => True)) ->
  hoare (fun _ => True) (bind m k) (fun b _ => b = true) (fun _ => True).
Proof.
  intros Hk. eapply hoare_bind with (Q := fun _ _ => True); [|done].
  apply hoare_any.
Qed.

Ltac returns_true :=
  repeat first
    [ apply returns_true_bind; intros ?
    | by apply hoare_ret
    | match goal with
      | |- hoare _ (if ?b then _ else _) _ _ => destruct b
      | |- hoare _ (match ?x with _ => _ end) _ _ => destruct x
      end ].

(** [handle_key] returns [False] exactly for the keys it has no branch for:
    a key with no name it knows that is a sequence or has no characters. It
    leaves the editor as it was then. For every other key it returns [True]
    or raises. *)
Theorem handle_key_consumes (s : CodeEditor) (k : Keystroke) :
  (is_handled_key k = false -> handle_key k s = (Ok false, s)) /\
  (is_handled_key k = true -> returned (handle_key k) s <> Ok false).
Proof.
  split.
  - intros Hk. unfold is_handled_key in Hk.
    apply orb_false_elim in Hk as [Hk He]. apply orb_false_elim in Hk as [Hm Hh].
    unfold handle_key.
    repeat match goal with
           | |- (if ?b then _ else _) _ = _ => destruct b eqn:?
           end; try reflexivity.
    all: exfalso.
    all: unfold is_editing_key in He; rewrite Hm, Hh in He; simpl in He.
    all: unfold is_movement_key, is_history_key, movement_names,
           editing_names in *;
         repeat rewrite name_in_cons in *;
         repeat match goal with
                | E : (_ || _) = false |- _ =>
                    apply orb_false_elim in E; destruct E
                end;
         repeat match goal with
                | E : (_ || _) = true |- _ =>
                    apply orb_true_iff in E; destruct E
                end;
         congruence.
  - intros Hk.
    assert (H : hoare (fun _ => True) (handle_key k)
                  (fun b _ => b = true) (fun _ => True)).
    { unfold handle_key.
      repeat match goal with
             | |- hoare _ (if ?b then _ else _) _ _ => destruct b eqn:?
             end.
      all: try (returns_true; fail).
      exfalso. unfold is_handled_key, is_editing_key, is_movement_key,
        is_history_key, movement_names, editing_names in Hk.
      repeat rewrite name_in_cons in Hk.
      repeat match goal with
             | E : (_ || _) = false |- _ =>
                 apply orb_false_elim in E; destruct E
             end.
      repeat match goal with
             | E : _ = false |- _ => rewrite E in Hk
             end.
      simpl in Hk. discriminate. }
    specialize (H s I). unfold returned.
    destruct (handle_key k s) as [[b|] s']; [|done]. simpl. by subst b.
Qed.

(** *** The anchor under the movement keys *)

Section Anchor.
Variable a : option pos.

Lemma moves_keep_anchor :
  inv (fun s => _sel_anchor s = a) _move_up /\
  inv (fun s => _sel_anchor s = a) _move_down /\
  inv (fun s => _sel_anchor s = a) _move_left /\
  inv (fun s => _sel_anchor s = a) _move_right /\
  inv (fun s => _sel_anchor s = a) _move_word_left /\
  inv (fun s => _sel_anchor s = a) _move_word_right /\
  inv (fun s => _sel_anchor s = a) _page_up /\
  inv (fun s => _sel_anchor s = a) _page_down /\
  inv (fun s => _sel_anchor s = a) cur_line_len.
Proof.
  split_and!; unfold _move_up, _move_down, _move_left, _move_right,
    _move_word_left, _move_word_right, _page_up, _page_down, cur_line_len,
    lines_get; inv_auto.
Qed.
End Anchor.

Lemma collapse_to_no_anchor pick :
  hoare (fun _ => True) (collapse_to pick)
    (fun _ s => _sel_anchor s = None) (fun s => _sel_anchor s = None).
Proof. intros s _. unfold collapse_to. run; done. Qed.

(** A Shift movement key sets the anchor at the cursor when none is set and
    leaves a set anchor where it is; every other movement key leaves no
    anchor. This holds also when the movement raises. *)
Theorem movement_key_anchor (s : CodeEditor) (k : Keystroke)
  (Hk : is_movement_key k = true) :
  _sel_anchor (exec (handle_key k) s)
  = if name_in k selection_keys
    then Some (default (cursor s) (_sel_anchor s))
    else None.
Proof.
  set (a := if name_in k selection_keys
            then Some (default (cursor s) (_sel_anchor s)) else None).
  destruct (moves_keep_anchor a) as (Hu & Hd & Hl & Hr & Hwl & Hwr & Hpu & Hpd & Hc).
  assert (H : hoare (fun s0 => s0 = s) (handle_key k)
                (fun _ s' => _sel_anchor s' = a) (fun s' => _sel_anchor s' = a)).
  { unfold handle_key.
    destruct (name_in k selection_keys) eqn:Hsel.
    - eapply hoare_bind with (Q := fun an s0 => s0 = s /\ an = _sel_anchor s).
      { by intros ? ->. }
      intros an.
      eapply hoare_bind with (Q := fun _ s' => _sel_anchor s' = a).
      { intros s0 [-> ->]. subst a. unfold cursor.
        by destruct (_sel_anchor s) eqn:E. }
      intros _.
      eapply hoare_bind with (Q := fun _ s' => _sel_anchor s' = a);
        [|intros ?; by apply hoare_ret].
      repeat match goal with
             | |- hoare _ (if ?b then _ else _) _ _ => destruct b
             end; try assumption.
      all: match goal with |- hoare ?P ?m _ _ => change (inv P m) end.
      all: inv_auto; exact Hc.
    - assert (Hnone : forall (m : M unit),
                 inv (fun s => _sel_anchor s = a) m ->
                 hoare (fun s0 => s0 = s)
                   (modify (set_sel_anchor None) ;; m ;; ret true)
                   (fun _ s' => _sel_anchor s' = a)
                   (fun s' => _sel_anchor s' = a)).
      { intros m Hm.
        eapply hoare_bind with (Q := fun _ s' => _sel_anchor s' = a);
          [by intros ? ->|].
        intros ?. eapply hoare_bind; [apply Hm|]. intros ?. by apply hoare_ret. }
      repeat match goal with
             | |- hoare _ (if ?b then _ else _) _ _ => destruct b eqn:?
             end.
      all: try (apply Hnone; assumption).
      all: try (exfalso; key_cases Hk).
      + (* KEY_LEFT *)
        eapply hoare_bind with (Q := fun an s0 => s0 = s /\ an = _sel_anchor s);
          [by intros ? ->|].
        intros [p|].
        * eapply hoare_bind with (Q := fun _ s' => _sel_anchor s' = a);
            [|intros ?; by apply hoare_ret].
          eapply hoare_conseq; [apply collapse_to_no_anchor|..]; done.
        * eapply hoare_bind with (Q := fun _ s' => _sel_anchor s' = a);
            [|intros ?; by apply hoare_ret].
          eapply hoare_conseq; [apply Hl|..]; try done.
          by intros ? [-> <-].
      + (* KEY_RIGHT *)
        eapply hoare_bind with (Q := fun an s0 => s0 = s /\ an = _sel_anchor s);
          [by intros ? ->|].
        intros [p|].
        * eapply hoare_bind with (Q := fun _ s' => _sel_anchor s' = a);
            [|intros ?; by apply hoare_ret].
          eapply hoare_conseq; [apply collapse_to_no_anchor|..]; done.
        * eapply hoare_bind with (Q := fun _ s' => _sel_anchor s' = a);
            [|intros ?; by apply hoare_ret].
          eapply hoare_conseq; [apply Hr|..]; try done.
          by intros ? [-> <-].
      + (* KEY_HOME *)
        eapply hoare_bind with (Q := fun _ s' => _sel_anchor s' = a);
          [by intros ? ->|]. intros ?.
        match goal with |- hoare ?P ?m _ _ => change (inv P m) end. inv_auto.
      + (* KEY_END *)
        eapply hoare_bind with (Q := fun _ s' => _sel_anchor s' = a);
          [by intros ? ->|]. intros ?.
        match goal with |- hoare ?P ?m _ _ => change (inv P m) end.
        inv_auto. exact Hc. }
  specialize (H s eq_refl). unfold exec.
  by destruct (handle_key k s) as [[b|] s'].
Qed.

Lemma movement_key_anchor_witness :
  is_movement_key (named "kRIT2") = true /\
  _sel_anchor (exec (handle_key (named "kRIT2")) two_sum) = Some (0, 0).
Proof.
  split; [reflexivity|].
  exact (movement_key_anchor two_sum (named "kRIT2") eq_refl).
Defined.

(** *** Rendering again *)

Section RenderAgain.
Variable lex : string -> Py.str -> list (token_type * Py.str).

Lemma render_exec s x y width height :
  render lex x y width height s
  = (Ok tt,
     set_dirty false
       (set_scroll_col (scrolled_col s width)
          (set_scroll_row (scrolled_row s height)
             (set_gutter_width (gutter_of s) (exec (_rehighlight lex) s))))).
Proof.
  unfold exec, render, scrolled_row, scrolled_col, gutter_of, bind.
  destruct (rehighlight_run lex s) as (hl & d & -> & _).
  unfold gets, modify, ret. attrs.
  destruct (_cursor_row s <? _scroll_row s);
    [|destruct (_cursor_row s >=? _scroll_row s + height)];
    attrs;
    (destruct (_cursor_col s <? _scroll_col s);
     [|destruct (_cursor_col s >=? _scroll_col s + _)]);
    attrs; destruct s; reflexivity.
Qed.

Lemma rehighlight_exec_clean s :
  _highlight_dirty (exec (_rehighlight lex) s) = false /\
  _lines (exec (_rehighlight lex) s) = _lines s /\
  cursor (exec (_rehighlight lex) s) = cursor s /\
  _scroll_row (exec (_rehighlight lex) s) = _scroll_row s /\
  _scroll_col (exec (_rehighlight lex) s) = _scroll_col s.
Proof.
  unfold exec. destruct (_highlight_dirty s) eqn:Hd.
  - by rewrite rehighlight_dirty.
  - by rewrite rehighlight_clean.
Qed.

Lemma render_again s x y width height :
  1 <= height -> gutter_of s < width ->
  render lex x y width height (exec (render lex x y width height) s)
  = (Ok tt, exec (render lex x y width height) s).
Proof.
  intros Hh Hw. unfold exec at 1 2. rewrite !render_exec. cbn [snd].
  set (s1 := exec (_rehighlight lex) s).
  destruct (rehighlight_exec_clean s) as (Hd & Hl & Hc & Hsr & Hsc).
  fold s1 in Hd, Hl, Hc, Hsr, Hsc.
  set (s2 := set_dirty false
               (set_scroll_col (scrolled_col s width)
                  (set_scroll_row (scrolled_row s height)
                     (set_gutter_width (gutter_of s) s1)))).
  assert (Hre : exec (_rehighlight lex) s2 = s2).
  { unfold exec. by rewrite rehighlight_clean by (subst s2; attrs; exact Hd). }
  rewrite Hre.
  assert (Hg : gutter_of s2 = gutter_of s) by (unfold gutter_of; by rewrite <- Hl).
  assert (Hrow : scrolled_row s2 height = scrolled_row s height).
  { unfold scrolled_row at 1. subst s2. attrs.
    injection Hc as Hcr Hcc. rewrite Hcr.
    unfold scrolled_row.
    destruct (Z.ltb_spec (_cursor_row s) (_scroll_row s));
      [|destruct (Z.geb_spec (_cursor_row s) (_scroll_row s + height))].
    - rewrite Z.ltb_irrefl. destruct (Z.geb_spec (_cursor_row s) (_cursor_row s + height)); [lia|done].
    - destruct (Z.ltb_spec (_cursor_row s) (_cursor_row s - height + 1)); [lia|].
      destruct (Z.geb_spec (_cursor_row s) (_cursor_row s - height + 1 + height)); [lia|done].
    - destruct (Z.ltb_spec (_cursor_row s) (_scroll_row s)); [lia|].
      destruct (Z.geb_spec (_cursor_row s) (_scroll_row s + height)); [lia|done]. }
  assert (Hcol : scrolled_col s2 width = scrolled_col s width).
  { unfold scrolled_col at 1. rewrite Hg. subst s2. attrs.
    injection Hc as Hcr Hcc. rewrite Hcc.
    unfold scrolled_col.
    set (cw := width - gutter_of s). assert (1 <= cw) by (subst cw; lia).
    destruct (Z.ltb_spec (_cursor_col s) (_scroll_col s));
      [|destruct (Z.geb_spec (_cursor_col s) (_scroll_col s + cw))].
    - rewrite Z.ltb_irrefl. destruct (Z.geb_spec (_cursor_col s) (_cursor_col s + cw)); [lia|done].
    - destruct (Z.ltb_spec (_cursor_col s) (_cursor_col s - cw + 1)); [lia|].
      destruct (Z.geb_spec (_cursor_col s) (_cursor_col s - cw + 1 + cw)); [lia|done].
    - destruct (Z.ltb_spec (_cursor_col s) (_scroll_col s)); [lia|].
      destruct (Z.geb_spec (_cursor_col s) (_scroll_col s + cw)); [lia|done]. }
  rewrite Hg, Hrow, Hcol. subst s2. by destruct s1.
Qed.

(** With a height of at least one row and a width greater than the gutter
    width, a second [render] with the same rectangle returns and changes
    nothing: the scroll offsets, the gutter width and the highlight cache
    are where the first [render] put them. *)
Theorem render_is_idempotent (s : CodeEditor) (x y width height : Z)
  (Hh : 1 <= height) (Hw : gutter_of s < width) :
  render lex x y width height (exec (render lex x y width height) s)
  = (Ok tt, exec (render lex x y width height) s).
Proof. exact (render_again s x y width height Hh Hw). Qed.

End RenderAgain.

Lemma render_is_idempotent_witness :
  1 <= 24 /\ gutter_of two_sum < 80 /\
  render text_lexer 0 0 80 24 (exec (render text_lexer 0 0 80 24) two_sum)
  = (Ok tt, exec (render text_lexer 0 0 80 24) two_sum).
Proof.
  assert (H1 : 1 <= 24) by lia.
  assert (H2 : gutter_of two_sum < 80) by (vm_compute; reflexivity).
  split; [exact H1|]. split; [exact H2|].
  exact (render_is_idempotent text_lexer two_sum 0 0 80 24 H1 H2).
Defined.

(** *** After any sequence of calls *)

(** After every sequence of calls on a new editor ([handle_key] with keys
    that insert no line break: a key that reaches the insertion of its
    characters holds none; [set_text], [set_language], [render]), whether
    they returned or raised: the buffer has at least one line, no line
    holds a line break, so that the lines are the split of [get_text], and
    the cursor and the scroll offsets are not negative. *)
Theorem buffer_is_never_empty
  (lex : string -> Py.str -> list (token_type * Py.str)) (lang : string)
  (cs : list call) (Hcs : Forall call_ok cs) :
  let s := do_calls lex cs (init lang) in
  _lines s <> [] /\ Forall is_line (_lines s) /\
  Py.split_nl (get_text s) = _lines s /\
  0 <= _cursor_row s /\ 0 <= _cursor_col s /\
  0 <= _scroll_row s /\ 0 <= _scroll_col s.
Proof.
  intros s. destruct (reachable_lower lex lang cs Hcs)
    as ([Hne Hls] & [Hr Hc] & _ & [Hsr Hsc] & _).
  fold s in Hne, Hls, Hr, Hc, Hsr, Hsc.
  split_and!; try done. by apply split_join.
Qed.

Lemma buffer_is_never_empty_witness :
  Forall call_ok [CallKey (named "KEY_BACKSPACE"); CallKey (named "KEY_DELETE")] /\
  _lines (do_calls text_lexer
            [CallKey (named "KEY_BACKSPACE"); CallKey (named "KEY_DELETE")]
            (init "python")) <> [].
Proof.
  assert (H : Forall call_ok
                [CallKey (named "KEY_BACKSPACE"); CallKey (named "KEY_DELETE")]).
  { repeat constructor. }
  split; [exact H|].
  exact (proj1 (buffer_is_never_empty text_lexer "python" _ H)).
Defined.

(** A key pressed on a well-formed editor (cursor, anchor and snapshots are
    positions of their buffers) never raises, and leaves the cursor and the
    snapshots positions of their buffers. The editor stays well-formed
    unless the key is an editing key pressed while an anchor stands on the
    cursor. *)
Theorem key_on_well_formed_editor (s : CodeEditor) (k : Keystroke)
  (HW : well_formed s) :
  let s' := exec (handle_key k) s in
  returned (handle_key k) s <> IndexError /\
  buffers_valid s' /\
  (is_editing_key k = false \/ ~ anchor_on_cursor s -> well_formed s').
Proof.
  intros s'. subst s'. pose proof (handle_key_outcome s k HW) as H.
  unfold key_outcome, exec, returned in *.
  destruct (handle_key k s) as [[b|] s1]; [|done]. cbn [fst snd].
  destruct H as [Hb Ha]. split_and!; [done | done |].
  intros Hc. split; [done | by apply Ha].
Qed.

Lemma key_on_well_formed_editor_witness :
  well_formed two_sum /\
  returned (handle_key (named "KEY_DELETE")) two_sum <> IndexError.
Proof.
  assert (H : well_formed two_sum).
  { split; [split; [|by split]|by intros a [=]].
    apply valid_pos_intro; [done | done |]. intros line [= <-]. done. }
  split; [exact H|].
  exact (proj1 (key_on_well_formed_editor two_sum (named "KEY_DELETE") H)).
Defined.

(** After every sequence of calls on a new editor in which no editing key
    is pressed while an anchor stands on the cursor, the cursor, the anchor
    and every snapshot of the two stacks are positions of their buffers. *)
Theorem careful_calls_keep_editor_well_formed
  (lex : string -> Py.str -> list (token_type * Py.str)) (lang : string)
  (cs : list call) (Hcs : careful lex cs (init lang)) :
  let s := do_calls lex cs (init lang) in
  buffer_invariant s /\ anchor_valid s /\
  Forall snapshot_valid (_undo_stack s) /\
  Forall snapshot_valid (_redo_stack s).
Proof.
  intros s. destruct (reachable_well_formed lex lang cs Hcs)
    as [(Hb & Hu & Hr) Ha]. by split_and!.
Qed.

Lemma careful_calls_keep_editor_well_formed_witness :
  careful text_lexer
    [CallKey (char_key "a"); CallKey (named "kLFT2");
     CallKey (named "KEY_BACKSPACE")] (init "python") /\
  buffer_invariant
    (do_calls text_lexer
       [CallKey (char_key "a"); CallKey (named "kLFT2");
        CallKey (named "KEY_BACKSPACE")] (init "python")).
Proof.
  assert (H : careful text_lexer
                [CallKey (char_key "a"); CallKey (named "kLFT2");
                 CallKey (named "KEY_BACKSPACE")] (init "python")).
  { cbn [careful careful_call]. by split_and!. }
  split; [exact H|].
  exact (proj1 (careful_calls_keep_editor_well_formed text_lexer "python" _ H)).
Defined.

(** After every sequence of calls on a new editor that ends with a
    [render], with keys that insert no line break (a key that reaches the
    insertion of its characters holds none) and a lexer whose tokens spell
    the text they were made from: the highlight cache is not dirty, has one
    list per buffer line, and the fragments of each list spell that line.
    No edit leaves a stale cache to a later [render]. *)
Theorem rendered_cache_spells_buffer
  (lex : string -> Py.str -> list (token_type * Py.str)) (lang : string)
  (cs : list call) (x y width height : Z)
  (Hlex : lexer_spells lex) (Hcs : Forall call_ok cs) :
  let s := do_calls lex (cs ++ [CallRender x y width height]) (init lang) in
  _highlight_dirty s = false /\
  map line_text (_highlighted s) = _lines s /\
  length (_highlighted s) = length (_lines s).
Proof.
  intros s.
  assert (Hcs' : Forall call_ok (cs ++ [CallRender x y width height])).
  { apply Forall_app. split; [done|]. by repeat constructor. }
  destruct (reachable_cache lex lang _ Hlex Hcs') as [_ Hcache].
  fold s in Hcache.
  assert (Hd : _highlight_dirty s = false).
  { subst s. unfold do_calls. rewrite foldl_app. cbn [foldl do_call].
    unfold exec at 1. rewrite render_exec. cbn [snd]. attrs.
    apply rehighlight_exec_clean. }
  split_and!; [done | by apply Hcache |].
  apply (f_equal length) in Hcache; [|done]. by rewrite length_map in Hcache.
Qed.

Lemma rendered_cache_spells_buffer_witness :
  lexer_spells text_lexer /\
  Forall call_ok [CallKey (char_key "a"); CallKey enter_key] /\
  _highlight_dirty
    (do_calls text_lexer
       ([CallKey (char_key "a"); CallKey enter_key] ++ [CallRender 0 0 80 24])
       (init "python")) = false.
Proof.
  assert (H1 : lexer_spells text_lexer).
  { intros lang t. unfold text_lexer. simpl. apply app_nil_r. }
  assert (H2 : Forall call_ok [CallKey (char_key "a"); CallKey enter_key]).
  { constructor; [|constructor; [|constructor]].
    - intros _. by repeat constructor.
    - intros H. vm_compute in H. discriminate. }
  split; [exact H1|]. split; [exact H2|].
  exact (proj1 (rendered_cache_spells_buffer text_lexer "python" _ 0 0 80 24 H1 H2)).
Defined.

(** ** Plain-text helpers *)

Lemma repeat_str_space n :
  Core.repeat_str [Py.space] n = replicate (Z.to_nat n) Py.space.
Proof.
  unfold Core.repeat_str. induction (Z.to_nat n) as [|k IH]; [done|].
  simpl. by rewrite IH.
Qed.

Lemma slice_to_length {A} (l : list A) i :
  0 <= i <= Py.len l -> Py.len (Py.slice_to l i) = i.
Proof.
  intros Hi. rewrite slice_to_inside by done. unfold Py.len in *.
  rewrite length_take. lia.
Qed.

Lemma truncate_length text width :
  Py.len (Core.truncate text width) = Z.min (Py.len text) (Z.max 0 width).
Proof.
  unfold Core.truncate.
  destruct (Z.leb_spec width 0); [unfold Py.len in *; simpl; lia|].
  destruct (Z.leb_spec (Py.len text) width); [lia|].
  destruct (Z.leb_spec width 3).
  - rewrite slice_to_length; lia.
  - rewrite len_app, slice_to_length by lia.
    change (Py.len (Py.of_string "...")) with 3. lia.
Qed.

(** [truncate(text, width)] has [min(len(text), max(0, width))] characters.
    A text that fits a positive width is returned as it is; a longer one
    is cut to [width] characters, and for a width above 3 the last three are
    dots, after the first [width - 3] characters of the text. Truncating
    again to the same width changes nothing. *)
Theorem truncate_fits_width (text : Py.str) (width : Z) :
  Py.len (Core.truncate text width) = Z.min (Py.len text) (Z.max 0 width) /\
  (0 < width -> Py.len text <= width -> Core.truncate text width = text) /\
  (3 < width < Py.len text ->
   Core.truncate text width
   = take (Z.to_nat (width - 3)) text ++ Py.of_string "...") /\
  (0 < width <= 3 -> width < Py.len text ->
   Core.truncate text width = take (Z.to_nat width) text) /\
  Core.truncate (Core.truncate text width) width = Core.truncate text width.
Proof.
  split_and!.
  - apply truncate_length.
  - intros Hw Hfit. unfold Core.truncate.
    destruct (Z.leb_spec width 0); [lia|].
    by destruct (Z.leb_spec (Py.len text) width); [|lia].
  - intros Hw. unfold Core.truncate.
    destruct (Z.leb_spec width 0); [lia|].
    destruct (Z.leb_spec (Py.len text) width); [lia|].
    destruct (Z.leb_spec width 3); [lia|].
    by rewrite slice_to_inside by lia.
  - intros Hw Hlong. unfold Core.truncate.
    destruct (Z.leb_spec width 0); [lia|].
    destruct (Z.leb_spec (Py.len text) width); [lia|].
    destruct (Z.leb_spec width 3); [|lia].
    by rewrite slice_to_inside by lia.
  - pose proof (truncate_length text width) as Hlen.
    unfold Core.truncate at 1.
    destruct (Z.leb_spec width 0).
    { unfold Core.truncate. by destruct (Z.leb_spec width 0); [|lia]. }
    destruct (Z.leb_spec (Py.len (Core.truncate text width)) width); [done|lia].
Qed.

(** [pad_right(text, width)] has exactly [width] characters ([0] when
    [width] is not positive): the text truncated to [width], then spaces. A
    text that fits is kept whole. Padding again to the same width changes
    nothing. *)
Theorem pad_right_exact_width (text : Py.str) (width : Z) :
  Py.len (Core.pad_right text width) = Z.max 0 width /\
  (0 < width ->
   Core.pad_right text width
   = Core.truncate text width
     ++ replicate (Z.to_nat (width - Py.len (Core.truncate text width)))
          Py.space) /\
  (0 < width -> Py.len text <= width ->
   Core.pad_right text width
   = text ++ replicate (Z.to_nat (width - Py.len text)) Py.space) /\
  Core.pad_right (Core.pad_right text width) width = Core.pad_right text width.
Proof.
  pose proof (truncate_length text width) as Hlen.
  pose proof (len_nonneg text) as Hnn.
  assert (H1 : Py.len (Core.pad_right text width) = Z.max 0 width).
  { unfold Core.pad_right. destruct (Z.leb_spec width 0).
    - unfold Py.len. simpl. lia.
    - rewrite len_app, repeat_str_space, Hlen. unfold Py.len at 2.
      rewrite length_replicate. lia. }
  split_and!.
  - exact H1.
  - intros Hw. unfold Core.pad_right.
    destruct (Z.leb_spec width 0); [lia|]. by rewrite repeat_str_space.
  - intros Hw Hfit. unfold Core.pad_right.
    destruct (Z.leb_spec width 0); [lia|]. rewrite repeat_str_space.
    unfold Core.truncate.
    destruct (Z.leb_spec width 0); [lia|].
    by destruct (Z.leb_spec (Py.len text) width); [|lia].
  - unfold Core.pad_right at 1. destruct (Z.leb_spec width 0).
    { unfold Core.pad_right. by destruct (Z.leb_spec width 0); [|lia]. }
    rewrite repeat_str_space.
    assert (Ht : Core.truncate (Core.pad_right text width) width
                 = Core.pad_right text width).
    { unfold Core.truncate. destruct (Z.leb_spec width 0); [lia|].
      destruct (Z.leb_spec (Py.len (Core.pad_right text width)) width); [done|lia]. }
    rewrite Ht, H1.
    replace (Z.to_nat (width - Z.max 0 width)) with 0%nat by lia.
    apply app_nil_r.
Qed.

(** ** Screens *)

(** [check_resize] returns [True] exactly when the terminal size differs
    from the one the screen remembers; it then remembers the new size and
    marks the screen dirty. A second call at the same size returns [False]
    and leaves the screen as it is. *)
Theorem check_resize_detects_change (w h : Z) (sc : App.Screen) :
  let r := App.check_resize w h sc in
  (r.1 = false <-> App._prev_width sc = w /\ App._prev_height sc = h) /\
  (r.1 = false -> r.2 = sc) /\
  (r.1 = true -> App.dirty r.2 = true) /\
  App._prev_width r.2 = w /\ App._prev_height r.2 = h /\
  App.check_resize w h r.2 = (false, r.2).
Proof.
  unfold App.check_resize.
  destruct (Z.eqb_spec w (App._prev_width sc)) as [Hw|Hw];
    destruct (Z.eqb_spec h (App._prev_height sc)) as [Hh|Hh];
    simpl; rewrite ?Z.eqb_refl; simpl.
  all: split_and!; try done; try (split; [done|]; intros [? ?]; congruence).
  all: try (destruct (Z.eqb_spec w (App._prev_width sc));
            destruct (Z.eqb_spec h (App._prev_height sc)); simpl; congruence).
Qed.

(** *** The screen stack *)

Lemma pop_screen_nil (a : App.LeetCodeApp) :
  App._screen_stack a = [] -> App.pop_screen a = App.exit a.
Proof. intros E. unfold App.pop_screen. rewrite E. simpl. by rewrite E. Qed.

Lemma pop_screen_one (a : App.LeetCodeApp) old :
  App._screen_stack a = [old] ->
  App.pop_screen a = App.exit (App.set_screen_stack [] a).
Proof.
  intros E. unfold App.pop_screen. rewrite E.
  change [old] with ([] ++ [old]). by rewrite truthy_snoc, pop_last.
Qed.

Lemma pop_screen_more (a : App.LeetCodeApp) rest top old :
  App._screen_stack a = rest ++ [top; old] ->
  App.pop_screen a
  = App.on_enter top (App.set_screen_stack (rest ++ [top]) a).
Proof.
  intros E. unfold App.pop_screen. rewrite E.
  change (rest ++ [top; old]) with (rest ++ [top] ++ [old]).
  rewrite app_assoc, truthy_snoc, pop_last.
  unfold App.on_exit. cbn [App._screen_stack App.set_screen_stack].
  by rewrite truthy_snoc, getitem_last.
Qed.

Lemma stack_cases {A} (l : list A) :
  l = [] \/ (exists x, l = [x]) \/ exists rest x y, l = rest ++ [x; y].
Proof.
  destruct l as [|y l] using rev_ind; [by left|]. right.
  destruct l as [|x l'] using rev_ind; [left; by exists y|].
  right. exists l', x, y. by rewrite <- app_assoc.
Qed.

Lemma current_screen_stack a :
  App.current_screen a = last (App._screen_stack a).
Proof.
  unfold App.current_screen.
  destruct (App._screen_stack a) as [|x st _] using rev_ind; [done|].
  by rewrite truthy_snoc, getitem_last, last_snoc.
Qed.

Lemma pop_screen_spec (a : App.LeetCodeApp) :
  App._screen_stack (App.pop_screen a) = removelast (App._screen_stack a) /\
  App._notification (App.pop_screen a) = App._notification a /\
  App._running (App.pop_screen a)
  = (if App._screen_stack (App.pop_screen a) is [] then false
     else App._running a) /\
  (App.current_screen (App.pop_screen a) = None ->
   App.tasks (App.pop_screen a) = App.tasks a /\
   App.heap (App.pop_screen a) = App.heap a) /\
  (forall top,
     App.current_screen (App.pop_screen a) = Some top ->
     App.tasks (App.pop_screen a)
     = App.tasks a ++ from_option (fun o => entering_tasks o top) []
                        (App.heap a !! top) /\
     (forall o, App.heap (App.pop_screen a) !! top = Some o ->
        App.dirty (App.base o) = true) /\
     (forall id, id <> top ->
        App.heap (App.pop_screen a) !! id = App.heap a !! id)).
Proof.
  destruct (stack_cases (App._screen_stack a))
    as [E|[[old E]|(rest & top & old & E)]].
  - rewrite (pop_screen_nil a E), E. unfold App.exit. cbn. rewrite E.
    split_and!; try done. intros top. rewrite current_screen_stack. cbn.
    by rewrite E.
  - rewrite (pop_screen_one a old E), E. unfold App.exit. cbn.
    split_and!; try done.
  - rewrite (pop_screen_more a rest top old E), E.
    destruct (on_enter_spec top (App.set_screen_stack (rest ++ [top]) a))
      as (Hs & Hr & Hn & Ht & Hh & Hd).
    rewrite Hs, Hr, Hn, Ht. cbn.
    change (rest ++ [top; old]) with (rest ++ [top] ++ [old]).
    rewrite app_assoc, removelast_last.
    assert (Hc : App.current_screen
                   (App.on_enter top
                      (App.set_screen_stack (rest ++ [top]) a)) = Some top).
    { rewrite current_screen_stack, Hs. cbn. apply last_snoc. }
    rewrite Hc. split_and!; try done; [by destruct rest|].
    intros top' [= <-]. split_and!; done.
Qed.

(** On an empty stack [pop_screen] only stops the application; otherwise
    it removes the top screen, and either stops the
    application (nothing is left) or calls [on_enter] on the screen it
    uncovers: that screen is marked dirty, no other screen is touched,
    and a fetch is started exactly when the screen is a list screen
    without problems or a detail screen without its detail. After
    [push_screen], [pop_screen] gives the stack back. *)
Theorem pop_screen_uncovers (a : App.LeetCodeApp) (id : nat) :
  App._screen_stack (App.pop_screen a) = removelast (App._screen_stack a) /\
  App._notification (App.pop_screen a) = App._notification a /\
  App._running (App.pop_screen a)
  = (if App._screen_stack (App.pop_screen a) is [] then false
     else App._running a) /\
  (App.current_screen (App.pop_screen a) = None ->
   App.tasks (App.pop_screen a) = App.tasks a /\
   App.heap (App.pop_screen a) = App.heap a) /\
  (forall top,
     App.current_screen (App.pop_screen a) = Some top ->
     App.tasks (App.pop_screen a)
     = App.tasks a ++ from_option (fun o => entering_tasks o top) []
                        (App.heap a !! top) /\
     (forall o, App.heap (App.pop_screen a) !! top = Some o ->
        App.dirty (App.base o) = true) /\
     (forall id', id' <> top ->
        App.heap (App.pop_screen a) !! id' = App.heap a !! id')) /\
  App._screen_stack (App.pop_screen (App.push_screen id a))
  = App._screen_stack a /\
  App.current_screen (App.push_screen id a) = Some id.
Proof.
  destruct (pop_screen_spec a) as (H1 & H2 & H3 & H4 & H5).
  assert (Hpush : App._screen_stack (App.push_screen id a)
                  = App._screen_stack a ++ [id]).
  { unfold App.push_screen. by rewrite (proj1 (on_enter_spec _ _)). }
  split_and!; try done.
  - destruct (pop_screen_spec (App.push_screen id a)) as (-> & _).
    by rewrite Hpush, removelast_last.
  - rewrite current_screen_stack, Hpush. apply last_snoc.
Qed.

(** [replace_screen] puts the new screen in the place of the top screen:
    the screens below stay, and so does the depth of a stack that was not
    empty; on an empty stack it is [push_screen]. It never stops the
    application and leaves the notification; the new screen is the current
    one and its [on_enter] has run: a new list screen, which is what the
    application replaces the login screen with, gets its fetch. *)
Theorem replace_screen_keeps_depth (a : App.LeetCodeApp) (id : nat) :
  App._screen_stack (App.replace_screen id a)
  = removelast (App._screen_stack a) ++ [id] /\
  (App._screen_stack a <> [] ->
   length (App._screen_stack (App.replace_screen id a))
   = length (App._screen_stack a)) /\
  App.current_screen (App.replace_screen id a) = Some id /\
  App._running (App.replace_screen id a) = App._running a /\
  App._notification (App.replace_screen id a) = App._notification a /\
  App.tasks (App.replace_screen id a)
  = App.tasks a ++ from_option (fun o => entering_tasks o id) []
                     (App.heap a !! id) /\
  (forall b l,
     App.heap a !! id = Some (App.ProblemListScreen b false l) ->
     App.tasks (App.replace_screen id a)
     = App.tasks a ++ [App.FetchProblems id] /\
     App.heap (App.replace_screen id a) !! id
     = Some (App.ProblemListScreen (App.invalidate b) false true)) /\
  (forall o, App.heap (App.replace_screen id a) !! id = Some o ->
     App.dirty (App.base o) = true) /\
  (forall id', id' <> id ->
     App.heap (App.replace_screen id a) !! id' = App.heap a !! id').
Proof.
  assert (Hrep : exists a1,
            App.replace_screen id a = App.push_screen id a1 /\
            App._screen_stack a1 = removelast (App._screen_stack a) /\
            App._running a1 = App._running a /\
            App._notification a1 = App._notification a /\
            App.tasks a1 = App.tasks a /\ App.heap a1 = App.heap a).
  { unfold App.replace_screen.
    destruct (App._screen_stack a) as [|x st _] eqn:E using rev_ind.
    - exists a. simpl. by rewrite E.
    - rewrite truthy_snoc, pop_last, removelast_last.
      eexists. split; [reflexivity|]. done. }
  destruct Hrep as (a1 & -> & Hs1 & Hr1 & Hn1 & Ht1 & Hh1).
  unfold App.push_screen, Py.append.
  set (b := App.set_screen_stack _ a1).
  destruct (on_enter_spec id b) as (Hs & Hr & Hn & Ht & Hh & Hd).
  assert (Hb : App.heap b = App.heap a) by (subst b; cbn; done).
  assert (Hst : App._screen_stack (App.on_enter id b)
                = removelast (App._screen_stack a) ++ [id]).
  { rewrite Hs. subst b. cbn. by rewrite Hs1. }
  rewrite Hb in Ht.
  split_and!.
  - done.
  - intros Hne. rewrite Hst.
    destruct (App._screen_stack a) as [|x st _] using rev_ind; [done|].
    by rewrite removelast_last, !length_app.
  - rewrite current_screen_stack, Hst. apply last_snoc.
  - rewrite Hr. subst b. by cbn.
  - rewrite Hn. subst b. by cbn.
  - rewrite Ht. subst b. cbn. by rewrite Ht1.
  - intros sb l Hl. rewrite Hl in Ht. split.
    + rewrite Ht. subst b. cbn. by rewrite Ht1.
    + clearbody b. unfold App.on_enter. rewrite Hb, Hl. cbn.
      rewrite !lookup_alter_eq, Hb, Hl. done.
  - done.
  - intros id' Hid. rewrite Hh by done. by rewrite Hb.
Qed.

(** ** The problem list *)

Section ListScreen.
Variable P : Type.
Variable title_slug : P -> Py.str.
Variable paid_only : P -> bool.

Local Abbreviation Screen := (ProblemList.ProblemListScreen P).
Local Abbreviation handle_key := (ProblemList.handle_key P title_slug paid_only).

(** [_ensure_cursor_visible] leaves the cursor inside the window of
    [_visible_rows] rows that starts at [_scroll], for every cursor, scroll
    offset and terminal height (also a height below 5, where the window is
    one row). It moves the window only when the cursor was outside, changes
    nothing else, and a scroll offset that was not negative stays so. *)
Theorem ensure_cursor_visible_bounds (h : Z) (s : Screen) :
  let s' := ProblemList._ensure_cursor_visible P h s in
  let visible := ProblemList._visible_rows h in
  1 <= visible /\ (5 <= h -> visible = h - 4) /\
  ProblemList._scroll P s' <= ProblemList._cursor P s'
    < ProblemList._scroll P s' + visible /\
  s' = ProblemList.set_scroll P (ProblemList._scroll P s') s /\
  (ProblemList._scroll P s <= ProblemList._cursor P s
     < ProblemList._scroll P s + visible -> s' = s) /\
  (0 <= ProblemList._cursor P s -> 0 <= ProblemList._scroll P s ->
   0 <= ProblemList._scroll P s') /\
  ProblemList._ensure_cursor_visible P h s' = s'.
Proof.
  unfold ProblemList._ensure_cursor_visible, ProblemList._visible_rows.
  set (v := Z.max 1 (h - 4)). assert (1 <= v) by (subst v; lia).
  cbn zeta.
  destruct (Z.ltb_spec (ProblemList._cursor P s) (ProblemList._scroll P s));
    [|destruct (Z.geb_spec (ProblemList._cursor P s)
                  (ProblemList._scroll P s + v))]; cbn.
  - rewrite Z.ltb_irrefl.
    destruct (Z.geb_spec (ProblemList._cursor P s) (ProblemList._cursor P s + v));
      [lia|].
    split_and!; try done; try lia.
  - destruct (Z.ltb_spec (ProblemList._cursor P s)
                (ProblemList._cursor P s - v + 1)); [lia|].
    destruct (Z.geb_spec (ProblemList._cursor P s)
                (ProblemList._cursor P s - v + 1 + v)); [lia|].
    split_and!; try done; try lia.
  - destruct (Z.ltb_spec (ProblemList._cursor P s) (ProblemList._scroll P s));
      [lia|].
    destruct (Z.geb_spec (ProblemList._cursor P s)
                (ProblemList._scroll P s + v)); [lia|].
    split_and!; try done; try lia. by destruct s.
Qed.

Lemma diff_cycle_next d :
  In d ProblemList._DIFF_CYCLE ->
  exists i d', ProblemList.list_index ProblemList._DIFF_CYCLE d = Some i /\
    Py.getitem ProblemList._DIFF_CYCLE
      ((i + 1) mod Py.len ProblemList._DIFF_CYCLE) = Some d' /\
    In d' ProblemList._DIFF_CYCLE.
Proof.
  intros Hd. unfold ProblemList._DIFF_CYCLE in *. simpl in Hd.
  destruct Hd as [<-|[<-|[<-|[<-|[]]]]]; eexists _, _;
    (split; [reflexivity|]); (split; [reflexivity|]); simpl; tauto.
Qed.

(** The key handler of the list screen never raises on a screen that
    satisfies [list_ok], and leaves one that satisfies it: the cursor stays
    an index of the problems, the offset a whole number of pages that is
    not negative, the difficulty one of the cycle. A finished fetch keeps
    it as well. *)
Theorem list_handle_key_keeps_invariant (k : Keystroke) (s : Screen)
  (problems : list P) (total : Z) (Hok : list_ok s) :
  (exists s' effs,
     handle_key k s = Some (s', effs) /\ list_ok s' /\
     ProblemList._problems P s' = ProblemList._problems P s /\
     ProblemList._limit P s' = ProblemList._limit P s) /\
  list_ok (ProblemList.fetch_succeeded P problems total s) /\
  list_ok (ProblemList.init P).
Proof.
  destruct Hok as (Hc & Hcl & Hl & Hs & Hm & Hd).
  split_and!.
  - unfold ProblemList.handle_key, ProblemList._open_problem.
    repeat match goal with
           | |- context [if ?b then _ else _] =>
               lazymatch b with
               | context [if _ then _ else _] => fail
               | _ => destruct b eqn:?
               end
           end.
    all: try (eexists _, _; split; [reflexivity|];
              unfold list_ok, ProblemList.invalidate; cbn;
              split_and!; try done; zbool; try lia; fail).
    + (* page down *)
      eexists _, _. split; [reflexivity|]. unfold list_ok. cbn.
      split_and!; try done; zbool; try lia.
      rewrite Z.add_mod, Hm, Z_mod_same_full by lia. simpl.
      by rewrite Z.mod_0_l by lia.
    + (* page up *)
      eexists _, _. split; [reflexivity|]. unfold list_ok. cbn.
      split_and!; try done; zbool; try lia.
      destruct (Z.max_spec 0 (ProblemList._skip P s - ProblemList._limit P s))
        as [[? ->]|[? ->]]; [|by rewrite Z.mod_0_l by lia].
      rewrite Zminus_mod, Hm, Z_mod_same_full. simpl.
      by rewrite Z.mod_0_l by lia.
    + (* difficulty *)
      destruct (diff_cycle_next _ Hd) as (i & d' & -> & -> & Hd').
      eexists _, _. split; [reflexivity|]. unfold list_ok. cbn.
      split_and!; done.
    + (* enter *)
      match goal with
      | H : (negb _ || _) = false |- _ =>
          apply orb_false_elim in H as [Hne Hlt]
      end. zbool.
      destruct (Py.getitem (ProblemList._problems P s) (ProblemList._cursor P s))
        as [p|] eqn:Hg.
      * destruct (paid_only p); eexists _, _; (split; [reflexivity|]);
          unfold list_ok; split_and!; done.
      * exfalso. apply getitem_None in Hg; [done|lia].
  - unfold list_ok, ProblemList.fetch_succeeded, ProblemList.invalidate. cbn.
    split_and!; try done. by left.
  - unfold list_ok. cbn. split_and!; try done; try lia; by left.
Qed.

End ListScreen.

Lemma list_handle_key_keeps_invariant_witness :
  list_ok (ProblemList.init unit) /\
  exists s' effs,
    ProblemList.handle_key unit (fun _ => []) (fun _ => false)
      (char_key "j") (ProblemList.init unit) = Some (s', effs).
Proof.
  assert (H : list_ok (ProblemList.init unit)).
  { unfold list_ok. cbn. split_and!; try done; try lia; by left. }
  split; [exact H|].
  destruct (proj1 (list_handle_key_keeps_invariant unit (fun _ => [])
                     (fun _ => false) (char_key "j") _ [] 0 H))
    as (s' & effs & Hk & _).
  exists s', effs. exact Hk.
Defined.

Lemma name_is_unique k a b :
  name_is k a = true -> name_is k b = true -> a = b.
Proof.
  unfold name_is. destruct (name k) as [m|]; [|done].
  intros Ha Hb. apply String.eqb_eq in Ha, Hb. congruence.
Qed.

Lemma slice_to_drop_last {A} (l : list A) x :
  Py.slice_to (l ++ [x]) (-1) = l.
Proof.
  unfold Py.slice_to, Py.bound, Py.len. rewrite length_app. simpl.
  replace (Z.to_nat _) with (length l) by lia.
  by rewrite take_app_length.
Qed.

Section ListSearch.
Variable P : Type.
Variable title_slug : P -> Py.str.
Variable paid_only : P -> bool.

Local Abbreviation Screen := (ProblemList.ProblemListScreen P).
Local Abbreviation handle_key := (ProblemList.handle_key P title_slug paid_only).

(** While the search line is open the list screen keeps every key to
    itself: no key raises, quits, logs out or opens a problem, and the
    problems, the cursor and the difficulty stay. A fetch is started by
    Enter alone, which commits the buffer as the search text, goes back to
    the first page and closes the search line; Escape closes it and keeps
    the search text that was in force. *)
Theorem search_mode_captures_keys (k : Keystroke) (s : Screen)
  (Hs : ProblemList._searching P s = true) :
  exists s' effs,
    handle_key k s = Some (s', effs) /\
    (effs = [] \/ effs = [ProblemList.FetchTask]) /\
    (effs = [ProblemList.FetchTask] <-> name_is k "KEY_ENTER" = true) /\
    ProblemList._problems P s' = ProblemList._problems P s /\
    ProblemList._cursor P s' = ProblemList._cursor P s /\
    ProblemList._difficulty P s' = ProblemList._difficulty P s /\
    (name_is k "KEY_ENTER" = true ->
     ProblemList._search P s' = ProblemList._search_buffer P s /\
     ProblemList._skip P s' = 0 /\
     ProblemList._searching P s' = false) /\
    (name_is k "KEY_ENTER" = false ->
     ProblemList._search P s' = ProblemList._search P s /\
     ProblemList._skip P s' = ProblemList._skip P s) /\
    (name_is k "KEY_ESCAPE" = true ->
     ProblemList._searching P s' = false /\
     ProblemList._search_buffer P s' = ProblemList._search_buffer P s) /\
    (ProblemList._searching P s' = false <->
     name_is k "KEY_ESCAPE" = true \/ name_is k "KEY_ENTER" = true).
Proof.
  unfold ProblemList.handle_key. rewrite Hs.
  destruct (name_is k "KEY_ESCAPE") eqn:Hesc.
  { assert (name_is k "KEY_ENTER" = false) as ->.
    { destruct (name_is k "KEY_ENTER") eqn:He; [|done].
      by pose proof (name_is_unique _ _ _ Hesc He). }
    eexists _, _. split; [reflexivity|]. cbn.
    split_and!; try done; try (by left); try tauto. }
  destruct (name_is k "KEY_ENTER") eqn:Hent.
  { eexists _, _. split; [reflexivity|]. cbn.
    split_and!; try done; try (by right); try tauto. }
  repeat match goal with
         | |- context [if ?b then _ else _] =>
             lazymatch b with
             | context [if _ then _ else _] => fail
             | _ => destruct b eqn:?
             end
         end.
  all: eexists _, _; (split; [reflexivity|]); cbn;
    split_and!; try done; try (by left); try (split; [done|]);
    try (rewrite Hs; split; [done|intros [?|?]; done]).
Qed.

(** On the open search line a key that types one character appends it to
    the buffer, and Backspace (or Delete) after it gives the buffer back;
    on an empty buffer Backspace changes nothing. Neither touches the
    search text in force, and opening the search line with [/] starts from
    that text. *)
Theorem search_type_then_backspace (k kb : Keystroke) (s : Screen)
  (Hs : ProblemList._searching P s = true)
  (Hk : types_char k)
  (Hkb : name_is kb "KEY_BACKSPACE" = true \/ name_is kb "KEY_DELETE" = true) :
  exists s1 s2,
    handle_key k s = Some (s1, []) /\
    ProblemList._search_buffer P s1 = ProblemList._search_buffer P s ++ text k /\
    handle_key kb s1 = Some (s2, []) /\
    s2 = ProblemList.invalidate P s /\
    (ProblemList._search_buffer P s = [] -> handle_key kb s = Some (s, [])) /\
    (forall s0, ProblemList._searching P s0 = false ->
       exists s3, handle_key (char_key "/") s0 = Some (s3, []) /\
         ProblemList._searching P s3 = true /\
         ProblemList._search_buffer P s3 = ProblemList._search P s0 /\
         ProblemList._search P s3 = ProblemList._search P s0).
Proof.
  destruct Hk as (Hn & Hseq & Hlen).
  destruct (text k) as [|c [|? ?]] eqn:Ht; try done.
  assert (Hnk : forall n, name_is k n = false).
  { intros n. unfold name_is. by rewrite Hn. }
  assert (Hesc : name_is kb "KEY_ESCAPE" = false).
  { destruct (name_is kb "KEY_ESCAPE") eqn:He; [|done].
    destruct Hkb as [H|H]; by pose proof (name_is_unique _ _ _ He H). }
  assert (Hent : name_is kb "KEY_ENTER" = false).
  { destruct (name_is kb "KEY_ENTER") eqn:He; [|done].
    destruct Hkb as [H|H]; by pose proof (name_is_unique _ _ _ He H). }
  assert (Hbs : name_is kb "KEY_BACKSPACE" || name_is kb "KEY_DELETE" = true).
  { destruct Hkb as [-> | ->]; [done|by rewrite orb_true_r]. }
  eexists _, _. split_and!.
  - unfold ProblemList.handle_key. rewrite Hs, !Hnk, Ht, Hseq. reflexivity.
  - reflexivity.
  - unfold ProblemList.handle_key. cbn. rewrite Hs, Hesc, Hent, Hbs.
    assert (Py.truthy (ProblemList._search_buffer P s ++ [c]) = true) as ->
      by (by destruct (ProblemList._search_buffer P s)).
    reflexivity.
  - rewrite slice_to_drop_last. by destruct s as [[]].
  - intros Hb. unfold ProblemList.handle_key.
    by rewrite Hs, Hesc, Hent, Hbs, Hb.
  - intros s0 Hs0. eexists. split_and!.
    + unfold ProblemList.handle_key. rewrite Hs0. reflexivity.
    + done.
    + done.
    + done.
Qed.

End ListSearch.

Lemma search_mode_captures_keys_witness :
  let s := ProblemList.set_searching unit true (ProblemList.init unit) in
  ProblemList._searching unit s = true /\
  exists s' effs,
    ProblemList.handle_key unit (fun _ => []) (fun _ => false)
      (char_key "q") s = Some (s', effs) /\
    (effs = [] \/ effs = [ProblemList.FetchTask]).
Proof.
  intros s. split; [reflexivity|].
  destruct (search_mode_captures_keys unit (fun _ => []) (fun _ => false)
              (char_key "q") s eq_refl) as (s' & effs & Hk & He & _).
  exists s', effs. split; [exact Hk | exact He].
Defined.

Lemma search_type_then_backspace_witness :
  let s := ProblemList.set_searching unit true (ProblemList.init unit) in
  ProblemList._searching unit s = true /\ types_char (char_key "a") /\
  exists s1 s2,
    ProblemList.handle_key unit (fun _ => []) (fun _ => false)
      (char_key "a") s = Some (s1, []) /\
    ProblemList.handle_key unit (fun _ => []) (fun _ => false)
      (named "KEY_BACKSPACE") s1 = Some (s2, []) /\
    s2 = ProblemList.invalidate unit s.
Proof.
  intros s.
  assert (Hk : types_char (char_key "a")) by (by split_and!).
  split; [reflexivity|]. split; [exact Hk|].
  destruct (search_type_then_backspace unit (fun _ => []) (fun _ => false)
              (char_key "a") (named "KEY_BACKSPACE") s eq_refl Hk
              (or_introl eq_refl))
    as (s1 & s2 & H1 & _ & H2 & H3 & _).
  exists s1, s2. split_and!; [exact H1 | exact H2 | exact H3].
Defined.

(** ** Wrapping of the description *)

Import ProblemDetail.

Lemma lstrip_decomp s :
  exists ws, s = ws ++ lstrip s /\ Forall (fun c => isspace c = true) ws.
Proof.
  induction s as [|c r IH]; [by exists []|].
  simpl. destruct (isspace c) eqn:Hc; [|by exists []].
  destruct IH as (ws & Hs & Hws). exists (c :: ws). split.
  - simpl. by rewrite <- Hs.
  - by constructor.
Qed.

Lemma lstrip_ws ws b :
  Forall (fun c => isspace c = true) ws -> lstrip (ws ++ b) = lstrip b.
Proof. induction 1 as [|c ws Hc _ IH]; [done|]. simpl. by rewrite Hc. Qed.

Lemma lstrip_idem s : lstrip (lstrip s) = lstrip s.
Proof.
  induction s as [|c r IH]; [done|]. simpl.
  destruct (isspace c) eqn:Hc; [done|]. simpl. by rewrite Hc.
Qed.

Lemma lstrip_length s : (length (lstrip s) <= length s)%nat.
Proof.
  destruct (lstrip_decomp s) as (ws & Hs & _).
  rewrite Hs at 2. rewrite length_app. lia.
Qed.

Lemma visible_app a b :
  visible_chars (a ++ b) = visible_chars a ++ visible_chars b.
Proof. apply List.filter_app. Qed.

Lemma visible_ws ws :
  Forall (fun c => isspace c = true) ws -> visible_chars ws = [].
Proof.
  induction 1 as [|c ws Hc _ IH]; [done|].
  unfold visible_chars in *. simpl. by rewrite Hc.
Qed.

Lemma visible_lstrip s : visible_chars (lstrip s) = visible_chars s.
Proof.
  destruct (lstrip_decomp s) as (ws & Hs & Hws).
  rewrite Hs at 2. rewrite visible_app, (visible_ws ws) by done. done.
Qed.

(** The indentation and the prefix of a line. *)
Lemma indent_prefix text :
  0 <= indent_of text <= Py.len text /\
  Py.len (Py.slice_to text (indent_of text)) = indent_of text /\
  Forall (fun c => isspace c = true) (Py.slice_to text (indent_of text)) /\
  text = Py.slice_to text (indent_of text) ++ lstrip text.
Proof.
  destruct (lstrip_decomp text) as (ws & Hs & Hws).
  assert (Hlen : length text = (length ws + length (lstrip text))%nat).
  { rewrite Hs at 1. by rewrite length_app. }
  assert (Hi : indent_of text = Py.len ws).
  { unfold indent_of, Py.len. lia. }
  assert (Hp : Py.slice_to text (indent_of text) = ws).
  { rewrite slice_to_inside by (rewrite Hi; unfold Py.len; lia).
    rewrite Hi. unfold Py.len. rewrite Nat2Z.id. rewrite Hs.
    by rewrite take_app_length. }
  rewrite Hp. split_and!; try done; rewrite Hi; unfold Py.len; lia.
Qed.

Lemma rfind_below_range s c lo n :
  rfind_below s c lo n = -1 \/
  (Z.of_nat lo <= rfind_below s c lo n < Z.of_nat n).
Proof.
  induction n as [|i IH]; [by left|]. simpl.
  destruct (_ && _) eqn:Hb.
  - right. apply andb_true_iff in Hb as [Hlo _].
    apply Nat.leb_le in Hlo. lia.
  - destruct IH as [->|IH]; [by left|right; lia].
Qed.

Lemma rfind_range s c a b :
  rfind s c a b = -1 \/
  (Z.of_nat (Py.bound s a) <= rfind s c a b < Z.of_nat (Py.bound s b)).
Proof. apply rfind_below_range. Qed.

(** The cut of a round: between the indentation and [max_w] when the
    indentation leaves room, [max_w] when it does not. *)
Lemma cut_range rest from indent max_w :
  0 <= indent -> max_w < Py.len rest ->
  let cut := rfind rest Py.space from max_w in
  let cut' := if cut <=? indent then max_w else cut in
  (indent < max_w -> indent < cut' <= max_w) /\
  (0 <= max_w <= indent -> cut' = max_w).
Proof.
  intros Hi Hl. cbv zeta.
  pose proof (rfind_range rest Py.space from max_w) as Hr.
  destruct (Z.leb_spec (rfind rest Py.space from max_w) indent) as [Hc|Hc].
  - lia.
  - destruct Hr as [Hr|Hr]; [lia|].
    split; intros ?; rewrite (bound_inside rest max_w) in Hr by lia; lia.
Qed.

Lemma wrap_loop_mono fuel fuel' from indent max_w prefix rest result r :
  wrap_loop fuel from indent max_w prefix rest result = Some r ->
  (fuel <= fuel')%nat ->
  wrap_loop fuel' from indent max_w prefix rest result = Some r.
Proof.
  revert fuel' rest result.
  induction fuel as [|fuel IH]; intros fuel' rest result; [done|].
  intros Hr Hle. destruct fuel' as [|fuel']; [lia|].
  simpl in *. destruct (Py.len rest >? max_w); [|done].
  apply IH; [done|lia].
Qed.

(** The loop with room behind the indentation: it ends within
    [len(rest)] rounds, every piece it appends and the rest it leaves fit,
    and no character other than whitespace is lost or moved. *)
Lemma wrap_loop_fits from indent max_w prefix :
  0 <= indent < max_w -> Py.len prefix <= indent ->
  Forall (fun c => isspace c = true) prefix ->
  forall fuel rest result, (length rest < fuel)%nat ->
  exists result' rest',
    wrap_loop fuel from indent max_w prefix rest result
      = Some (result', rest') /\
    fits max_w rest' /\
    (Forall (fits max_w) result -> Forall (fits max_w) result') /\
    visible_chars (concat result' ++ rest')
      = visible_chars (concat result ++ rest).
Proof.
  intros Hind Hpre Hws.
  induction fuel as [|fuel IH]; intros rest result Hfuel; [lia|].
  simpl. destruct (Z.gtb_spec (Py.len rest) max_w) as [Hgt|Hle].
  - destruct (cut_range rest from indent max_w) as [Hcut _]; [lia|lia|].
    cbv zeta in Hcut. specialize (Hcut ltac:(lia)).
    set (cut := if rfind rest Py.space from max_w <=? indent
                then max_w else rfind rest Py.space from max_w) in *.
    assert (Hin : 0 <= cut <= Py.len rest) by lia.
    rewrite slice_from_inside, slice_to_inside by done.
    destruct (IH (prefix ++ lstrip (drop (Z.to_nat cut) rest))
                (Py.append result (take (Z.to_nat cut) rest)))
      as (result' & rest' & Hrun & Hfit & Hall & Hvis).
    { rewrite length_app.
      pose proof (lstrip_length (drop (Z.to_nat cut) rest)) as Hl.
      rewrite length_drop in Hl. unfold Py.len in *. lia. }
    exists result', rest'. split_and!; [done|done| |].
    + intros Hres. apply Hall. unfold Py.append.
      apply Forall_app. split; [done|]. constructor; [|done].
      unfold fits, Py.len in *. rewrite length_take. lia.
    + rewrite Hvis. unfold Py.append.
      rewrite concat_app. simpl. rewrite app_nil_r.
      rewrite !visible_app, (visible_ws prefix), visible_lstrip by done.
      simpl. rewrite <- !visible_app, <- app_assoc.
      by rewrite take_drop.
  - exists result, rest. split_and!; done.
Qed.

(** The loop without room behind the indentation: a round leaves [rest]
    as it found it, so no number of rounds ends it. *)
Lemma wrap_loop_stuck from max_w text :
  0 <= max_w <= indent_of text -> max_w < Py.len text ->
  forall fuel result,
    wrap_loop fuel from (indent_of text) max_w
      (Py.slice_to text (indent_of text)) text result = None.
Proof.
  intros Hw Hl.
  destruct (indent_prefix text) as (Hi & Hplen & Hpws & Htext).
  induction fuel as [|fuel IH]; intros result; [done|].
  simpl. destruct (Z.gtb_spec (Py.len text) max_w) as [_|]; [|lia].
  destruct (cut_range text from (indent_of text) max_w) as [_ Hcut];
    [lia|lia|].
  cbv zeta in Hcut. rewrite (Hcut ltac:(lia)).
  rewrite slice_from_inside by lia.
  set (prefix := Py.slice_to text (indent_of text)) in *.
  assert (Hrest : prefix ++ lstrip (drop (Z.to_nat max_w) text) = text).
  { rewrite Htext at 1. rewrite drop_app_le by (unfold Py.len in *; lia).
    rewrite lstrip_ws by (by apply Forall_drop).
    rewrite lstrip_idem. by rewrite <- Htext. }
  rewrite Hrest. apply IH.
Qed.

(** With a negative [max_w] the condition of the loop holds for every
    [rest]. *)
Lemma wrap_loop_negative from indent max_w prefix :
  max_w < 0 ->
  forall fuel rest result,
    wrap_loop fuel from indent max_w prefix rest result = None.
Proof.
  intros Hw. induction fuel as [|fuel IH]; intros rest result; [done|].
  simpl. destruct (Z.gtb_spec (Py.len rest) max_w) as [_|];
    [apply IH|unfold Py.len in *; lia].
Qed.

Lemma wrap_loop_too_deep from max_w text :
  too_deep max_w text ->
  forall fuel result,
    wrap_loop fuel from (indent_of text) max_w
      (Py.slice_to text (indent_of text)) text result = None.
Proof.
  intros [Hl Hi] fuel result. destruct (Z.lt_ge_cases max_w 0).
  - by apply wrap_loop_negative.
  - apply wrap_loop_stuck; lia.
Qed.

Lemma wrap_loop_result from indent max_w prefix rest result :
  0 <= indent < max_w -> Py.len prefix <= indent ->
  Forall (fun c => isspace c = true) prefix ->
  exists result' rest',
    (forall fuel, (length rest < fuel)%nat ->
       wrap_loop fuel from indent max_w prefix rest result
         = Some (result', rest')) /\
    fits max_w rest' /\
    (Forall (fits max_w) result -> Forall (fits max_w) result') /\
    visible_chars (concat result' ++ rest')
      = visible_chars (concat result ++ rest).
Proof.
  intros Hind Hpre Hws.
  destruct (wrap_loop_fits from indent max_w prefix Hind Hpre Hws
              (S (length rest)) rest result ltac:(lia))
    as (result' & rest' & Hrun & Hrest).
  exists result', rest'. split; [|done].
  intros fuel Hfuel. eapply wrap_loop_mono; [exact Hrun|lia].
Qed.

(** What the [if rest:] after the loop appends. *)
Lemma append_rest max_w (result : list Py.str) rest :
  fits max_w rest ->
  let r := if Py.truthy rest then Py.append result rest else result in
  (Forall (fits max_w) result -> Forall (fits max_w) r) /\
  concat r = concat result ++ rest.
Proof.
  intros Hfit. destruct rest as [|c rest]; simpl.
  - by rewrite app_nil_r.
  - unfold Py.append. split.
    + intros Hres. apply Forall_app. split; [done|by constructor].
    + rewrite concat_app. simpl. by rewrite app_nil_r.
Qed.

Lemma rewrap_for_fits max_w lines :
  Forall (fun line => fits max_w line \/ indent_of line < max_w) lines ->
  forall result, exists r,
    (forall fuel, Forall (fun line => (length line < fuel)%nat) lines ->
       rewrap_for fuel lines max_w result = Some r) /\
    (Forall (fits max_w) result -> Forall (fits max_w) r) /\
    visible_chars (concat r) = visible_chars (concat (result ++ lines)) /\
    (Forall (fits max_w) lines -> r = result ++ lines).
Proof.
  induction 1 as [|line lines Hline _ IH]; intros result.
  { exists result. rewrite app_nil_r. split_and!; done. }
  destruct (Z.leb_spec (Py.len line) max_w) as [Hfit|Hlong].
  - destruct (IH (Py.append result line)) as (r & Hrun & Hall & Hvis & Heq).
    exists r. unfold Py.append in *. rewrite <- app_assoc in Hvis, Heq.
    split_and!.
    + intros fuel Hfuel. apply Forall_cons in Hfuel as [_ Hfuel]. simpl.
      destruct (Z.leb_spec (Py.len line) max_w); [|lia]. by apply Hrun.
    + intros Hres. apply Hall, Forall_app. split; [done|by constructor].
    + done.
    + intros Hfits. apply Forall_cons in Hfits as [_ Hfits]. by apply Heq.
  - destruct Hline as [Hfit|Hind]; [unfold fits in Hfit; lia|].
    destruct (indent_prefix line) as (Hi & Hplen & Hpws & _).
    destruct (wrap_loop_result (indent_of line) (indent_of line) max_w
                (Py.slice_to line (indent_of line)) line result)
      as (result' & rest' & Hloop & Hfit & Hall' & Hvis'); [lia|lia|done|].
    destruct (append_rest max_w result' rest' Hfit) as [Happ Hcat].
    cbv zeta in Happ, Hcat.
    destruct (IH (if Py.truthy rest' then Py.append result' rest'
                  else result')) as (r & Hrun & Hall & Hvis & _).
    exists r. split_and!.
    + intros fuel Hfuel. apply Forall_cons in Hfuel as [Hf Hfuel]. simpl.
      destruct (Z.leb_spec (Py.len line) max_w); [lia|].
      rewrite (Hloop fuel Hf). by apply Hrun.
    + intros Hres. by apply Hall, Happ, Hall'.
    + rewrite Hvis, !concat_app, concat_cons, Hcat, !visible_app.
      rewrite <- (visible_app (concat result')), Hvis', visible_app.
      by rewrite <- app_assoc.
    + intros Hfits. apply Forall_cons in Hfits as [Hf _].
      unfold fits in Hf. lia.
Qed.

(** [_wrap_for_box] on a line that fits, or whose indentation is narrower
    than [max_w]: the loop ends within [len(text)] rounds and the call
    returns lines that all fit; a line that fits is returned alone and
    unchanged. The lines hold the characters of [text] other than
    whitespace, in their order and with none added. *)
Theorem wrap_for_box_fits (text : Py.str) (max_w : Z)
  (Hroom : fits max_w text \/ indent_of text < max_w) :
  exists lines,
    (forall fuel, (length text < fuel)%nat ->
       _wrap_for_box fuel text max_w = Some lines) /\
    Forall (fits max_w) lines /\
    visible_chars (concat lines) = visible_chars text /\
    lines <> [] /\
    (fits max_w text -> lines = [text]).
Proof.
  unfold _wrap_for_box.
  destruct (Z.leb_spec (Py.len text) max_w) as [Hfit|Hlong].
  - exists [text]. split_and!; try done.
    + by repeat constructor.
    + simpl. by rewrite app_nil_r.
  - destruct Hroom as [Hfit|Hind]; [unfold fits in Hfit; lia|].
    destruct (indent_prefix text) as (Hi & Hplen & Hpws & _).
    destruct (wrap_loop_result 0 (indent_of text) max_w
                (Py.slice_to text (indent_of text)) text [])
      as (result' & rest' & Hloop & Hfit & Hall & Hvis); [lia|lia|done|].
    destruct (append_rest max_w result' rest' Hfit) as [Happ Hcat].
    cbv zeta in Happ, Hcat.
    exists (if Py.truthy rest' then Py.append result' rest' else result').
    split_and!.
    + intros fuel Hfuel. by rewrite (Hloop fuel Hfuel).
    + by apply Happ, Hall.
    + by rewrite Hcat, Hvis.
    + intros Hnil. rewrite Hnil in Hcat. simpl in Hcat.
      symmetry in Hcat. apply app_eq_nil in Hcat as [_ ->].
      destruct result'; [|done]. simpl in Hnil.
      specialize (Hloop (S (length text)) ltac:(lia)). simpl in Hloop.
      destruct (Z.gtb_spec (Py.len text) max_w); [|lia].
      assert (Hgrow : forall fuel from indent w prefix rest res r,
                wrap_loop fuel from indent w prefix rest res = Some r ->
                (length res <= length r.1)%nat).
      { clear. induction fuel as [|fuel IH]; intros * Hr; [done|].
        simpl in Hr. destruct (Py.len rest >? w).
        - apply IH in Hr. unfold Py.append in Hr.
          rewrite length_app in Hr. simpl in Hr. lia.
        - by simplify_eq. }
      apply Hgrow in Hloop. unfold Py.append in Hloop.
      rewrite length_app in Hloop. simpl in Hloop. lia.
    + intros Hfit'. unfold fits in Hfit'. lia.
Qed.

(** [_rewrap_lines] on lines each of which fits or has an indentation
    narrower than [max_w]: every loop ends within the length of its line
    and the call returns lines that all fit; lines that all fit are
    returned unchanged. The result holds the characters of the lines other
    than whitespace, in their order and with none added. *)
Theorem rewrap_lines_fits (lines : list Py.str) (max_w : Z)
  (Hroom : Forall (fun line => fits max_w line \/ indent_of line < max_w)
             lines) :
  exists out,
    (forall fuel, Forall (fun line => (length line < fuel)%nat) lines ->
       _rewrap_lines fuel lines max_w = Some out) /\
    Forall (fits max_w) out /\
    visible_chars (concat out) = visible_chars (concat lines) /\
    (Forall (fits max_w) lines -> out = lines).
Proof.
  destruct (rewrap_for_fits max_w lines Hroom [])
    as (r & Hrun & Hall & Hvis & Heq).
  exists r. split_and!; [done|by apply Hall|done|done].
Qed.

Lemma rewrap_for_too_deep max_w text after fuel before :
  too_deep max_w text ->
  forall result,
    rewrap_for fuel (before ++ text :: after) max_w result = None.
Proof.
  intros Hdeep. induction before as [|line before IH]; intros result; simpl.
  - destruct Hdeep as [Hl Hi].
    destruct (Z.leb_spec (Py.len text) max_w); [lia|].
    by rewrite wrap_loop_too_deep.
  - destruct (Py.len line <=? max_w); [apply IH|].
    destruct (wrap_loop _ _ _ _ _ _ _) as [[? ?]|]; [apply IH|done].
Qed.

(** A line that is longer than [max_w] and indented by [max_w] or more
    characters (every line that is longer than a negative [max_w]) stops
    both wrappers for good: each round of the loop appends a piece and
    leaves [rest] as it was, so [_wrap_for_box] never returns on such a
    line and [_rewrap_lines] never returns on lines that hold one. *)
Theorem wrap_never_returns (max_w : Z) (text : Py.str)
  (before after : list Py.str) (fuel : nat)
  (Hdeep : too_deep max_w text) :
  _wrap_for_box fuel text max_w = None /\
  _rewrap_lines fuel (before ++ text :: after) max_w = None.
Proof.
  split.
  - unfold _wrap_for_box. destruct Hdeep as [Hl Hi].
    destruct (Z.leb_spec (Py.len text) max_w); [lia|].
    by rewrite wrap_loop_too_deep.
  - by apply rewrap_for_too_deep.
Qed.

Lemma wrap_for_box_fits_witness :
  let text := Py.of_string "  hello world foo" in
  (fits 8 text \/ indent_of text < 8) /\
  exists lines,
    _wrap_for_box 18 text 8 = Some lines /\ Forall (fits 8) lines.
Proof.
  intros text.
  assert (H : fits 8 text \/ indent_of text < 8) by (right; vm_compute; done).
  split; [exact H|].
  destruct (wrap_for_box_fits text 8 H) as (lines & Hrun & Hfit & _).
  exists lines. split; [apply Hrun; vm_compute; lia | exact Hfit].
Defined.

Lemma rewrap_lines_fits_witness :
  let lines := [Py.of_string "ok"; Py.of_string "  hello world foo"] in
  Forall (fun line => fits 8 line \/ indent_of line < 8) lines /\
  exists out,
    _rewrap_lines 18 lines 8 = Some out /\ Forall (fits 8) out.
Proof.
  intros lines.
  assert (H : Forall (fun line => fits 8 line \/ indent_of line < 8) lines).
  { repeat constructor; right; vm_compute; done. }
  split; [exact H|].
  destruct (rewrap_lines_fits lines 8 H) as (out & Hrun & Hfit & _).
  exists out. split; [|exact Hfit].
  apply Hrun. repeat constructor; vm_compute; lia.
Defined.

Lemma wrap_never_returns_witness :
  let text := Py.of_string "    ab" in
  too_deep 2 text /\
  _wrap_for_box 100 text 2 = None /\
  _rewrap_lines 100 ([Py.of_string "ok"] ++ text :: []) 2 = None.
Proof.
  intros text.
  assert (H : too_deep 2 text) by (split; vm_compute; done).
  split; [exact H|].
  exact (wrap_never_returns 2 text [Py.of_string "ok"] [] 100 H).
Defined.
